(** * Ramp CTF solver: a shallow embedding of the extraction pipeline

    The development follows the layout of the JavaScript sources:

    - [src/config/constants.js]          constants [PATTERN] and [HTTP];
    - [src/utils/Logger.js]              module [Logger];
    - [src/utils/Validator.js]           module [Validator];
    - [src/services/HttpClient.js]       module [HttpClient];
    - [src/services/HtmlParser.js]       module [HtmlParser];
    - [src/services/UrlExtractor.js]     module [UrlExtractor];
    - [src/strategies/*.js]              modules [XPathStrategy],
                                         [JSDOMStrategy], [RegexStrategy];
    - [index.js]                         module [RampCTFSolver], [parseArgs],
                                         [displayHelp], [main].

    Conventions.

    - A JavaScript string is a [string]: a sequence of code units, here
      restricted to the Latin-1 range (one [ascii] per code unit).
    - Asynchronous code is sequential ([await] everywhere), so a method is a
      computation in the monad [M]: it reads and extends a chronological
      trace of the effects performed so far and either returns or throws.
    - A JavaScript [Error] is represented by its [message].
    - Console lines are recorded without their emoji decoration; the stack
      trace printed by [Logger.error] is not recorded.
    - What lies outside the repository is a parameter or follows its
      standard: the URL parser and the network are fields of [Platform];
      the two regular expressions are run by a backtracking matcher
      with the priorities of ECMAScript; the DOM, CSS selectors and XPath
      follow the DOM, Selectors and XPath 1.0 standards on a tree that
      stands for the parsed document.
    - The tree of the XML parser is read as the pinned xmldom (0.6) builds
      it from a text of type text/html, module [XMLDOM]: its elements lie in
      the XHTML namespace unless an [xmlns] attribute says otherwise, and
      its [getAttribute] gives the empty string for a missing attribute. *)

From Stdlib Require Import String Ascii List Arith Bool Lia.
From Stdlib Require Import DecimalString.
From Equations Require Import Equations.
Import ListNotations.

Set Warnings "-abstract-large-number,-register-all".

Local Open Scope list_scope.
Local Open Scope string_scope.

(* ===================================================================== *)
(** ** JavaScript strings *)
(* ===================================================================== *)

Module JS.

(** Template-literal rendering of a non-negative integer. *)
Definition dec (n : nat) : string := NilEmpty.string_of_uint (Nat.to_uint n).

(** [Array.prototype.join("")] on an array of strings. *)
Definition join (parts : list string) : string := String.concat "" parts.

(** [String.prototype.repeat]. *)
Fixpoint repeat (s : string) (n : nat) : string :=
  match n with
  | O => ""
  | S k => s ++ repeat s k
  end.

(** WhiteSpace and LineTerminator code units below 256:
    TAB, LF, VT, FF, CR, SP and NBSP. *)
Definition isWhiteSpace (c : ascii) : bool :=
  let n := nat_of_ascii c in
  (Nat.leb 9 n && Nat.leb n 13) || Nat.eqb n 32 || Nat.eqb n 160.

Fixpoint trimStart (s : string) : string :=
  match s with
  | String c s' => if isWhiteSpace c then trimStart s' else s
  | EmptyString => EmptyString
  end.

Fixpoint trimEnd (s : string) : string :=
  match s with
  | String c s' =>
      match trimEnd s' with
      | EmptyString => if isWhiteSpace c then EmptyString else String c EmptyString
      | t => String c t
      end
  | EmptyString => EmptyString
  end.

(** [String.prototype.trim]. *)
Definition trim (s : string) : string := trimEnd (trimStart s).

(** [String.prototype.includes]: [sub] occurs somewhere in [s]. *)
Fixpoint includes (sub s : string) : bool :=
  String.prefix sub s ||
  match s with
  | String _ s' => includes sub s'
  | EmptyString => false
  end.

(** The double quote character, as a string. *)
Definition dquote : string := String (ascii_of_nat 34) EmptyString.

(** ASCII lower case, used where HTML compares ASCII case-insensitively. *)
Definition asciiLower (c : ascii) : ascii :=
  let n := nat_of_ascii c in
  if Nat.leb 65 n && Nat.leb n 90 then ascii_of_nat (n + 32) else c.

Fixpoint toAsciiLower (s : string) : string :=
  match s with
  | String c s' => String (asciiLower c) (toAsciiLower s')
  | EmptyString => EmptyString
  end.

(** Simple case folding used by a regular expression with flag [i]
    (Canonicalize without flag [u]): [toUpperCase] on one code unit, kept
    only when the result stays in the same range. *)
Definition canonicalize (c : ascii) : ascii :=
  let n := nat_of_ascii c in
  if (Nat.leb 97 n && Nat.leb n 122) ||
     (Nat.leb 224 n && Nat.leb n 254 && negb (Nat.eqb n 247))
  then ascii_of_nat (n - 32)
  else c.

End JS.

(* ===================================================================== *)
(** ** Regular expressions of the sources *)
(* ===================================================================== *)

(** The two regular expressions of the repository are sequences of literal
    characters and starred character classes; one of the stars is the
    capture group.  The matcher is the backtracking matcher of ECMAScript
    restricted to these forms: a greedy star tries the longest repetition
    first, a lazy star the shortest. *)
Module Regex.

Inductive CharClass : Type :=
| AnyChar                       (* any character: the class of \s and \S *)
| NotChar (c : ascii).          (* any character but c                   *)

Inductive Atom : Type :=
| Lit (c : ascii)               (* a literal character                  *)
| Star (cls : CharClass)        (* greedy star of a class               *)
| LazyStar (cls : CharClass)    (* lazy star of a class                 *)
| Group (cls : CharClass).      (* group 1: a greedy star of a class    *)

Definition Pattern := list Atom.

Record RegExp := { source : Pattern; ignoreCase : bool }.

(** The pattern of a piece of literal source text. *)
Fixpoint lit (s : string) : Pattern :=
  match s with
  | String c s' => Lit c :: lit s'
  | EmptyString => []
  end.

Definition inClass (cls : CharClass) (c : ascii) : bool :=
  match cls with
  | AnyChar => true
  | NotChar x => negb (Ascii.eqb c x)
  end.

Definition sameChar (icase : bool) (c d : ascii) : bool :=
  if icase then Ascii.eqb (JS.canonicalize c) (JS.canonicalize d)
  else Ascii.eqb c d.

(** The result of a match: the content of group 1 ([None] while the group
    has not taken part) and the unread rest of the input. *)
Definition MatchResult : Type := option string * string.

(** A greedy star followed by the continuation [k]: the longest repetition
    is tried first, then the shorter ones. *)
Fixpoint greedyStar (cls : CharClass) (k : string -> option MatchResult)
  (s : string) : option MatchResult :=
  match s with
  | String d s' =>
      if inClass cls d then
        match greedyStar cls k s' with
        | Some r => Some r
        | None => k s
        end
      else k s
  | EmptyString => k s
  end.

(** A lazy star followed by the continuation [k]: the shortest repetition
    is tried first, then the longer ones. *)
Fixpoint lazyStar (cls : CharClass) (k : string -> option MatchResult)
  (s : string) : option MatchResult :=
  match k s with
  | Some r => Some r
  | None =>
      match s with
      | String d s' => if inClass cls d then lazyStar cls k s' else None
      | EmptyString => None
      end
  end.

(** The group: a greedy star that hands what it has read, [acc], to its
    continuation. *)
Fixpoint greedyGroup (cls : CharClass) (k : string -> string -> option MatchResult)
  (acc : string) (s : string) : option MatchResult :=
  match s with
  | String d s' =>
      if inClass cls d then
        match greedyGroup cls k (acc ++ String d EmptyString) s' with
        | Some r => Some r
        | None => k acc s
        end
      else k acc s
  | EmptyString => k acc s
  end.

(** [matchHere icase p cap s]: match pattern [p] against a prefix of [s];
    [cap] is the current content of group 1. *)
Fixpoint matchHere (icase : bool) (p : Pattern) (cap : option string) (s : string)
  : option MatchResult :=
  match p with
  | [] => Some (cap, s)
  | Lit c :: p' =>
      match s with
      | String d s' => if sameChar icase c d then matchHere icase p' cap s' else None
      | EmptyString => None
      end
  | Star cls :: p' => greedyStar cls (matchHere icase p' cap) s
  | LazyStar cls :: p' => lazyStar cls (matchHere icase p' cap) s
  | Group cls :: p' =>
      greedyGroup cls (fun acc => matchHere icase p' (Some acc)) EmptyString s
  end.

(** One search for the leftmost match at or after the start of [s]
    ([RegExp.prototype.exec] from [lastIndex]): the text skipped before the
    match, group 1, and the rest after the match. *)
Fixpoint search (re : RegExp) (s : string) : option (string * option string * string) :=
  match matchHere (ignoreCase re) (source re) None s with
  | Some (cap, rest) => Some (EmptyString, cap, rest)
  | None =>
      match s with
      | String c s' =>
          match search re s' with
          | Some (skipped, cap, rest) => Some (String c skipped, cap, rest)
          | None => None
          end
      | EmptyString => None
      end
  end.

Definition inspect {A : Type} (a : A) : { b : A | a = b } := exist _ a eq_refl.

(** The loop [while ((match = re.exec(s)) !== null) out.push(match[1])] of a
    global regular expression: the list of the values of group 1
    ([None] for [undefined]).  An empty match leaves [lastIndex] in place,
    so the loop never ends: the result is then [None]. *)
Equations execLoop (re : RegExp) (s : string) : option (list (option string))
  by wf (String.length s) lt :=
execLoop re s with inspect (search re s) := {
  | exist _ None _ => Some []
  | exist _ (Some (_, cap, rest)) _ with lt_dec (String.length rest) (String.length s) := {
      | left _ =>
          match execLoop re rest with
          | Some caps => Some (cap :: caps)
          | None => None
          end
      | right _ => None } }.

(** [s.replace(re, "")] for a global regular expression: every match is
    dropped; after an empty match the next character is copied. *)
Equations removeAll (re : RegExp) (s : string) : string
  by wf (String.length s) lt :=
removeAll re EmptyString := EmptyString;
removeAll re (String c s') with inspect (matchHere (ignoreCase re) (source re) None (String c s')) := {
  | exist _ None _ => String c (removeAll re s')
  | exist _ (Some (_, rest)) _ with lt_dec (String.length rest) (String.length (String c s')) := {
      | left _ => removeAll re rest
      | right _ => String c (removeAll re s') } }.

End Regex.


(* ===================================================================== *)
(** ** The document tree and its two query languages *)
(* ===================================================================== *)

(** The tree a parser hands to a strategy.  Names are as the parser leaves
    them (an HTML parser lower-cases element and attribute names). *)
Module DOM.

Inductive Node : Type :=
| Element (localName : string) (attributes : list (string * string))
          (childNodes : list Node)
| TextNode (data : string).

Record Document := {
  quirksMode : bool;                (* no doctype: compatMode is BackCompat *)
  documentNodes : list Node         (* the children of the document node   *)
}.

Definition childNodes (n : Node) : list Node :=
  match n with
  | Element _ _ kids => kids
  | TextNode _ => []
  end.

Definition localName (n : Node) : string :=
  match n with
  | Element name _ _ => name
  | TextNode _ => EmptyString
  end.

(** [Element.getAttribute] as the DOM standard has it, which is what jsdom
    implements: the value of the first attribute with that name, [None]
    (null) when there is none. *)
Definition getAttribute (n : Node) (name : string) : option string :=
  match n with
  | Element _ attrs _ =>
      option_map snd (find (fun a => String.eqb (fst a) name) attrs)
  | TextNode _ => None
  end.

(** The elements of the subtree rooted at [n], in document order
    (a node before its children, children from first to last). *)
Fixpoint subtree (n : Node) : list Node :=
  match n with
  | Element _ _ kids => n :: flat_map subtree kids
  | TextNode _ => []
  end.

(** The descendant elements of [n], in document order. *)
Definition descendants (n : Node) : list Node := flat_map subtree (childNodes n).

Definition documentElements (d : Document) : list Node :=
  flat_map subtree (documentNodes d).

End DOM.

(** What the tree of the XML parser of the XPath strategy adds to the
    above: xmldom, in the version 0.6 that the package pins.  The elements
    of a tree stand for elements written without a prefix. *)
Module XMLDOM.

(** The default namespace of a text parsed with the type text/html. *)
Definition XHTML : string := "http://www.w3.org/1999/xhtml".

(** The namespace of an element without prefix is the default namespace in
    scope: the one that its own [xmlns] attribute declares, else the one of
    its parent, [inherited]; the top elements inherit [XHTML].  The empty
    string stands for no namespace. *)
Definition namespaceURI (inherited : string) (n : DOM.Node) : string :=
  match DOM.getAttribute n "xmlns" with
  | Some uri => uri
  | None => inherited
  end.

(** [Element.getAttribute] of xmldom, [attr && attr.value || '']:
    the value of the attribute, and the empty string, not null, when the
    element has no such attribute. *)
Definition getAttribute (n : DOM.Node) (name : string) : option string :=
  match DOM.getAttribute n name with
  | Some value => Some value
  | None => Some EmptyString
  end.

End XMLDOM.

(** CSS selectors of the forms the sources use: a type selector followed by
    attribute and class conditions. *)
Module Selector.

Inductive Condition : Type :=
| AttrContains (name value : string)   (* [name*=value] *)
| HasAttr (name : string)              (* [name]        *)
| Class (name : string).               (* .name         *)

Record t := { typeName : string; conditions : list Condition }.

Definition showCondition (c : Condition) : string :=
  match c with
  | AttrContains name value => "[" ++ name ++ "*=" ++ JS.dquote ++ value ++ JS.dquote ++ "]"
  | HasAttr name => "[" ++ name ++ "]"
  | Class name => "." ++ name
  end.

(** The text of the selector. *)
Definition show (sel : t) : string :=
  typeName sel ++ String.concat EmptyString (map showCondition (conditions sel)).

(** ASCII whitespace: TAB, LF, FF, CR and SPACE. *)
Definition isAsciiWhitespace (c : ascii) : bool :=
  let n := nat_of_ascii c in
  Nat.eqb n 9 || Nat.eqb n 10 || Nat.eqb n 12 || Nat.eqb n 13 || Nat.eqb n 32.

(** [splitTokens cur s]: the whitespace-separated tokens of [s], the first
    one prefixed by [cur]. *)
Fixpoint splitTokens (cur : string) (s : string) : list string :=
  match s with
  | String c s' =>
      if isAsciiWhitespace c then
        match cur with
        | EmptyString => splitTokens EmptyString s'
        | _ => cur :: splitTokens EmptyString s'
        end
      else splitTokens (cur ++ String c EmptyString) s'
  | EmptyString =>
      match cur with
      | EmptyString => []
      | _ => [cur]
      end
  end.

(** The classes of an element: the tokens of its [class] attribute. *)
Definition classList (n : DOM.Node) : list string :=
  match DOM.getAttribute n "class" with
  | Some v => splitTokens EmptyString v
  | None => []
  end.

(** Class names are compared exactly, and ASCII case-insensitively in a
    quirks-mode document. *)
Definition sameClass (quirks : bool) (a b : string) : bool :=
  if quirks then String.eqb (JS.toAsciiLower a) (JS.toAsciiLower b)
  else String.eqb a b.

Definition holds (quirks : bool) (n : DOM.Node) (c : Condition) : bool :=
  match c with
  | AttrContains name value =>
      match DOM.getAttribute n name with
      | Some v => negb (String.eqb value EmptyString) && JS.includes value v
      | None => false
      end
  | HasAttr name =>
      match DOM.getAttribute n name with
      | Some _ => true
      | None => false
      end
  | Class name => existsb (sameClass quirks name) (classList n)
  end.

Definition matches (quirks : bool) (sel : t) (n : DOM.Node) : bool :=
  match n with
  | DOM.Element name _ _ =>
      String.eqb name (typeName sel) && forallb (holds quirks n) (conditions sel)
  | DOM.TextNode _ => false
  end.

(** [document.querySelectorAll] and [element.querySelectorAll]: the
    matching descendants in document order. *)
Definition querySelectorAll (d : DOM.Document) (sel : t) : list DOM.Node :=
  filter (matches (DOM.quirksMode d) sel) (DOM.documentElements d).

Definition querySelectorAllIn (quirks : bool) (n : DOM.Node) (sel : t) : list DOM.Node :=
  filter (matches quirks sel) (DOM.descendants n).

End Selector.

(** XPath 1.0 location paths of the form the sources use: a sequence of
    steps [//name[predicate]] evaluated from the document node of a tree of
    the XML parser. *)
Module XPath.

Inductive Predicate : Type :=
| Contains (attribute substring : string)   (* contains(@attribute, 'substring') *)
| AttrEquals (attribute value : string).    (* @attribute='value'                *)

Record Step := { name : string; predicate : Predicate }.

Definition Expression := list Step.

Definition showStep (st : Step) : string :=
  "//" ++ name st ++ "[" ++
  match predicate st with
  | Contains a sub => "contains(@" ++ a ++ ", '" ++ sub ++ "')"
  | AttrEquals a v => "@" ++ a ++ "='" ++ v ++ "'"
  end ++ "]".

(** The text of the expression. *)
Definition show (e : Expression) : string :=
  String.concat EmptyString (map showStep e).

(** The string value of the attribute node-set [@a]: the value of the
    attribute, the empty string when the element has none. *)
Definition attributeString (n : DOM.Node) (a : string) : string :=
  match DOM.getAttribute n a with
  | Some v => v
  | None => EmptyString
  end.

Definition test (st : Step) (n : DOM.Node) : bool :=
  match n with
  | DOM.Element nm _ _ =>
      String.eqb nm (name st) &&
      match predicate st with
      | Contains a sub => JS.includes sub (attributeString n a)
      | AttrEquals a v =>
          match DOM.getAttribute n a with
          | Some x => String.eqb x v
          | None => false
          end
      end
  | DOM.TextNode _ => false
  end.

(** A name test without prefix takes the elements that lie in no
    namespace only. *)
Definition noNamespace (namespaceURI : string) : bool :=
  String.eqb namespaceURI EmptyString.

(** A node-set is a set of nodes of one document: the tree of the elements
    of the document, each with its namespace and a mark that tells whether
    it belongs to the set, and a mark for the document node. *)
Inductive Marked : Type :=
| Mark (selected : bool) (namespaceURI : string) (node : DOM.Node)
       (children : list Marked).

Record NodeSet := { hasDocument : bool; elements : list Marked }.

Fixpoint unmarked (inherited : string) (n : DOM.Node) : list Marked :=
  match n with
  | DOM.Element _ _ kids =>
      let uri := XMLDOM.namespaceURI inherited n in
      [Mark false uri n (flat_map (unmarked uri) kids)]
  | DOM.TextNode _ => []
  end.

(** The context of an absolute path: the document node alone. *)
Definition initial (d : DOM.Document) : NodeSet :=
  {| hasDocument := true;
     elements := flat_map (unmarked XMLDOM.XHTML) (DOM.documentNodes d) |}.

(** One step [//name[predicate]], that is
    [/descendant-or-self::node()/child::name[predicate]]: an element is
    in the result when it lies in no namespace, passes the test and some
    proper ancestor of it is in the context; [above] tells whether one has
    been seen. *)
Fixpoint descend (st : Step) (above : bool) (m : Marked) : Marked :=
  match m with
  | Mark selected uri n kids =>
      Mark (above && noNamespace uri && test st n) uri n
        (map (descend st (above || selected)) kids)
  end.

Definition applyStep (s : NodeSet) (st : Step) : NodeSet :=
  {| hasDocument := false;
     elements := map (descend st (hasDocument s)) (elements s) |}.

(** The members of a node-set as an array, in document order. *)
Fixpoint toArray (m : Marked) : list DOM.Node :=
  match m with
  | Mark selected _ n kids =>
      ((if selected then [n] else []) ++ flat_map toArray kids)%list
  end.

(** [xpath.select(expression, doc)]. *)
Definition select (e : Expression) (d : DOM.Document) : list DOM.Node :=
  flat_map toArray (elements (fold_left applyStep e (initial d))).

End XPath.

(* ===================================================================== *)
(** ** Effects: the trace monad *)
(* ===================================================================== *)

(** What one [https.get] produces: a complete response with its status
    line and body, a request that times out, or a transport error. *)
Inductive Response : Type :=
| HttpResponse (statusCode : nat) (statusMessage : string) (data : string)
| RequestTimeout
| NetworkError (message : string).

Inductive Event : Type :=
| Request (url : string)               (* an [https.get] is issued      *)
| Delay (ms : nat)                     (* a [setTimeout] is awaited     *)
| Console (tag : string) (line : string) (* a line is printed            *)
| Extract (name : string).             (* [strategy.extract] is called  *)

Definition Trace := list Event.

(** A call returns a value, throws an error, or never settles. *)
Inductive Outcome (A : Type) : Type :=
| Return (a : A)
| Throw (message : string)
| Hang.
Arguments Return {A} a.
Arguments Throw {A} message.
Arguments Hang {A}.

(** The environment of a run.  [urlParses url] tells whether [new URL(url)]
    returns.  [network k url] is the outcome of the request number [k]
    (counted from 0 over the whole run) when it is sent to [url].
    [parseFromString] is the DOMParser of xmldom called with the type
    text/html, [jsdom] is the constructor [new JSDOM(html)]. *)
Class Platform : Type := {
  urlParses : string -> bool;
  network : nat -> string -> Response;
  parseFromString : string -> Outcome DOM.Document;
  jsdom : string -> Outcome DOM.Document
}.

Definition M (A : Type) : Type := Trace -> Outcome A * Trace.

Definition ret {A : Type} (a : A) : M A := fun t => (Return a, t).

Definition throw {A : Type} (message : string) : M A := fun t => (Throw message, t).

Definition hang {A : Type} : M A := fun t => (Hang, t).

Definition bind {A B : Type} (m : M A) (k : A -> M B) : M B :=
  fun t =>
    match m t with
    | (Return a, t') => k a t'
    | (Throw e, t') => (Throw e, t')
    | (Hang, t') => (Hang, t')
    end.

(** [try { m } catch (error) { h error }]. *)
Definition try_catch {A : Type} (m : M A) (h : string -> M A) : M A :=
  fun t =>
    match m t with
    | (Return a, t') => (Return a, t')
    | (Throw e, t') => h e t'
    | (Hang, t') => (Hang, t')
    end.

Definition emit (e : Event) : M unit := fun t => (Return tt, (t ++ [e])%list).

(** A synchronous function that may throw, called inside a method. *)
Definition lift {A : Type} (o : Outcome A) : M A := fun t => (o, t).

Declare Scope monad_scope.
Delimit Scope monad_scope with monad.
Notation "x <- m ;; k" := (bind m (fun x => k))
  (at level 61, m at next level, right associativity) : monad_scope.
Notation "m ;; k" := (bind m (fun _ => k))
  (at level 61, right associativity) : monad_scope.
Local Open Scope monad_scope.

(** Observations of a trace. *)
Definition requests (t : Trace) : list string :=
  flat_map (fun e => match e with Request url => [url] | _ => [] end) t.

Definition delays (t : Trace) : list nat :=
  flat_map (fun e => match e with Delay ms => [ms] | _ => [] end) t.

Definition extracts (t : Trace) : list string :=
  flat_map (fun e => match e with Extract name => [name] | _ => [] end) t.

Definition printed (tag : string) (t : Trace) : list string :=
  flat_map (fun e => match e with
                     | Console tag' line => if String.eqb tag tag' then [line] else []
                     | _ => []
                     end) t.

(** Events that are console lines only. *)
Definition silent (ev : Trace) : Prop :=
  requests ev = [] /\ delays ev = [] /\ extracts ev = [].

(** The computation [m] returns [a] whatever the trace, and adds console
    lines only. *)
Definition quietly {A : Type} (m : M A) (a : A) : Prop :=
  forall t, exists ev, m t = (Return a, (t ++ ev)%list) /\ silent ev.

(** Every method of the logger is of that kind. *)
Definition logs (m : M unit) : Prop := quietly m tt.

(* ===================================================================== *)
(** ** src/config/constants.js *)
(* ===================================================================== *)

Module PATTERN.
Definition SECTION_DATA_ID : string := "92".
Definition ARTICLE_DATA_CLASS : string := "45".
Definition DIV_DATA_TAG : string := "78".
Definition B_CLASS : string := "ref".
Definition VALUE_ATTRIBUTE : string := "value".
End PATTERN.

Module HTTP.
Definition TIMEOUT : nat := 10000.
Definition MAX_RETRIES : nat := 3.
Definition RETRY_DELAY : nat := 1000.
End HTTP.

Inductive LogLevel : Type := ERROR | WARN | INFO | DEBUG.

(* ===================================================================== *)
(** ** src/utils/Logger.js *)
(* ===================================================================== *)

Module Logger.

Record t := { level : LogLevel }.

(** [new Logger()] has level INFO. *)
Definition default : t := {| level := INFO |}.

Definition levels (l : LogLevel) : nat :=
  match l with
  | ERROR => 0
  | WARN => 1
  | INFO => 2
  | DEBUG => 3
  end.

Definition _shouldLog (this : t) (messageLevel : LogLevel) : bool :=
  (levels messageLevel <=? levels (level this))%nat.

Definition error (this : t) (message : string) : M unit :=
  if _shouldLog this ERROR then emit (Console "ERROR" message) else ret tt.

Definition warn (this : t) (message : string) : M unit :=
  if _shouldLog this WARN then emit (Console "WARN" message) else ret tt.

Definition info (this : t) (message : string) : M unit :=
  if _shouldLog this INFO then emit (Console "INFO" message) else ret tt.

Definition debug (this : t) (message : string) : M unit :=
  if _shouldLog this DEBUG then emit (Console "DEBUG" message) else ret tt.

Definition success (this : t) (message : string) : M unit :=
  emit (Console "SUCCESS" message).

End Logger.

(* ===================================================================== *)
(** ** src/utils/Validator.js *)
(* ===================================================================== *)

Module Validator.

Definition validateUrl `{Platform} (url : string) : Outcome bool :=
  if urlParses url then Return true
  else Throw ("Invalid URL provided: " ++ url).

Definition validateHtml (html : string) : Outcome bool :=
  match html with
  | EmptyString => Throw "HTML content is empty or invalid"
  | _ =>
      if (String.length (JS.trim html) =? 0)%nat
      then Throw "HTML content is empty"
      else Return true
  end.

Definition validateCharacters (characters : list string) : Outcome bool :=
  if (List.length characters =? 0)%nat
  then Throw "No characters were extracted from the HTML"
  else Return true.

End Validator.

(* ===================================================================== *)
(** ** src/services/HttpClient.js *)
(* ===================================================================== *)

Module HttpClient.

Record t := {
  logger : Logger.t;
  timeout : nat;
  maxRetries : nat;
  retryDelay : nat
}.

Definition new (logger : Logger.t) : t :=
  {| logger := logger;
     timeout := HTTP.TIMEOUT;
     maxRetries := HTTP.MAX_RETRIES;
     retryDelay := HTTP.RETRY_DELAY |}.

Definition _makeRequest `{Platform} (this : t) (url : string) : M string :=
  fun tr =>
    let tr' := (tr ++ [Request url])%list in
    match network (List.length (requests tr)) url with
    | HttpResponse statusCode statusMessage data =>
        if negb (statusCode =? 200)%nat
        then (Throw ("HTTP " ++ JS.dec statusCode ++ ": " ++ statusMessage), tr')
        else (Return data, tr')
    | RequestTimeout => (Throw "Request timeout", tr')
    | NetworkError message => (Throw message, tr')
    end.

Definition _delay (this : t) (ms : nat) : M unit := emit (Delay ms).

(** The [try] block of [fetch]: one attempt. *)
Definition attempt `{Platform} (this : t) (url : string) (retryCount : nat) : M string :=
  lift (Validator.validateUrl url) ;;
  Logger.info (logger this)
    ("Fetching URL: " ++ url ++ " (Attempt " ++ JS.dec (retryCount + 1)
     ++ "/" ++ JS.dec (maxRetries this) ++ ")") ;;
  html <- _makeRequest this url ;;
  lift (Validator.validateHtml html) ;;
  Logger.success (logger this)
    ("Successfully fetched " ++ JS.dec (String.length html) ++ " characters") ;;
  ret html.

Equations? fetch `{Platform} (this : t) (url : string) (retryCount : nat) : M string
  by wf (maxRetries this - retryCount) lt :=
fetch this url retryCount :=
  try_catch
    (attempt this url retryCount)
    (fun error =>
     Logger.error (logger this)
       ("Fetch attempt " ++ JS.dec (retryCount + 1) ++ " failed") ;;
     match lt_dec retryCount (maxRetries this - 1) with
     | left _ =>
         Logger.info (logger this)
           ("Retrying in " ++ JS.dec (retryDelay this) ++ "ms...") ;;
         _delay this (retryDelay this) ;;
         fetch this url (retryCount + 1)
     | right _ =>
         throw ("Failed to fetch URL after " ++ JS.dec (maxRetries this)
                ++ " attempts: " ++ error)
     end).
Proof. lia. Qed.

End HttpClient.

(* ===================================================================== *)
(** ** src/strategies/ExtractionStrategy.js *)
(* ===================================================================== *)

(** The interface of a strategy: what [HtmlParser] calls on it. *)
Module ExtractionStrategy.

Record t := {
  getName : string;
  extract : string -> M (list string)
}.

End ExtractionStrategy.

(** [array.forEach((x, index) => ...)] where the callback pushes onto the
    array [characters]: the result is what all the calls pushed, in order. *)
Fixpoint forEach {A : Type} (f : A -> nat -> M (list string)) (l : list A)
  (index : nat) : M (list string) :=
  match l with
  | x :: l' =>
      pushed <- f x index ;;
      later <- forEach f l' (S index) ;;
      ret (pushed ++ later)%list
  | [] => ret []
  end.

(* ===================================================================== *)
(** ** src/strategies/XPathStrategy.js *)
(* ===================================================================== *)

Module XPathStrategy.

Record t := { logger : Logger.t }.

Definition _buildXPathExpression : XPath.Expression :=
  [ {| XPath.name := "section";
       XPath.predicate := XPath.Contains "data-id" PATTERN.SECTION_DATA_ID |};
    {| XPath.name := "article";
       XPath.predicate := XPath.Contains "data-class" PATTERN.ARTICLE_DATA_CLASS |};
    {| XPath.name := "div";
       XPath.predicate := XPath.Contains "data-tag" PATTERN.DIV_DATA_TAG |};
    {| XPath.name := "b";
       XPath.predicate := XPath.AttrEquals "class" PATTERN.B_CLASS |} ].

(** The callback of [nodes.forEach]; [node] is a node of the XML parser. *)
Definition readValue (this : t) (node : DOM.Node) (index : nat) : M (list string) :=
  match XMLDOM.getAttribute node PATTERN.VALUE_ATTRIBUTE with
  | Some value =>
      Logger.debug (logger this)
        ("Character " ++ JS.dec (index + 1) ++ ": " ++ JS.dquote ++ value ++ JS.dquote) ;;
      ret [value]
  | None => ret []
  end.

Definition extract `{Platform} (this : t) (html : string) : M (list string) :=
  try_catch
    (Logger.info (logger this) "Starting XPath extraction..." ;;
     doc <- lift (parseFromString html) ;;
     let xpathExpression := _buildXPathExpression in
     Logger.debug (logger this) "XPath expression:" ;;
     let nodes := XPath.select xpathExpression doc in
     Logger.info (logger this)
       ("Found " ++ JS.dec (List.length nodes) ++ " matching elements") ;;
     characters <- forEach (readValue this) nodes 0 ;;
     Logger.success (logger this)
       ("Extracted " ++ JS.dec (List.length characters) ++ " characters using XPath") ;;
     ret characters)
    (fun error =>
     Logger.error (logger this) "XPath extraction failed" ;;
     throw ("XPath extraction failed: " ++ error)).

Definition getName : string := "XPath Strategy".

Definition strategy `{Platform} (this : t) : ExtractionStrategy.t :=
  {| ExtractionStrategy.getName := getName;
     ExtractionStrategy.extract := extract this |}.

End XPathStrategy.

(* ===================================================================== *)
(** ** src/strategies/JSDOMStrategy.js *)
(* ===================================================================== *)

Module JSDOMStrategy.

Record t := { logger : Logger.t }.

Record Selectors := {
  section : Selector.t;
  article : Selector.t;
  div : Selector.t;
  b : Selector.t
}.

Definition _buildSelector : Selectors :=
  {| section :=
       {| Selector.typeName := "section";
          Selector.conditions := [Selector.AttrContains "data-id" PATTERN.SECTION_DATA_ID] |};
     article :=
       {| Selector.typeName := "article";
          Selector.conditions := [Selector.AttrContains "data-class" PATTERN.ARTICLE_DATA_CLASS] |};
     div :=
       {| Selector.typeName := "div";
          Selector.conditions := [Selector.AttrContains "data-tag" PATTERN.DIV_DATA_TAG] |};
     b :=
       {| Selector.typeName := "b";
          Selector.conditions :=
            [Selector.Class PATTERN.B_CLASS; Selector.HasAttr PATTERN.VALUE_ATTRIBUTE] |} |}.

(** The callback of [bTags.forEach]. *)
Definition readValue (this : t) (b : DOM.Node) (index : nat) : M (list string) :=
  match DOM.getAttribute b PATTERN.VALUE_ATTRIBUTE with
  | Some value =>
      Logger.debug (logger this)
        ("Found character: " ++ JS.dquote ++ value ++ JS.dquote) ;;
      ret [value]
  | None => ret []
  end.

(** The DOM calls made for one section do not throw, so the [try] around
    them is not shown. *)
Definition extract `{Platform} (this : t) (html : string) : M (list string) :=
  try_catch
    (Logger.info (logger this) "Starting JSDOM extraction..." ;;
     dom <- lift (jsdom html) ;;
     let document := dom in
     let quirks := DOM.quirksMode document in
     let selector := _buildSelector in
     let sections := Selector.querySelectorAll document (section selector) in
     Logger.debug (logger this)
       ("Found " ++ JS.dec (List.length sections) ++ " sections") ;;
     characters <-
       forEach (fun section sectionIndex =>
         let articles := Selector.querySelectorAllIn quirks section (article selector) in
         forEach (fun article _ =>
           let divs := Selector.querySelectorAllIn quirks article (div selector) in
           forEach (fun div _ =>
             let bTags := Selector.querySelectorAllIn quirks div (b selector) in
             forEach (readValue this) bTags 0)
           divs 0)
         articles 0)
       sections 0 ;;
     Logger.success (logger this)
       ("Extracted " ++ JS.dec (List.length characters) ++ " characters using JSDOM") ;;
     ret characters)
    (fun error =>
     Logger.error (logger this) "JSDOM extraction failed" ;;
     throw ("JSDOM extraction failed: " ++ error)).

Definition getName : string := "JSDOM Strategy".

Definition strategy `{Platform} (this : t) : ExtractionStrategy.t :=
  {| ExtractionStrategy.getName := getName;
     ExtractionStrategy.extract := extract this |}.

End JSDOMStrategy.

(* ===================================================================== *)
(** ** src/strategies/RegexStrategy.js *)
(* ===================================================================== *)

Module RegexStrategy.

Import Regex.

Record t := { logger : Logger.t }.

Definition notQuote : CharClass := NotChar (ascii_of_nat 34).
Definition notClosing : CharClass := NotChar ">".

(** An opening tag [name] that has, somewhere, the attribute [attribute]
    written with a double-quoted value that contains [substring]. *)
Definition tagPattern (name attribute substring : string) : Pattern :=
  (lit ("<" ++ name) ++ [Star notClosing] ++ lit (attribute ++ "=" ++ JS.dquote)
   ++ [Star notQuote] ++ lit substring ++ [Star notQuote] ++ lit JS.dquote
   ++ [Star notClosing] ++ lit ">")%list.

Definition sectionPattern : Pattern :=
  tagPattern "section" "data-id" PATTERN.SECTION_DATA_ID.

Definition articlePattern : Pattern :=
  (LazyStar AnyChar :: tagPattern "article" "data-class" PATTERN.ARTICLE_DATA_CLASS)%list.

Definition divPattern : Pattern :=
  (LazyStar AnyChar :: tagPattern "div" "data-tag" PATTERN.DIV_DATA_TAG)%list.

Definition bPattern : Pattern :=
  (LazyStar AnyChar :: lit "<b" ++ [Star notClosing]
   ++ lit ("class=" ++ JS.dquote ++ PATTERN.B_CLASS ++ JS.dquote)
   ++ [Star notClosing] ++ lit (PATTERN.VALUE_ATTRIBUTE ++ "=" ++ JS.dquote)
   ++ [Group notQuote] ++ lit JS.dquote ++ [Star notClosing] ++ lit ">")%list.

(** [new RegExp(fullPattern, "gi")]; the flag [g] is the loop of
    [Regex.execLoop]. *)
Definition _buildRegexPattern : RegExp :=
  {| source := (sectionPattern ++ articlePattern ++ divPattern ++ bPattern)%list;
     ignoreCase := true |}.

(** The body of the [while] loop for one match; [matchCount] has already
    been incremented. *)
Definition pushMatch (this : t) (group1 : option string) (matchCount : nat)
  : M (list string) :=
  let value := match group1 with Some v => v | None => EmptyString end in
  Logger.debug (logger this)
    ("Match " ++ JS.dec matchCount ++ ": " ++ JS.dquote ++ value ++ JS.dquote) ;;
  ret [value].

Definition extract (this : t) (html : string) : M (list string) :=
  try_catch
    (Logger.info (logger this) "Starting Regex extraction..." ;;
     Logger.debug (logger this) "Regex pattern built" ;;
     let pattern := _buildRegexPattern in
     characters <-
       match execLoop pattern html with
       | Some found => forEach (pushMatch this) found 1
       | None => hang
       end ;;
     Logger.success (logger this)
       ("Extracted " ++ JS.dec (List.length characters) ++ " characters using Regex") ;;
     ret characters)
    (fun error =>
     Logger.error (logger this) "Regex extraction failed" ;;
     throw ("Regex extraction failed: " ++ error)).

Definition getName : string := "Regex Strategy".

Definition strategy (this : t) : ExtractionStrategy.t :=
  {| ExtractionStrategy.getName := getName;
     ExtractionStrategy.extract := extract this |}.

End RegexStrategy.

(* ===================================================================== *)
(** ** src/services/HtmlParser.js *)
(* ===================================================================== *)

Module HtmlParser.

Record t := {
  strategies : list ExtractionStrategy.t;
  logger : Logger.t
}.

(** The text of [lastError?.message || "Unknown error"]. *)
Definition lastErrorMessage (lastError : option string) : string :=
  match lastError with
  | Some EmptyString => "Unknown error"
  | Some message => message
  | None => "Unknown error"
  end.

(** The [for ... of this.strategies] loop of [parse] with the [throw] that
    follows it.  The body of the loop either leaves [parse] with a value
    ([inl]) or goes on with the next strategy and its [lastError] ([inr]). *)
Fixpoint parse_loop (this : t) (html : string)
  (remaining : list ExtractionStrategy.t) (lastError : option string)
  : M (list string) :=
  match remaining with
  | strategy :: rest =>
      let name := ExtractionStrategy.getName strategy in
      step <-
        try_catch
          (Logger.info (logger this) ("Trying " ++ name ++ "...") ;;
           emit (Extract name) ;;
           characters <- ExtractionStrategy.extract strategy html ;;
           if (0 <? List.length characters)%nat then
             lift (Validator.validateCharacters characters) ;;
             Logger.success (logger this)
               ("Successfully extracted " ++ JS.dec (List.length characters)
                ++ " characters using " ++ name) ;;
             ret (inl characters)
           else ret (inr lastError))
          (fun error =>
           Logger.warn (logger this) (name ++ " failed: " ++ error) ;;
           ret (inr (Some error))) ;;
      match step with
      | inl characters => ret characters
      | inr lastError' => parse_loop this html rest lastError'
      end
  | [] =>
      throw ("All extraction strategies failed. Last error: "
             ++ lastErrorMessage lastError)
  end.

Definition parse (this : t) (html : string) : M (list string) :=
  try_catch
    (lift (Validator.validateHtml html) ;;
     Logger.info (logger this) "Starting HTML parsing with multiple strategies..." ;;
     parse_loop this html (strategies this) None)
    (fun error =>
     Logger.error (logger this) "HTML parsing failed" ;;
     throw error).

(** [addStrategy] pushes onto the array [this.strategies]; the parser after
    the call is the value returned. *)
Definition addStrategy (this : t) (strategy : ExtractionStrategy.t) : M t :=
  let this' := {| strategies := (strategies this ++ [strategy])%list;
                  logger := logger this |} in
  Logger.debug (logger this)
    ("Added strategy: " ++ ExtractionStrategy.getName strategy) ;;
  ret this'.

End HtmlParser.

(* ===================================================================== *)
(** ** src/services/UrlExtractor.js *)
(* ===================================================================== *)

Module UrlExtractor.

Record t := {
  httpClient : HttpClient.t;
  htmlParser : HtmlParser.t;
  logger : Logger.t
}.

Record Result := {
  url : string;
  flag : option string;
  characters : list string;
  characterCount : nat
}.

(** The regular expression of [_fetchFlag]: an opening angle bracket, any
    characters but a closing one, a closing angle bracket; flag [g]. *)
Definition tagRegExp : Regex.RegExp :=
  {| Regex.source := (Regex.lit "<" ++ [Regex.Star (Regex.NotChar ">")] ++ Regex.lit ">")%list;
     Regex.ignoreCase := false |}.

Definition _fetchHtml `{Platform} (this : t) (url : string) : M string :=
  Logger.info (logger this) "Step 1: Fetching HTML..." ;;
  try_catch
    (html <- HttpClient.fetch (httpClient this) url 0 ;;
     Logger.success (logger this)
       ("HTML fetched: " ++ JS.dec (String.length html) ++ " characters") ;;
     ret html)
    (fun error => throw ("Failed to fetch HTML: " ++ error)).

Definition _extractCharacters (this : t) (html : string) : M (list string) :=
  Logger.info (logger this) "Step 2: Extracting characters..." ;;
  try_catch
    (characters <- HtmlParser.parse (htmlParser this) html ;;
     Logger.success (logger this)
       ("Extracted " ++ JS.dec (List.length characters) ++ " characters") ;;
     ret characters)
    (fun error => throw ("Failed to extract characters: " ++ error)).

Definition _buildUrl `{Platform} (this : t) (characters : list string) : M string :=
  Logger.info (logger this) "Step 3: Building URL..." ;;
  try_catch
    (let url := JS.join characters in
     lift (Validator.validateUrl url) ;;
     Logger.success (logger this) ("URL built: " ++ url) ;;
     ret url)
    (fun error =>
     let url := JS.join characters in
     Logger.warn (logger this) ("Built string may not be a valid URL: " ++ url) ;;
     ret url).

Definition _fetchFlag `{Platform} (this : t) (url : string) : M (option string) :=
  Logger.info (logger this) "Step 4: Fetching flag..." ;;
  try_catch
    (response <- HttpClient.fetch (httpClient this) url 0 ;;
     let flag := JS.trim (Regex.removeAll tagRegExp response) in
     Logger.success (logger this) ("Flag retrieved: " ++ flag) ;;
     ret (Some flag))
    (fun error =>
     Logger.warn (logger this) ("Could not fetch flag automatically: " ++ error) ;;
     Logger.info (logger this)
       "Please open the URL manually in your browser to get the flag" ;;
     ret None).

Definition _displayResults (this : t) (result : Result) : M unit :=
  Logger.info (logger this) "" ;;
  Logger.info (logger this) (JS.repeat "=" 60) ;;
  Logger.success (logger this) "EXTRACTION COMPLETE!" ;;
  Logger.info (logger this) (JS.repeat "=" 60) ;;
  Logger.info (logger this) ("Hidden URL: " ++ url result) ;;
  match flag result with
  | Some (String c f) => Logger.info (logger this) ("Flag: " ++ String c f)
  | _ => ret tt
  end ;;
  Logger.info (logger this) ("Total characters: " ++ JS.dec (characterCount result)) ;;
  Logger.info (logger this) (JS.repeat "=" 60).

Definition extract `{Platform} (this : t) (challengeUrl : string) : M Result :=
  try_catch
    (Logger.info (logger this) (JS.repeat "=" 60) ;;
     Logger.info (logger this) "Starting URL extraction process..." ;;
     Logger.info (logger this) (JS.repeat "=" 60) ;;
     html <- _fetchHtml this challengeUrl ;;
     characters <- _extractCharacters this html ;;
     hiddenUrl <- _buildUrl this characters ;;
     flag <- _fetchFlag this hiddenUrl ;;
     let result :=
       {| url := hiddenUrl;
          flag := flag;
          characters := characters;
          characterCount := List.length characters |} in
     _displayResults this result ;;
     ret result)
    (fun error =>
     Logger.error (logger this) "URL extraction failed" ;;
     throw error).

End UrlExtractor.

(* ===================================================================== *)
(** ** index.js *)
(* ===================================================================== *)

(** [CHALLENGE_URL] of [src/config/constants.js]. *)
Definition CHALLENGE_URL : string :=
  "https://tns4lpgmziiypnxxzel5ss5nyu0nftol.lambda-url.us-east-1.on.aws/challenge".

(** How a call that may end the process comes back: with a value, or not
    at all because [process.exit(code)] was called. *)
Inductive Ending (A : Type) : Type :=
| Finished (a : A)
| Exited (code : nat).
Arguments Finished {A} a.
Arguments Exited {A} code.

Module RampCTFSolver.

Record t := {
  logger : Logger.t;
  httpClient : HttpClient.t;
  htmlParser : HtmlParser.t;
  extractor : UrlExtractor.t
}.

(** The constructor: one logger shared by the client, the three strategies
    in the order XPath, JSDOM, Regex, the parser and the extractor. *)
Definition new `{Platform} (logLevel : LogLevel) : t :=
  let logger := {| Logger.level := logLevel |} in
  let httpClient := HttpClient.new logger in
  let strategies :=
    [ XPathStrategy.strategy {| XPathStrategy.logger := logger |};
      JSDOMStrategy.strategy {| JSDOMStrategy.logger := logger |};
      RegexStrategy.strategy {| RegexStrategy.logger := logger |} ] in
  let htmlParser := {| HtmlParser.strategies := strategies; HtmlParser.logger := logger |} in
  {| logger := logger;
     httpClient := httpClient;
     htmlParser := htmlParser;
     extractor := {| UrlExtractor.httpClient := httpClient;
                     UrlExtractor.htmlParser := htmlParser;
                     UrlExtractor.logger := logger |} |}.

Definition run `{Platform} (this : t) : M (Ending UrlExtractor.Result) :=
  try_catch
    (Logger.info (logger this) "Ramp CTF Challenge Solver v1.0.0" ;;
     Logger.info (logger this) "Created by: Akash" ;;
     Logger.info (logger this) "" ;;
     result <- UrlExtractor.extract (extractor this) CHALLENGE_URL ;;
     Logger.info (logger this) "" ;;
     Logger.success (logger this) "Challenge completed successfully!" ;;
     Logger.info (logger this) "Copy the flag and paste it in your Ramp application" ;;
     ret (Finished result))
    (fun error =>
     Logger.error (logger this) "Failed to solve challenge" ;;
     ret (Exited 1)).

End RampCTFSolver.

Record Options := { debug : bool; help : bool }.

(** [parseArgs] reads [process.argv], here the argument [argv]; its
    [forEach] updates the object [options] flag by flag. *)
Definition parseArgs (argv : list string) : Options :=
  let args := skipn 2 argv in
  fold_left
    (fun options arg =>
       if String.eqb arg "--debug" || String.eqb arg "-d"
       then {| debug := true; help := help options |}
       else if String.eqb arg "--help" || String.eqb arg "-h"
       then {| debug := debug options; help := true |}
       else options)
    args {| debug := false; help := false |}.

Definition newline : string := String (ascii_of_nat 10) EmptyString.

(** The text that [displayHelp] prints with one [console.log]. *)
Definition helpText : string :=
  newline ++
  "Ramp CTF Challenge Solver" ++ newline ++
  newline ++
  "Usage: node index.js [options]" ++ newline ++
  newline ++
  "Options:" ++ newline ++
  "  -d, --debug    Enable debug logging" ++ newline ++
  "  -h, --help     Display this help message" ++ newline ++
  newline ++
  "Examples:" ++ newline ++
  "  node index.js           Run the solver" ++ newline ++
  "  node index.js --debug   Run with debug output" ++ newline.

(** A [console.log] made without the logger is recorded with the tag LOG,
    a [console.error] with the tag STDERR. *)
Definition displayHelp : M unit := emit (Console "LOG" helpText).

Definition main `{Platform} (argv : list string) : M (Ending unit) :=
  let options := parseArgs argv in
  if help options then
    displayHelp ;;
    ret (Exited 0)
  else
    let logLevel := if debug options then DEBUG else INFO in
    let solver := RampCTFSolver.new logLevel in
    r <- RampCTFSolver.run solver ;;
    match r with
    | Finished _ => ret (Finished tt)
    | Exited code => ret (Exited code)
    end.

(** The statement at the end of the file, run when the file is the main
    module: [main().catch(...)]. *)
Definition entryPoint `{Platform} (argv : list string) : M (Ending unit) :=
  try_catch
    (main argv)
    (fun error =>
     emit (Console "STDERR" ("Unexpected error: " ++ error)) ;;
     ret (Exited 1)).


(* ===================================================================== *)
(** ** Notions used to state the properties *)
(* ===================================================================== *)

Module Spec.

(** Every character of [s] is white space. *)
Fixpoint blank (s : string) : bool :=
  match s with
  | String c s' => JS.isWhiteSpace c && blank s'
  | EmptyString => true
  end.

(** The error with which the attempt of [HttpClient.fetch] that sends the
    request number [k] fails, [None] when that attempt succeeds. *)
Definition attemptFailure `{Platform} (k : nat) (url : string) : option string :=
  if urlParses url then
    match network k url with
    | HttpResponse statusCode statusMessage data =>
        if negb (statusCode =? 200)%nat
        then Some ("HTTP " ++ JS.dec statusCode ++ ": " ++ statusMessage)
        else
          match Validator.validateHtml data with
          | Throw e => Some e
          | _ => None
          end
    | RequestTimeout => Some "Request timeout"
    | NetworkError message => Some message
    end
  else Some ("Invalid URL provided: " ++ url).

(** The error thrown once the attempts are used up. *)
Definition fetchError (this : HttpClient.t) (cause : string) : string :=
  "Failed to fetch URL after " ++ JS.dec (HttpClient.maxRetries this)
  ++ " attempts: " ++ cause.

(** The error of [HtmlParser.parse] when no strategy delivered. *)
Definition allStrategiesFailed (lastError : option string) : string :=
  "All extraction strategies failed. Last error: "
  ++ HtmlParser.lastErrorMessage lastError.

Definition isAllStrategiesFailed (message : string) : bool :=
  String.prefix "All extraction strategies failed." message.

(** The trace at the moment [parse] enters [strategy.extract]. *)
Definition entering (this : HtmlParser.t) (s : ExtractionStrategy.t) (t : Trace) : Trace :=
  snd ((Logger.info (HtmlParser.logger this)
          ("Trying " ++ ExtractionStrategy.getName s ++ "...") ;;
        emit (Extract (ExtractionStrategy.getName s)))%monad t).

(** The trace after [parse] has reported that [s] threw [error]. *)
Definition warned (this : HtmlParser.t) (s : ExtractionStrategy.t) (error : string)
  (t : Trace) : Trace :=
  snd (Logger.warn (HtmlParser.logger this)
         (ExtractionStrategy.getName s ++ " failed: " ++ error) t).

(** The trace after [parse] has reported that [s] delivered [characters]. *)
Definition reported (this : HtmlParser.t) (s : ExtractionStrategy.t)
  (characters : list string) (t : Trace) : Trace :=
  snd (Logger.success (HtmlParser.logger this)
         ("Successfully extracted " ++ JS.dec (List.length characters)
          ++ " characters using " ++ ExtractionStrategy.getName s) t).

(** The trace when the loop of [parse] starts. *)
Definition started (this : HtmlParser.t) (t : Trace) : Trace :=
  snd (Logger.info (HtmlParser.logger this)
         "Starting HTML parsing with multiple strategies..." t).

(** Every strategy of [l], called in turn from trace [t], throws or returns
    the empty sequence: the result is the last error and the trace reached.
    [None] when some strategy returns a non-empty sequence or hangs. *)
Fixpoint allFail (this : HtmlParser.t) (html : string) (l : list ExtractionStrategy.t)
  (lastError : option string) (t : Trace) : option (option string * Trace) :=
  match l with
  | s :: rest =>
      match ExtractionStrategy.extract s html (entering this s t) with
      | (Return [], t1) => allFail this html rest lastError t1
      | (Throw e, t1) => allFail this html rest (Some e) (warned this s e t1)
      | _ => None
      end
  | [] => Some (lastError, t)
  end.

(** The trace after [parse] has reported its failure. *)
Definition failed (this : HtmlParser.t) (t : Trace) : Trace :=
  snd (Logger.error (HtmlParser.logger this) "HTML parsing failed" t).

(** A strategy that leaves the record of the calls of [extract] as it is. *)
Definition keepsCalls (s : ExtractionStrategy.t) : Prop :=
  forall (html : string) (t : Trace),
    extracts (snd (ExtractionStrategy.extract s html t)) = extracts t.

(** The parser [this] with another list of strategies. *)
Definition withStrategies (this : HtmlParser.t) (l : list ExtractionStrategy.t)
  : HtmlParser.t :=
  {| HtmlParser.strategies := l; HtmlParser.logger := HtmlParser.logger this |}.

(** The error that validation throws on a blank document. *)
Definition blankError (s : string) : string :=
  match s with
  | EmptyString => "HTML content is empty or invalid"
  | _ => "HTML content is empty"
  end.

(** A strategy that does nothing but deliver a fixed outcome. *)
Definition stub (name : string) (outcome : Outcome (list string)) : ExtractionStrategy.t :=
  {| ExtractionStrategy.getName := name;
     ExtractionStrategy.extract := fun _ => lift outcome |}.

(** Removal of tags, read off the words: an opening angle bracket and all
    that follows up to the next closing angle bracket is dropped; an opening
    bracket with no closing bracket after it stays.  [inside] tells whether
    the scan is inside a tag. *)
Fixpoint untilClosing (s : string) : option string :=
  match s with
  | String c s' => if Ascii.eqb c ">" then Some s' else untilClosing s'
  | EmptyString => None
  end.

Fixpoint hasClosing (s : string) : bool :=
  match s with
  | String c s' => Ascii.eqb c ">" || hasClosing s'
  | EmptyString => false
  end.

Fixpoint strip (inside : bool) (s : string) : string :=
  match s with
  | String c s' =>
      if inside then
        if Ascii.eqb c ">" then strip false s' else strip true s'
      else if Ascii.eqb c "<" && hasClosing s' then strip true s'
      else String c (strip false s')
  | EmptyString => EmptyString
  end.

Definition stripTags (s : string) : string := strip false s.

(** The trace when [UrlExtractor.extract] starts its first step. *)
Definition pipelineStart (this : UrlExtractor.t) (t : Trace) : Trace :=
  snd ((Logger.info (UrlExtractor.logger this) (JS.repeat "=" 60) ;;
        Logger.info (UrlExtractor.logger this) "Starting URL extraction process..." ;;
        Logger.info (UrlExtractor.logger this) (JS.repeat "=" 60))%monad t).

(** The trace when [_fetchFlag] calls [fetch]. *)
Definition flagFetchStart (this : UrlExtractor.t) (t : Trace) : Trace :=
  snd (Logger.info (UrlExtractor.logger this) "Step 4: Fetching flag..." t).

(** The record that [UrlExtractor.extract] returns. *)
Definition resultOf (characters : list string) (flag : option string)
  : UrlExtractor.Result :=
  {| UrlExtractor.url := JS.join characters;
     UrlExtractor.flag := flag;
     UrlExtractor.characters := characters;
     UrlExtractor.characterCount := List.length characters |}.

(** The end of [UrlExtractor.extract] once the flag step has settled. *)
Definition finish (this : UrlExtractor.t) (characters : list string)
  (r : Outcome (option string) * Trace) : Outcome UrlExtractor.Result * Trace :=
  match r with
  | (Return flag, t) =>
      (Return (resultOf characters flag),
       snd (UrlExtractor._displayResults this (resultOf characters flag) t))
  | (Throw e, t) =>
      (Throw e, snd (Logger.error (UrlExtractor.logger this) "URL extraction failed" t))
  | (Hang, t) => (Hang, t)
  end.

(** *** The pattern, read off the words *)

(** What a matched element adds to the output: its [value] attribute when
    it has one, the empty string included, and nothing otherwise. *)
Definition valueOf (b : DOM.Node) : list string :=
  match DOM.getAttribute b PATTERN.VALUE_ATTRIBUTE with
  | Some value => [value]
  | None => []
  end.

Definition isElement (name : string) (n : DOM.Node) : bool :=
  match n with
  | DOM.Element nm _ _ => String.eqb nm name
  | DOM.TextNode _ => false
  end.

(** The element has the attribute and its value contains [substring]. *)
Definition attributeContains (n : DOM.Node) (name substring : string) : bool :=
  match DOM.getAttribute n name with
  | Some v => JS.includes substring v
  | None => false
  end.

(** The element has the attribute and its value is [value]. *)
Definition attributeIs (n : DOM.Node) (name value : string) : bool :=
  match DOM.getAttribute n name with
  | Some v => String.eqb v value
  | None => false
  end.

Definition isSection (n : DOM.Node) : bool :=
  isElement "section" n && attributeContains n "data-id" PATTERN.SECTION_DATA_ID.

Definition isArticle (n : DOM.Node) : bool :=
  isElement "article" n && attributeContains n "data-class" PATTERN.ARTICLE_DATA_CLASS.

Definition isDiv (n : DOM.Node) : bool :=
  isElement "div" n && attributeContains n "data-tag" PATTERN.DIV_DATA_TAG.

(** A [b] element whose [class] attribute is exactly the required class. *)
Definition isRefB (n : DOM.Node) : bool :=
  isElement "b" n && attributeIs n "class" PATTERN.B_CLASS.

(** [enclosed tests ancestors]: among the ancestors of an element, listed
    from the outermost to the parent, there are elements that pass the
    tests, one for each test, each inside the one before. *)
Fixpoint enclosed {A : Type} (tests : list (A -> bool)) (ancestors : list A) : bool :=
  match ancestors, tests with
  | _, [] => true
  | [], _ :: _ => false
  | a :: inner, test :: tests' =>
      (test a && enclosed tests' inner) || enclosed tests inner
  end.

(** The innermost elements of the matching structures at or below [n], in
    document order: the [b] elements of class ref that lie in a matching
    div that lies in a matching article that lies in a matching section. *)
Fixpoint structuresIn (ancestors : list DOM.Node) (n : DOM.Node) : list DOM.Node :=
  match n with
  | DOM.Element _ _ kids =>
      (if isRefB n && enclosed [isSection; isArticle; isDiv] ancestors then [n] else [])
      ++ flat_map (structuresIn (ancestors ++ [n])) kids
  | DOM.TextNode _ => []
  end.

Definition structures (d : DOM.Document) : list DOM.Node :=
  flat_map (structuresIn []) (DOM.documentNodes d).

(** The values [v1..vN] of the matching structures, in document order. *)
Definition values (d : DOM.Document) : list string :=
  flat_map valueOf (structures d).

(** An element of the tree of the XML parser, given with its namespace,
    passes [test] and lies in no namespace. *)
Definition bare (test : DOM.Node -> bool) (e : string * DOM.Node) : bool :=
  String.eqb (fst e) EmptyString && test (snd e).

(** The innermost elements of the matching structures, at or below [n],
    whose four elements lie in no namespace, in document order;
    [inherited] is the default namespace in scope at [n] and the ancestors
    are given with their namespaces. *)
Fixpoint xmlStructuresIn (inherited : string) (ancestors : list (string * DOM.Node))
  (n : DOM.Node) : list DOM.Node :=
  match n with
  | DOM.Element _ _ kids =>
      (if bare isRefB (XMLDOM.namespaceURI inherited n, n)
          && enclosed [bare isSection; bare isArticle; bare isDiv] ancestors
       then [n] else [])
      ++ flat_map
           (xmlStructuresIn (XMLDOM.namespaceURI inherited n)
              (ancestors ++ [(XMLDOM.namespaceURI inherited n, n)]))
           kids
  | DOM.TextNode _ => []
  end.

Definition xmlStructures (d : DOM.Document) : list DOM.Node :=
  flat_map (xmlStructuresIn XMLDOM.XHTML []) (DOM.documentNodes d).

(** The [value] attribute of an element as a string: the value of the
    attribute, the empty string when the element has none. *)
Definition valueString (b : DOM.Node) : string :=
  match DOM.getAttribute b PATTERN.VALUE_ATTRIBUTE with
  | Some value => value
  | None => EmptyString
  end.

(** No element of the tree puts itself and its descendants in no
    namespace by an attribute [xmlns] with the empty value. *)
Definition namespaced (d : DOM.Document) : Prop :=
  forall n, In n (DOM.documentElements d) ->
  DOM.getAttribute n "xmlns" <> Some EmptyString.

(** No element that passes [test] lies inside another one that does. *)
Definition unnested (test : DOM.Node -> bool) (d : DOM.Document) : Prop :=
  forall n, In n (DOM.documentElements d) -> test n = true ->
  forall m, In m (DOM.descendants n) -> test m = false.

(** Every [b] element that has the required class among its classes has it
    as its whole [class] attribute. *)
Definition exactClasses (d : DOM.Document) : Prop :=
  forall n, In n (DOM.documentElements d) ->
  isElement "b" n = true ->
  existsb (Selector.sameClass (DOM.quirksMode d) PATTERN.B_CLASS) (Selector.classList n) = true ->
  attributeIs n "class" PATTERN.B_CLASS = true.

(** The [b] elements that the nested loops of [JSDOMStrategy.extract] visit,
    in the order of the visits. *)
Definition jsdomVisited (d : DOM.Document) : list DOM.Node :=
  let quirks := DOM.quirksMode d in
  let selector := JSDOMStrategy._buildSelector in
  flat_map (fun section =>
    flat_map (fun article =>
      flat_map (fun div =>
        Selector.querySelectorAllIn quirks div (JSDOMStrategy.b selector))
        (Selector.querySelectorAllIn quirks article (JSDOMStrategy.div selector)))
      (Selector.querySelectorAllIn quirks section (JSDOMStrategy.article selector)))
    (Selector.querySelectorAll d (JSDOMStrategy.section selector)).

(** The values that nested loops push, level by level, for the subtree of
    [k]: one loop for each of [tests] over the elements that pass it, each
    loop running over the descendants of the element of the loop around it,
    and an innermost loop over the elements that pass [inner]. *)
Fixpoint visitedAt (tests : list (DOM.Node -> bool)) (inner : DOM.Node -> bool)
  (k : DOM.Node) : list string :=
  match tests with
  | [] => flat_map valueOf (filter inner (DOM.subtree k))
  | test :: tests' =>
      flat_map (fun m => flat_map (visitedAt tests' inner) (DOM.childNodes m))
        (filter test (DOM.subtree k))
  end.

(** In the subtree of [k], a [b] element that has the required class among
    its classes has it as its whole [class] attribute. *)
Definition exactIn (quirks : bool) (k : DOM.Node) : Prop :=
  forall m, In m (DOM.subtree k) ->
  isElement "b" m = true ->
  existsb (Selector.sameClass quirks PATTERN.B_CLASS) (Selector.classList m) = true ->
  attributeIs m "class" PATTERN.B_CLASS = true.

(** In the subtree of [k], no element that passes [t] lies inside another. *)
Definition unnestedIn (t : DOM.Node -> bool) (k : DOM.Node) : Prop :=
  forall m, In m (DOM.subtree k) -> t m = true ->
  forall m', In m' (DOM.descendants m) -> t m' = false.

(** The value that the loop of [RegexStrategy.extract] pushes for a match. *)
Definition pushed (group1 : option string) : string :=
  match group1 with
  | Some v => v
  | None => EmptyString
  end.


(** The text that the regular expression of [RegexStrategy] requires for
    the class: the attribute name, the equals sign and the quoted class. *)
Definition classText : string :=
  "class=" ++ JS.dquote ++ PATTERN.B_CLASS ++ JS.dquote.

(** The HTML text of a tree whose names and strings need no escaping. *)
Definition renderAttribute (a : string * string) : string :=
  " " ++ fst a ++ "=" ++ JS.dquote ++ snd a ++ JS.dquote.

Fixpoint render (n : DOM.Node) : string :=
  match n with
  | DOM.Element name attrs kids =>
      "<" ++ name ++ String.concat EmptyString (map renderAttribute attrs) ++ ">"
      ++ String.concat EmptyString (map render kids)
      ++ "</" ++ name ++ ">"
  | DOM.TextNode data => data
  end.

Definition renderDocument (d : DOM.Document) : string :=
  String.concat EmptyString (map render (DOM.documentNodes d)).

(** One matching structure in its plainest form, with value [v] and class
    attribute [cls] on its innermost element. *)
Definition blockWith (cls v : string) : DOM.Node :=
  DOM.Element "section" [("data-id", PATTERN.SECTION_DATA_ID)]
    [DOM.Element "article" [("data-class", PATTERN.ARTICLE_DATA_CLASS)]
      [DOM.Element "div" [("data-tag", PATTERN.DIV_DATA_TAG)]
        [DOM.Element "b" [("class", cls); ("value", v)] []]]].

Definition block (v : string) : DOM.Node := blockWith PATTERN.B_CLASS v.

(** The same with any name for the second attribute of the innermost
    element. *)
Definition blockOf (cls name v : string) : DOM.Node :=
  DOM.Element "section" [("data-id", PATTERN.SECTION_DATA_ID)]
    [DOM.Element "article" [("data-class", PATTERN.ARTICLE_DATA_CLASS)]
      [DOM.Element "div" [("data-tag", PATTERN.DIV_DATA_TAG)]
        [DOM.Element "b" [("class", cls); (name, v)] []]]].

(** The document made of one such structure for each value, side by side. *)
Definition written (quirks : bool) (cls name : string) (vs : list string)
  : DOM.Document :=
  {| DOM.quirksMode := quirks; DOM.documentNodes := map (blockOf cls name) vs |}.

(** The document made of one plain structure for each value, side by side. *)
Definition plainDocument (quirks : bool) (vs : list string) : DOM.Document :=
  {| DOM.quirksMode := quirks; DOM.documentNodes := map block vs |}.

(** The closing tags of a structure. *)
Definition blockTail : string := "</b></div></article></section>".

(** The continuation [k] tried at the places inside [u], from the right to
    the left, with [s] after [u]: what a greedy star does when it gives back
    the characters of [u] one by one. *)
Fixpoint retry (k : string -> option Regex.MatchResult) (u s : string)
  : option Regex.MatchResult :=
  match u with
  | String c u' =>
      match retry k u' s with
      | Some r => Some r
      | None => k (String c u' ++ s)
      end
  | EmptyString => None
  end.

(** Every character of [u] is in the class. *)
Fixpoint allInClass (cls : Regex.CharClass) (u : string) : bool :=
  match u with
  | String c u' => Regex.inClass cls c && allInClass cls u'
  | EmptyString => true
  end.

(** [sub] occurs in [s] up to the case folding of a regular expression with
    flag [i]. *)
Fixpoint prefixIgnoringCase (sub s : string) : bool :=
  match sub, s with
  | EmptyString, _ => true
  | String c sub', String d s' => Regex.sameChar true c d && prefixIgnoringCase sub' s'
  | String _ _, EmptyString => false
  end.

Fixpoint includesIgnoringCase (sub s : string) : bool :=
  prefixIgnoringCase sub s ||
  match s with
  | String _ s' => includesIgnoringCase sub s'
  | EmptyString => false
  end.






(** [a] and [b] are the same text up to the case of the letters. *)
Definition sameText (a b : string) : bool :=
  prefixIgnoringCase a b && (String.length a =? String.length b)%nat.

(** [v] ends with [L] up to the case of the letters. *)
Fixpoint endsIgnoringCase (L v : string) : bool :=
  sameText L v ||
  match v with
  | String _ v' => endsIgnoringCase L v'
  | EmptyString => false
  end.

(** A value that the regular expression reads whole from between its
    double quotes: it holds no double quote and no closing angle bracket,
    and it does not end with the text value= in whatever case. *)
Definition quotable (v : string) : bool :=
  allInClass RegexStrategy.notQuote v && allInClass RegexStrategy.notClosing v
  && negb (endsIgnoringCase (PATTERN.VALUE_ATTRIBUTE ++ "=") v).

(** A character of an attribute name: a letter, a digit, a hyphen or an
    underscore. *)
Definition nameChar (c : ascii) : bool :=
  let n := nat_of_ascii c in
  (((48 <=? n) && (n <=? 57)) || ((65 <=? n) && (n <=? 90))
   || ((97 <=? n) && (n <=? 122)) || (n =? 45) || (n =? 95))%nat.

Fixpoint isName (q : string) : bool :=
  match q with
  | String c q' => nameChar c && isName q'
  | EmptyString => true
  end.

(** *** Notions for the further properties *)

(** The trace when [_fetchHtml] calls [fetch]. *)
Definition htmlFetchStart (this : UrlExtractor.t) (t : Trace) : Trace :=
  snd (Logger.info (UrlExtractor.logger this) "Step 1: Fetching HTML..."
         (pipelineStart this t)).

(** The trace when [_extractCharacters] calls [parse], the first fetch
    having returned [html] at the trace [t1]. *)
Definition parseStart (this : UrlExtractor.t) (html : string) (t1 : Trace) : Trace :=
  snd ((Logger.success (UrlExtractor.logger this)
          ("HTML fetched: " ++ JS.dec (String.length html) ++ " characters") ;;
        Logger.info (UrlExtractor.logger this) "Step 2: Extracting characters...")%monad t1).

(** The trace when [extract] reports its failure. *)
Definition extractFailed (this : UrlExtractor.t) (t : Trace) : Trace :=
  snd (Logger.error (UrlExtractor.logger this) "URL extraction failed" t).

(** The string holds a tag: an opening angle bracket with a closing angle
    bracket somewhere after it. *)
Fixpoint hasTag (s : string) : bool :=
  match s with
  | String c s' => (Ascii.eqb c "<" && hasClosing s') || hasTag s'
  | EmptyString => false
  end.

(** The trace when [RampCTFSolver.run] calls [extract]. *)
Definition runStart (this : RampCTFSolver.t) (t : Trace) : Trace :=
  snd ((Logger.info (RampCTFSolver.logger this) "Ramp CTF Challenge Solver v1.0.0" ;;
        Logger.info (RampCTFSolver.logger this) "Created by: Akash" ;;
        Logger.info (RampCTFSolver.logger this) "")%monad t).

(** The last error that the loop of [parse] has recorded once the two tree
    strategies have had their turn: the error of the JSDOM strategy when its
    parser throws, else the error of the XPath strategy when its parser
    throws, else none. *)
Definition treesError `{Platform} (html : string) : option string :=
  match jsdom html with
  | Throw e => Some ("JSDOM extraction failed: " ++ e)
  | _ =>
      match parseFromString html with
      | Throw e => Some ("XPath extraction failed: " ++ e)
      | _ => None
      end
  end.

(** A computation that sends no request and awaits no delay. *)
Definition offline {A : Type} (m : M A) : Prop :=
  forall t, requests (snd (m t)) = requests t /\ delays (snd (m t)) = delays t.

End Spec.

(* ===================================================================== *)
(** ** Concrete runs *)
(* ===================================================================== *)

Module Fixtures.

Definition emptyDocument : DOM.Document :=
  {| DOM.quirksMode := false; DOM.documentNodes := [] |}.

(** A server that answers every request with status 500. *)
Definition failingServer : Platform :=
  {| urlParses := String.prefix "https://";
     network := fun _ _ => HttpResponse 500 "Internal Server Error" EmptyString;
     parseFromString := fun _ => Return emptyDocument;
     jsdom := fun _ => Return emptyDocument |}.

(** A server whose first answer has a body of three spaces and whose later
    answers have a proper body. *)
Definition blankThenPage : Platform :=
  {| urlParses := String.prefix "https://";
     network := fun k _ =>
       if (k =? 0)%nat then HttpResponse 200 "OK" "   "
       else HttpResponse 200 "OK" "<html>ok</html>";
     parseFromString := fun _ => Return emptyDocument;
     jsdom := fun _ => Return emptyDocument |}.

(** A server that answers every request with a page. *)
Definition pageServer : Platform :=
  {| urlParses := String.prefix "https://";
     network := fun _ _ => HttpResponse 200 "OK" "<html>ok</html>";
     parseFromString := fun _ => Return emptyDocument;
     jsdom := fun _ => Return emptyDocument |}.

(** A server that answers every request with a body of three spaces. *)
Definition blankServer : Platform :=
  {| urlParses := String.prefix "https://";
     network := fun _ _ => HttpResponse 200 "OK" "   ";
     parseFromString := fun _ => Return emptyDocument;
     jsdom := fun _ => Return emptyDocument |}.

(** A server whose first answer is a page and whose later answers carry a
    flag inside markup. *)
Definition flagServer : Platform :=
  {| urlParses := String.prefix "https://";
     network := fun k _ =>
       if (k =? 0)%nat then HttpResponse 200 "OK" "<html>page</html>"
       else HttpResponse 200 "OK" "<p> sunbeam </p>";
     parseFromString := fun _ => Return emptyDocument;
     jsdom := fun _ => Return emptyDocument |}.

(** A server whose first answer is a page and whose later answers have
    status 404. *)
Definition pageOnlyServer : Platform :=
  {| urlParses := String.prefix "https://";
     network := fun k _ =>
       if (k =? 0)%nat then HttpResponse 200 "OK" "<html>page</html>"
       else HttpResponse 404 "Not Found" EmptyString;
     parseFromString := fun _ => Return emptyDocument;
     jsdom := fun _ => Return emptyDocument |}.

(** A platform whose two parsers read the text of [d] as the tree of [d]:
    the XML parser puts its elements in the XHTML namespace where no
    [xmlns] attribute says otherwise, and the HTML parser, the text having
    no doctype, reads it in quirks mode.  The [html], [head] and [body]
    elements that the HTML parser adds around the tree are left out: no
    selector of the sources takes them. *)
Definition parsing (d : DOM.Document) : Platform :=
  {| urlParses := String.prefix "https://";
     network := fun _ _ => HttpResponse 200 "OK" (Spec.renderDocument d);
     parseFromString := fun html =>
       if String.eqb html (Spec.renderDocument d) then Return d else Return emptyDocument;
     jsdom := fun html =>
       if String.eqb html (Spec.renderDocument d)
       then Return {| DOM.quirksMode := true; DOM.documentNodes := DOM.documentNodes d |}
       else Return emptyDocument |}.

(** One matching section that holds two plain structures. *)
Definition nestedSections : DOM.Document :=
  {| DOM.quirksMode := true;
     DOM.documentNodes :=
       [DOM.Element "section" [("data-id", "92")] [Spec.block "a"; Spec.block "b"]] |}.

(** A plain structure whose innermost element has two classes. *)
Definition twoClasses : DOM.Document :=
  {| DOM.quirksMode := true; DOM.documentNodes := [Spec.blockWith "ref bold" "x"] |}.

(** A plain structure whose innermost element has the class reference. *)
Definition referenceClass : DOM.Document :=
  {| DOM.quirksMode := true; DOM.documentNodes := [Spec.blockWith "reference" "x"] |}.

(** A plain structure whose innermost element has the class REF. *)
Definition upperClass : DOM.Document :=
  {| DOM.quirksMode := true; DOM.documentNodes := [Spec.blockWith "REF" "x"] |}.


Definition xpathStrategy : XPathStrategy.t := {| XPathStrategy.logger := Logger.default |}.
Definition jsdomStrategy : JSDOMStrategy.t := {| JSDOMStrategy.logger := Logger.default |}.
Definition regexStrategy : RegexStrategy.t := {| RegexStrategy.logger := Logger.default |}.

Definition client : HttpClient.t := HttpClient.new Logger.default.

Definition parserOf (l : list ExtractionStrategy.t) : HtmlParser.t :=
  {| HtmlParser.strategies := l; HtmlParser.logger := Logger.default |}.

(** An extractor whose parser has one strategy that delivers [characters]. *)
Definition extractorOf (characters : list string) : UrlExtractor.t :=
  {| UrlExtractor.httpClient := client;
     UrlExtractor.htmlParser :=
       parserOf [{| ExtractionStrategy.getName := "Fixed";
                    ExtractionStrategy.extract := fun _ => ret characters |}];
     UrlExtractor.logger := Logger.default |}.

(** A server that fails twice, with a status 503 and then with a status
    204, before it answers with a page. *)
Definition thirdTimeLucky : Platform :=
  {| urlParses := String.prefix "https://";
     network := fun k _ =>
       if (k =? 0)%nat then HttpResponse 503 "Service Unavailable" EmptyString
       else if (k =? 1)%nat then HttpResponse 204 "No Content" EmptyString
       else HttpResponse 200 "OK" "<html>ok</html>";
     parseFromString := fun _ => Return emptyDocument;
     jsdom := fun _ => Return emptyDocument |}.

(** An extractor whose parser has one strategy that finds nothing. *)
Definition emptyHanded : UrlExtractor.t :=
  {| UrlExtractor.httpClient := client;
     UrlExtractor.htmlParser := parserOf [Spec.stub "Nothing" (Return [])];
     UrlExtractor.logger := Logger.default |}.

(** A platform whose XML parser gives up on every text and whose HTML
    parser reads the text of [d] as the tree of [d], in quirks mode. *)
Definition xmlBlind (d : DOM.Document) : Platform :=
  {| urlParses := String.prefix "https://";
     network := fun _ _ => HttpResponse 200 "OK" (Spec.renderDocument d);
     parseFromString := fun _ => Throw "not well-formed";
     jsdom := fun html =>
       if String.eqb html (Spec.renderDocument d)
       then Return {| DOM.quirksMode := true; DOM.documentNodes := DOM.documentNodes d |}
       else Return emptyDocument |}.

(** A platform that serves the text of [d] and whose two parsers give up
    on every text. *)
Definition bothBlind (d : DOM.Document) : Platform :=
  {| urlParses := String.prefix "https://";
     network := fun _ _ => HttpResponse 200 "OK" (Spec.renderDocument d);
     parseFromString := fun _ => Throw "not well-formed";
     jsdom := fun _ => Throw "out of memory" |}.




(** A matching structure that lies in no namespace, by the [xmlns]
    attribute of its section, with two innermost elements of which the
    second has no [value] attribute. *)
Definition noNamespace : DOM.Document :=
  {| DOM.quirksMode := true;
     DOM.documentNodes :=
       [DOM.Element "section" [("xmlns", EmptyString); ("data-id", "92")]
          [DOM.Element "article" [("data-class", "45")]
             [DOM.Element "div" [("data-tag", "78")]
                [DOM.Element "b" [("class", "ref"); ("value", "a")] [];
                 DOM.Element "b" [("class", "ref")] []]]]] |}.


(** A server that fails twice with a status 500 and then answers with a
    body of three spaces. *)
Definition blankAtLast : Platform :=
  {| urlParses := String.prefix "https://";
     network := fun k _ =>
       if (k <? 2)%nat then HttpResponse 500 "Internal Server Error" EmptyString
       else HttpResponse 200 "OK" "   ";
     parseFromString := fun _ => Return emptyDocument;
     jsdom := fun _ => Return emptyDocument |}.

End Fixtures.

(* ===================================================================== *)
(** * Properties *)
(* ===================================================================== *)

Local Open Scope list_scope.

(** ** Traces and logging *)

Lemma requests_app (a b : Trace) : requests (a ++ b) = (requests a ++ requests b)%list.
Proof. apply flat_map_app. Qed.

Lemma delays_app (a b : Trace) : delays (a ++ b) = (delays a ++ delays b)%list.
Proof. apply flat_map_app. Qed.

Lemma extracts_app (a b : Trace) : extracts (a ++ b) = (extracts a ++ extracts b)%list.
Proof. apply flat_map_app. Qed.

Lemma silent_nil : silent [].
Proof. repeat split. Qed.

Lemma silent_console tag line : silent [Console tag line].
Proof. repeat split. Qed.

Lemma silent_app (a b : Trace) : silent a -> silent b -> silent (a ++ b).
Proof.
  intros (ra & da & ea) (rb & db & eb).
  unfold silent. rewrite requests_app, delays_app, extracts_app.
  rewrite ra, rb, da, db, ea, eb. repeat split.
Qed.

Lemma logs_emit_or_not (b : bool) tag line :
  logs (if b then emit (Console tag line) else ret tt).
Proof.
  intros t. destruct b.
  - exists [Console tag line]. split; [reflexivity | apply silent_console].
  - exists []. rewrite app_nil_r. split; [reflexivity | apply silent_nil].
Qed.

Lemma logs_error l m : logs (Logger.error l m).
Proof. apply logs_emit_or_not. Qed.

Lemma logs_warn l m : logs (Logger.warn l m).
Proof. apply logs_emit_or_not. Qed.

Lemma logs_info l m : logs (Logger.info l m).
Proof. apply logs_emit_or_not. Qed.

Lemma logs_debug l m : logs (Logger.debug l m).
Proof. apply logs_emit_or_not. Qed.

Lemma logs_success l m : logs (Logger.success l m).
Proof. apply (logs_emit_or_not true). Qed.

Create HintDb logs.

#[local] Hint Resolve logs_error logs_warn logs_info logs_debug logs_success : logs.

Lemma bind_logs {A : Type} (m : M unit) (k : unit -> M A) (t : Trace) :
  logs m -> exists ev, silent ev /\ bind m k t = k tt (t ++ ev)%list.
Proof.
  intros Hm. destruct (Hm t) as (ev & E & S).
  exists ev. split; [exact S|]. unfold bind. rewrite E. reflexivity.
Qed.

Lemma bind_lift_return {A B : Type} (a : A) (k : A -> M B) (t : Trace) :
  bind (lift (Return a)) k t = k a t.
Proof. reflexivity. Qed.

Lemma bind_lift_throw {A B : Type} (e : string) (k : A -> M B) (t : Trace) :
  bind (lift (Throw e)) k t = (Throw e, t).
Proof. reflexivity. Qed.

Lemma bind_ret {A B : Type} (a : A) (k : A -> M B) (t : Trace) :
  bind (ret a) k t = k a t.
Proof. reflexivity. Qed.

(** Run the logger call at the head of the computation in the goal. *)
Ltac log_step :=
  match goal with
  | |- context [bind ?m ?k ?t] =>
      let ev := fresh "ev" in
      let Sr := fresh "Sr" in
      let Sd := fresh "Sd" in
      let Se := fresh "Se" in
      let E := fresh "E" in
      destruct (bind_logs m k t ltac:(auto with logs)) as (ev & (Sr & Sd & Se) & E);
      rewrite E; clear E
  | |- context [?m ?t] =>
      let ev := fresh "ev" in
      let Sr := fresh "Sr" in
      let Sd := fresh "Sd" in
      let Se := fresh "Se" in
      let E := fresh "E" in
      destruct ((ltac:(auto with logs) : logs m) t) as (ev & E & (Sr & Sd & Se));
      rewrite E; clear E
  end.

(** ** HttpClient.fetch *)

Section Fetch.

Context `{P : Platform}.
Variable this : HttpClient.t.
Variable url : string.

Lemma validateHtml_cases (html : string) :
  (exists e, Validator.validateHtml html = Throw e) \/
  Validator.validateHtml html = Return true.
Proof.
  unfold Validator.validateHtml. destruct html as [|c s]; [left; eauto|].
  destruct (String.length (JS.trim (String c s)) =? 0)%nat; [left; eauto | right; reflexivity].
Qed.

(** One attempt fails with the error that [Spec.attemptFailure] predicts, and
    sends its request exactly when the URL passed validation. *)
Lemma attempt_fails (retryCount : nat) (t : Trace) (e : string) :
  Spec.attemptFailure (List.length (requests t)) url = Some e ->
  exists t',
    HttpClient.attempt this url retryCount t = (Throw e, t') /\
    requests t' = requests t ++ (if urlParses url then [url] else []) /\
    delays t' = delays t /\ extracts t' = extracts t.
Proof.
  unfold Spec.attemptFailure, HttpClient.attempt, Validator.validateUrl.
  destruct (urlParses url) eqn:U; intros F.
  - unfold bind at 1, lift at 1.
    destruct (bind_logs (Logger.info (HttpClient.logger this)
      ("Fetching URL: " ++ url ++ " (Attempt " ++ JS.dec (retryCount + 1)
       ++ "/" ++ JS.dec (HttpClient.maxRetries this) ++ ")")%string)
      (fun _ => html <- HttpClient._makeRequest this url ;;
         lift (Validator.validateHtml html) ;;
         Logger.success (HttpClient.logger this)
           ("Successfully fetched " ++ JS.dec (String.length html) ++ " characters")%string ;;
         ret html) t (logs_info _ _)) as (ev & (Sr & Sd & Se) & ->).
    unfold bind at 1, HttpClient._makeRequest.
    rewrite requests_app, Sr, app_nil_r.
    destruct (network (List.length (requests t)) url) as [code msg data| |m].
    + destruct (negb (code =? 200)%nat).
      * inversion F; subst. eexists. split; [reflexivity|].
        rewrite !requests_app, !delays_app, !extracts_app, Sr, Sd, Se. simpl.
        rewrite !app_nil_r. auto.
      * unfold bind at 1, lift at 1.
        destruct (Validator.validateHtml data) as [b|e'|] eqn:V; try discriminate.
        inversion F; subst. eexists. split; [reflexivity|].
        rewrite !requests_app, !delays_app, !extracts_app, Sr, Sd, Se. simpl.
        rewrite !app_nil_r. auto.
    + inversion F; subst. eexists. split; [reflexivity|].
      rewrite !requests_app, !delays_app, !extracts_app, Sr, Sd, Se. simpl.
      rewrite !app_nil_r. auto.
    + inversion F; subst. eexists. split; [reflexivity|].
      rewrite !requests_app, !delays_app, !extracts_app, Sr, Sd, Se. simpl.
      rewrite !app_nil_r. auto.
  - inversion F; subst. exists t. split; [reflexivity|].
    rewrite app_nil_r. auto.
Qed.

(** A successful attempt returns the body of its response after exactly
    one request. *)
Lemma attempt_succeeds (retryCount : nat) (t : Trace) :
  Spec.attemptFailure (List.length (requests t)) url = None ->
  exists t' message data,
    network (List.length (requests t)) url = HttpResponse 200 message data /\
    Validator.validateHtml data = Return true /\
    HttpClient.attempt this url retryCount t = (Return data, t') /\
    requests t' = requests t ++ [url] /\
    delays t' = delays t /\ extracts t' = extracts t.
Proof.
  unfold Spec.attemptFailure, HttpClient.attempt, Validator.validateUrl.
  destruct (urlParses url) eqn:U; intros F; [|discriminate].
  rewrite bind_lift_return. log_step.
  unfold bind at 1, HttpClient._makeRequest.
  rewrite requests_app. match goal with H : requests _ = [] |- _ => rewrite H end.
  rewrite app_nil_r.
  destruct (network (List.length (requests t)) url) as [code msg data| |m]; try discriminate.
  destruct (code =? 200)%nat eqn:C; simpl in F; [|discriminate].
  apply Nat.eqb_eq in C. subst code. simpl.
  destruct (validateHtml_cases data) as [(e & V)|V]; rewrite V in F; [discriminate|].
  rewrite V, bind_lift_return. log_step. unfold ret.
  do 3 eexists. split; [reflexivity|]. split; [exact V|]. split; [reflexivity|].
  rewrite ?requests_app, ?delays_app, ?extracts_app; simpl.
  repeat match goal with H : _ = [] |- _ => rewrite H end.
  rewrite ?app_nil_r. auto.
Qed.

(** When all the attempts that remain fail, [fetch] makes each of them, waits
    between two of them, and throws the last failure wrapped. *)
Lemma fetch_exhausted (d : nat) : forall (retryCount : nat) (t : Trace),
  HttpClient.maxRetries this - 1 - retryCount = d ->
  (forall k, List.length (requests t) <= k -> Spec.attemptFailure k url <> None) ->
  exists t' e,
    HttpClient.fetch this url retryCount t = (Throw (Spec.fetchError this e), t') /\
    Spec.attemptFailure
      (List.length (requests t) + (if urlParses url then d else 0)) url = Some e /\
    requests t' = requests t ++ (if urlParses url then repeat url (S d) else []) /\
    delays t' = delays t ++ repeat (HttpClient.retryDelay this) d /\
    extracts t' = extracts t.
Proof.
  induction d as [|d IH]; intros retryCount t D F.
  - destruct (Spec.attemptFailure (List.length (requests t)) url) as [e|] eqn:A;
      [|exfalso; exact (F _ (le_n _) A)].
    destruct (attempt_fails retryCount t e A) as (t1 & E1 & R1 & D1 & X1).
    rewrite HttpClient.fetch_equation_1. unfold try_catch. rewrite E1.
    log_step.
    destruct (lt_dec retryCount (HttpClient.maxRetries this - 1)) as [L|L]; [lia|].
    eexists. exists e. split; [reflexivity|].
    rewrite ?requests_app, ?delays_app, ?extracts_app.
    repeat match goal with H : _ = [] |- _ => rewrite H end.
    rewrite ?app_nil_r, R1, D1, X1.
    destruct (urlParses url); rewrite ?Nat.add_0_r; auto.
  - destruct (Spec.attemptFailure (List.length (requests t)) url) as [e|] eqn:A;
      [|exfalso; exact (F _ (le_n _) A)].
    destruct (attempt_fails retryCount t e A) as (t1 & E1 & R1 & D1 & X1).
    rewrite HttpClient.fetch_equation_1. unfold try_catch. rewrite E1.
    log_step.
    destruct (lt_dec retryCount (HttpClient.maxRetries this - 1)) as [L|L]; [|lia].
    log_step. unfold HttpClient._delay. unfold bind at 1, emit at 1.
    match goal with |- context [HttpClient.fetch this url (retryCount + 1) ?t2] =>
      destruct (IH (retryCount + 1) t2) as (t' & e' & E' & A' & R' & D' & X')
    end.
    + lia.
    + intros k Hk. apply F.
      revert Hk. rewrite ?requests_app.
      repeat match goal with H : requests _ = [] |- _ => rewrite H end.
      simpl. rewrite ?app_nil_r, R1, ?length_app. lia.
    + exists t', e'. split; [exact E'|].
      revert A' R' D' X'.
      rewrite ?requests_app, ?delays_app, ?extracts_app.
      repeat match goal with H : _ = [] |- _ => rewrite H end.
      simpl. rewrite ?app_nil_r, R1, D1, X1.
      intros A' R' D' X'. rewrite R', D', X'.
      destruct (urlParses url); simpl in *.
      * rewrite length_app in A'. simpl in A'.
        replace (List.length (requests t) + S d) with (List.length (requests t) + 1 + d) by lia.
        rewrite <- !app_assoc. simpl. auto.
      * rewrite app_nil_r in A'. rewrite <- !app_assoc. simpl.
        rewrite ?app_nil_r. auto.
Qed.

End Fetch.

(** A first attempt that succeeds ends [fetch]: one request, no delay. *)
Lemma fetch_first_attempt `{P : Platform} (this : HttpClient.t) (url : string)
  (retryCount : nat) (t : Trace) :
  Spec.attemptFailure (List.length (requests t)) url = None ->
  exists t' message data,
    network (List.length (requests t)) url = HttpResponse 200 message data /\
    Validator.validateHtml data = Return true /\
    HttpClient.fetch this url retryCount t = (Return data, t') /\
    requests t' = requests t ++ [url] /\
    delays t' = delays t /\ extracts t' = extracts t.
Proof.
  intros A.
  destruct (attempt_succeeds this url retryCount t A)
    as (t' & message & data & N & V & E & R & D & X).
  exists t', message, data. rewrite HttpClient.fetch_equation_1.
  unfold try_catch. rewrite E. auto 10.
Qed.

(** ** HttpClient.fetch, attempt by attempt *)

Section FetchRun.

Context `{P : Platform}.
Variable this : HttpClient.t.
Variable url : string.
Hypothesis U : urlParses url = true.

(** The run of [fetch] on a URL that parses: the attempts fail up to some
    attempt number [k], which either succeeds and gives the result, or is
    the last attempt allowed and gives the error. *)
Lemma fetch_run (d : nat) : forall (retryCount : nat) (t : Trace),
  HttpClient.maxRetries this - 1 - retryCount = d ->
  exists k t',
    k <= d /\
    (forall j, j < k -> Spec.attemptFailure (List.length (requests t) + j) url <> None) /\
    requests t' = requests t ++ repeat url (S k) /\
    delays t' = delays t ++ repeat (HttpClient.retryDelay this) k /\
    extracts t' = extracts t /\
    ((exists message data,
        Spec.attemptFailure (List.length (requests t) + k) url = None /\
        network (List.length (requests t) + k) url = HttpResponse 200 message data /\
        Validator.validateHtml data = Return true /\
        HttpClient.fetch this url retryCount t = (Return data, t'))
     \/
     (exists e,
        k = d /\
        Spec.attemptFailure (List.length (requests t) + k) url = Some e /\
        HttpClient.fetch this url retryCount t = (Throw (Spec.fetchError this e), t'))).
Proof.
  induction d as [|d IH]; intros retryCount t D;
    destruct (Spec.attemptFailure (List.length (requests t)) url) as [e|] eqn:A.
  - destruct (attempt_fails this url retryCount t e A) as (t1 & E1 & R1 & D1 & X1).
    rewrite U in R1.
    assert (Ef : exists ev, silent ev /\
              HttpClient.fetch this url retryCount t
              = (Throw (Spec.fetchError this e), t1 ++ ev)).
    { rewrite HttpClient.fetch_equation_1. unfold try_catch. rewrite E1.
      log_step.
      destruct (lt_dec retryCount (HttpClient.maxRetries this - 1)) as [L|L]; [lia|].
      eexists. split; [|reflexivity]. repeat split; assumption. }
    destruct Ef as (ev & (Sr & Sd & Se) & Ef).
    exists 0, (t1 ++ ev). rewrite Nat.add_0_r.
    split; [lia|]. split; [intros j Hj; lia|].
    rewrite requests_app, delays_app, extracts_app, Sr, Sd, Se, R1, D1, X1, !app_nil_r.
    simpl. rewrite ?app_nil_r. repeat (split; [reflexivity|]).
    right. exists e. auto.
  - destruct (fetch_first_attempt this url retryCount t A)
      as (t' & message & data & N & V & E & R & Dl & X).
    exists 0, t'. rewrite Nat.add_0_r. split; [lia|]. split; [intros j Hj; lia|].
    simpl. rewrite app_nil_r. repeat (split; [assumption|]).
    left. exists message, data. auto.
  - destruct (attempt_fails this url retryCount t e A) as (t1 & E1 & R1 & D1 & X1).
    rewrite U in R1.
    assert (Ef : exists t2,
              HttpClient.fetch this url retryCount t
              = HttpClient.fetch this url (retryCount + 1) t2 /\
              requests t2 = requests t ++ [url] /\
              delays t2 = delays t ++ [HttpClient.retryDelay this] /\
              extracts t2 = extracts t).
    { rewrite HttpClient.fetch_equation_1. unfold try_catch. rewrite E1.
      log_step.
      destruct (lt_dec retryCount (HttpClient.maxRetries this - 1)) as [L|L]; [|lia].
      log_step. unfold HttpClient._delay. unfold bind at 1, emit at 1.
      eexists. split; [reflexivity|].
      rewrite ?requests_app, ?delays_app, ?extracts_app.
      repeat match goal with H : _ = [] |- _ => rewrite H end.
      simpl. rewrite ?app_nil_r, R1, D1, X1. auto. }
    destruct Ef as (t2 & Ef & R2 & D2 & X2).
    destruct (IH (retryCount + 1) t2 ltac:(lia)) as (k & t' & K & F & R' & D' & X' & O).
    rewrite R2, length_app in F, O. simpl in F, O.
    exists (S k), t'. split; [lia|]. split.
    { intros j Hj. destruct j as [|j].
      - rewrite Nat.add_0_r, A. discriminate.
      - replace (List.length (requests t) + S j) with (List.length (requests t) + 1 + j) by lia.
        apply F. lia. }
    rewrite R', D', X', R2, D2, X2, <- !app_assoc. simpl.
    split; [reflexivity|]. split; [reflexivity|]. split; [reflexivity|].
    replace (List.length (requests t) + S k) with (List.length (requests t) + 1 + k) by lia.
    rewrite Ef.
    destruct O as [(message & data & O)|(e' & -> & O)].
    + left. exists message, data. exact O.
    + right. exists e'. split; [reflexivity | exact O].
  - destruct (fetch_first_attempt this url retryCount t A)
      as (t' & message & data & N & V & E & R & Dl & X).
    exists 0, t'. rewrite Nat.add_0_r. split; [lia|]. split; [intros j Hj; lia|].
    simpl. rewrite app_nil_r. repeat (split; [assumption|]).
    left. exists message, data. auto.
Qed.

End FetchRun.

(** C7, as stated, at the default client and a server that always fails:
    [fetch] makes three requests, that is two retries after the first
    failure, and not [MAX_RETRIES] retries. *)
Lemma C7_counterexample :
  let t := snd (@HttpClient.fetch Fixtures.failingServer Fixtures.client
                  "https://example.com/" 0 []) in
  List.length (requests t) = 3 /\
  List.length (requests t) - 1 <> HTTP.MAX_RETRIES.
Proof. vm_compute. split; [reflexivity | discriminate]. Qed.

(** C7, amended.  For a URL that parses and a client with at least one
    attempt: when every attempt fails, [fetch] makes exactly [maxRetries]
    attempts in all ([maxRetries - 1] retries, each after the fixed delay)
    and throws the last failure wrapped in the error of [fetch]; when the
    first attempt succeeds, [fetch] returns its body after that single
    request and without delay. *)
Theorem C7_fetch_attempts `{P : Platform} (this : HttpClient.t) (url : string)
  (t : Trace)
  (Hurl : urlParses url = true)
  (Hmax : 1 <= HttpClient.maxRetries this) :
  ((forall k, List.length (requests t) <= k -> Spec.attemptFailure k url <> None) ->
   exists t' e,
     HttpClient.fetch this url 0 t = (Throw (Spec.fetchError this e), t') /\
     Spec.attemptFailure
       (List.length (requests t) + (HttpClient.maxRetries this - 1)) url = Some e /\
     requests t' = requests t ++ repeat url (HttpClient.maxRetries this) /\
     delays t' = delays t
                 ++ repeat (HttpClient.retryDelay this) (HttpClient.maxRetries this - 1))
  /\
  (Spec.attemptFailure (List.length (requests t)) url = None ->
   exists t' message data,
     network (List.length (requests t)) url = HttpResponse 200 message data /\
     HttpClient.fetch this url 0 t = (Return data, t') /\
     requests t' = requests t ++ [url] /\
     delays t' = delays t).
Proof.
  split.
  - intros F.
    destruct (fetch_exhausted this url (HttpClient.maxRetries this - 1) 0 t
                ltac:(lia) F) as (t' & e & E & A & R & D & _).
    rewrite Hurl in A, R.
    replace (S (HttpClient.maxRetries this - 1)) with (HttpClient.maxRetries this) in R by lia.
    exists t', e. auto.
  - intros A.
    destruct (fetch_first_attempt this url 0 t A)
      as (t' & message & data & N & _ & E & R & D & _).
    exists t', message, data. auto.
Qed.

Lemma C7_fetch_attempts_witness :
  (exists t' e,
     @HttpClient.fetch Fixtures.failingServer Fixtures.client "https://example.com/" 0 []
       = (Throw (Spec.fetchError Fixtures.client e), t') /\
     requests t' = repeat "https://example.com/" 3) /\
  (exists t',
     @HttpClient.fetch Fixtures.pageServer Fixtures.client "https://example.com/" 0 []
       = (Return "<html>ok</html>", t') /\
     requests t' = ["https://example.com/"]).
Proof.
  split.
  - destruct (proj1 (@C7_fetch_attempts Fixtures.failingServer Fixtures.client
                       "https://example.com/" [] eq_refl ltac:(vm_compute; lia)))
      as (t' & e & E & _ & R & _).
    + intros k _. vm_compute. discriminate.
    + exists t', e. split; [exact E | exact R].
  - destruct (proj2 (@C7_fetch_attempts Fixtures.pageServer Fixtures.client
                       "https://example.com/" [] eq_refl ltac:(vm_compute; lia)))
      as (t' & message & data & N & E & R & _).
    + reflexivity.
    + vm_compute in N. inversion N; subst. exists t'. split; [exact E | exact R].
Defined.

(** C6, as stated, at the default client and a string that is not a URL:
    [fetch] does not throw the validation error at once; it runs through
    all its attempts, waiting twice, and throws the error of [fetch]. *)
Lemma C6_counterexample :
  let r := @HttpClient.fetch Fixtures.failingServer Fixtures.client "not a url" 0 [] in
  fst r = Throw "Failed to fetch URL after 3 attempts: Invalid URL provided: not a url" /\
  fst r <> Throw "Invalid URL provided: not a url" /\
  delays (snd r) = [1000; 1000].
Proof. vm_compute. repeat split. discriminate. Qed.

(** C6, amended.  For a string that does not parse as a URL, [fetch] sends
    no request; each of its [maxRetries] attempts fails at the validation
    of the URL, with the fixed delay between two attempts, and [fetch] then
    throws the validation error wrapped in its own error. *)
Theorem C6_fetch_invalid_url `{P : Platform} (this : HttpClient.t) (url : string)
  (t : Trace)
  (Hurl : urlParses url = false)
  (Hmax : 1 <= HttpClient.maxRetries this) :
  exists t',
    HttpClient.fetch this url 0 t
      = (Throw (Spec.fetchError this ("Invalid URL provided: " ++ url)%string), t') /\
    requests t' = requests t /\
    delays t' = delays t
                ++ repeat (HttpClient.retryDelay this) (HttpClient.maxRetries this - 1).
Proof.
  assert (A : forall k, Spec.attemptFailure k url
                        = Some ("Invalid URL provided: " ++ url)%string).
  { intros k. unfold Spec.attemptFailure. rewrite Hurl. reflexivity. }
  destruct (fetch_exhausted this url (HttpClient.maxRetries this - 1) 0 t ltac:(lia))
    as (t' & e & E & A' & R & D & _).
  - intros k _. rewrite A. discriminate.
  - rewrite A in A'. inversion A'; subst e.
    rewrite Hurl, app_nil_r in R. exists t'. auto.
Qed.

Lemma C6_fetch_invalid_url_witness :
  exists t',
    @HttpClient.fetch Fixtures.failingServer Fixtures.client "not a url" 0 []
      = (Throw (Spec.fetchError Fixtures.client "Invalid URL provided: not a url"), t') /\
    requests t' = [] /\
    delays t' = [1000; 1000].
Proof.
  exact (@C6_fetch_invalid_url Fixtures.failingServer Fixtures.client "not a url" []
           eq_refl ltac:(vm_compute; lia)).
Defined.

(** ** Validator.validateHtml *)

Lemma trimStart_blank (s : string) : Spec.blank s = true -> JS.trimStart s = EmptyString.
Proof.
  induction s as [|c s IH]; simpl; [reflexivity|].
  intros H. apply andb_prop in H. destruct H as [Hc Hs].
  rewrite Hc. auto.
Qed.

Lemma trim_blank (s : string) : Spec.blank s = true -> JS.trim s = EmptyString.
Proof. intros H. unfold JS.trim. rewrite (trimStart_blank s H). reflexivity. Qed.

Lemma validateHtml_blank (s : string) :
  Spec.blank s = true -> Validator.validateHtml s = Throw (Spec.blankError s).
Proof.
  intros H. unfold Validator.validateHtml. destruct s as [|c s]; [reflexivity|].
  rewrite (trim_blank _ H). reflexivity.
Qed.

(** ** HtmlParser.parse *)

Section Parse.

Variable this : HtmlParser.t.
Variable html : string.

(** One round of the loop of [parse]. *)
Lemma parse_loop_cons (s : ExtractionStrategy.t) (rest : list ExtractionStrategy.t)
  (lastError : option string) (t : Trace) :
  HtmlParser.parse_loop this html (s :: rest) lastError t =
  match ExtractionStrategy.extract s html (Spec.entering this s t) with
  | (Return characters, t1) =>
      match characters with
      | [] => HtmlParser.parse_loop this html rest lastError t1
      | _ => (Return characters, Spec.reported this s characters t1)
      end
  | (Throw e, t1) =>
      HtmlParser.parse_loop this html rest (Some e) (Spec.warned this s e t1)
  | (Hang, t1) => (Hang, t1)
  end.
Proof.
  unfold Spec.entering, Spec.reported, Spec.warned. cbn [HtmlParser.parse_loop].
  unfold Logger.info, Logger.warn, Logger.success.
  destruct (Logger._shouldLog (HtmlParser.logger this) INFO),
           (Logger._shouldLog (HtmlParser.logger this) WARN);
    unfold bind, try_catch, emit, ret, lift, throw; cbn [snd fst];
    match goal with
    | |- context [ExtractionStrategy.extract s html ?t0] =>
        destruct (ExtractionStrategy.extract s html t0) as [[[|c cs]|e|] t1]
    end; reflexivity.
Qed.

Lemma parse_loop_nil (lastError : option string) (t : Trace) :
  HtmlParser.parse_loop this html [] lastError t
  = (Throw (Spec.allStrategiesFailed lastError), t).
Proof. reflexivity. Qed.

(** Strategies that all fail are passed over. *)
Lemma parse_loop_skip (pre : list ExtractionStrategy.t) :
  forall (rest : list ExtractionStrategy.t) (lastError lastError' : option string)
         (t t1 : Trace),
  Spec.allFail this html pre lastError t = Some (lastError', t1) ->
  HtmlParser.parse_loop this html (pre ++ rest) lastError t
  = HtmlParser.parse_loop this html rest lastError' t1.
Proof.
  induction pre as [|s pre IH]; intros rest le le' t t1 F.
  - simpl in F. inversion F; subst. reflexivity.
  - rewrite <- app_comm_cons, parse_loop_cons. simpl in F.
    destruct (ExtractionStrategy.extract s html (Spec.entering this s t))
      as [[[|c cs]|e|] t0]; try discriminate; eauto.
Qed.

(** The loop throws exactly when every strategy fails. *)
Lemma parse_loop_throws (l : list ExtractionStrategy.t) :
  forall (lastError : option string) (t : Trace) (e : string) (t' : Trace),
  HtmlParser.parse_loop this html l lastError t = (Throw e, t') <->
  exists lastError',
    Spec.allFail this html l lastError t = Some (lastError', t') /\
    e = Spec.allStrategiesFailed lastError'.
Proof.
  induction l as [|s l IH]; intros le t e t'.
  - rewrite parse_loop_nil. simpl. split.
    + intros H. inversion H; subst. eauto.
    + intros (le' & H & ->). inversion H; subst. reflexivity.
  - rewrite parse_loop_cons. simpl.
    destruct (ExtractionStrategy.extract s html (Spec.entering this s t))
      as [[[|c cs]|e0|] t0]; try apply IH.
    + split; [discriminate | intros (? & ? & _); discriminate].
    + split; [discriminate | intros (? & ? & _); discriminate].
Qed.

(** The loop returns exactly when some strategy, all those before it having
    failed, returns a sequence that is not empty. *)
Lemma parse_loop_returns (l : list ExtractionStrategy.t) :
  forall (lastError : option string) (t : Trace) (cs : list string) (t' : Trace),
  HtmlParser.parse_loop this html l lastError t = (Return cs, t') <->
  exists pre s post lastError' t1 t2,
    l = pre ++ s :: post /\
    Spec.allFail this html pre lastError t = Some (lastError', t1) /\
    ExtractionStrategy.extract s html (Spec.entering this s t1) = (Return cs, t2) /\
    cs <> [] /\
    t' = Spec.reported this s cs t2.
Proof.
  induction l as [|s l IH]; intros le t cs t'.
  - rewrite parse_loop_nil. split; [discriminate|].
    intros (pre & s & post & ? & ? & ? & H & _). destruct pre; discriminate.
  - split.
    + rewrite parse_loop_cons.
      destruct (ExtractionStrategy.extract s html (Spec.entering this s t))
        as [[[|c cs0]|e0|] t0] eqn:X.
      * intros H. apply IH in H.
        destruct H as (pre & s' & post & le' & t1 & t2 & -> & F & X' & N & ->).
        exists (s :: pre), s', post, le', t1, t2. simpl. rewrite X. auto.
      * intros H. inversion H; subst.
        exists [], s, l, le, t, t0. simpl. repeat split; auto. discriminate.
      * intros H. apply IH in H.
        destruct H as (pre & s' & post & le' & t1 & t2 & -> & F & X' & N & ->).
        exists (s :: pre), s', post, le', t1, t2. simpl. rewrite X. auto.
      * discriminate.
    + intros (pre & s' & post & le' & t1 & t2 & L & F & X & N & ->).
      rewrite L, (parse_loop_skip pre (s' :: post) le le' t t1 F), parse_loop_cons, X.
      destruct cs; [contradiction | reflexivity].
Qed.

End Parse.

Lemma parse_valid (this : HtmlParser.t) (html : string) (t : Trace) :
  Validator.validateHtml html = Return true ->
  HtmlParser.parse this html t =
  match HtmlParser.parse_loop this html (HtmlParser.strategies this) None
          (Spec.started this t) with
  | (Throw e, t1) => (Throw e, Spec.failed this t1)
  | r => r
  end.
Proof.
  intros V. unfold HtmlParser.parse, Spec.started, Spec.failed.
  unfold try_catch. rewrite V, bind_lift_return.
  unfold Logger.info, Logger.error.
  destruct (Logger._shouldLog (HtmlParser.logger this) INFO),
           (Logger._shouldLog (HtmlParser.logger this) ERROR);
    unfold bind, emit, ret, throw; cbn [snd fst];
    match goal with
    | |- context [HtmlParser.parse_loop this html ?l ?e ?t0] =>
        destruct (HtmlParser.parse_loop this html l e t0) as [[cs|e0|] t1]
    end; reflexivity.
Qed.

Lemma parse_invalid (this : HtmlParser.t) (html : string) (t : Trace) (e : string) :
  Validator.validateHtml html = Throw e ->
  HtmlParser.parse this html t = (Throw e, Spec.failed this t).
Proof.
  intros V. unfold HtmlParser.parse, Spec.failed.
  unfold try_catch. rewrite V, bind_lift_throw.
  unfold Logger.error.
  destruct (Logger._shouldLog (HtmlParser.logger this) ERROR); reflexivity.
Qed.

(** The trace of a logger call has the calls of [extract] it started with. *)
Lemma extracts_logged (m : M unit) (t : Trace) :
  logs m -> extracts (snd (m t)) = extracts t.
Proof.
  intros L. destruct (L t) as (ev & E & (_ & _ & Se)). rewrite E. simpl.
  rewrite extracts_app, Se, app_nil_r. reflexivity.
Qed.

Lemma extracts_entering (this : HtmlParser.t) (s : ExtractionStrategy.t) (t : Trace) :
  extracts (Spec.entering this s t) = extracts t ++ [ExtractionStrategy.getName s].
Proof.
  unfold Spec.entering, Logger.info.
  destruct (Logger._shouldLog (HtmlParser.logger this) INFO);
    unfold bind, emit, ret; cbn [snd]; rewrite ?extracts_app; simpl;
    rewrite ?app_nil_r; reflexivity.
Qed.

Lemma extracts_allFail (this : HtmlParser.t) (html : string)
  (l : list ExtractionStrategy.t) :
  forall (lastError lastError' : option string) (t t1 : Trace),
  Forall Spec.keepsCalls l ->
  Spec.allFail this html l lastError t = Some (lastError', t1) ->
  extracts t1 = extracts t ++ map ExtractionStrategy.getName l.
Proof.
  induction l as [|s l IH]; intros le le' t t1 K F; simpl in *.
  - inversion F; subst. rewrite app_nil_r. reflexivity.
  - inversion K as [|? ? Ks Kl]; subst.
    pose proof (Ks html (Spec.entering this s t)) as Hs.
    destruct (ExtractionStrategy.extract s html (Spec.entering this s t))
      as [[[|c cs]|e|] t0]; try discriminate; simpl in Hs.
    + rewrite (IH _ _ _ _ Kl F), Hs, extracts_entering, <- app_assoc. reflexivity.
    + rewrite (IH _ _ _ _ Kl F). unfold Spec.warned.
      rewrite extracts_logged by auto with logs.
      rewrite Hs, extracts_entering, <- app_assoc. reflexivity.
Qed.

(** Only the logger of the parser matters to [Spec.allFail]. *)
Lemma allFail_withStrategies (this : HtmlParser.t) (l : list ExtractionStrategy.t)
  (html : string) (pre : list ExtractionStrategy.t) :
  forall (lastError : option string) (t : Trace),
  Spec.allFail (Spec.withStrategies this l) html pre lastError t
  = Spec.allFail this html pre lastError t.
Proof.
  induction pre as [|s pre IH]; intros le t; simpl; [reflexivity|].
  change (Spec.entering (Spec.withStrategies this l) s t) with (Spec.entering this s t).
  destruct (ExtractionStrategy.extract s html (Spec.entering this s t))
    as [[[|c cs]|e|] t0]; auto.
Qed.

(** C2.  [parse] returns a sequence exactly when some strategy, every
    strategy before it having thrown or returned the empty sequence, returns
    a sequence that is not empty: the result is that sequence, as it is.
    The run ends where the winner returned, with one more console line: the
    strategies after the winner play no part, so that replacing them changes
    nothing, and with strategies that do not tamper with the record of the
    calls the strategies called are those up to the winner, once each. *)
Theorem C2_first_nonempty_strategy_wins (this : HtmlParser.t) (html : string)
  (t : Trace) :
  (forall (cs : list string) (t' : Trace),
     HtmlParser.parse this html t = (Return cs, t') <->
     exists pre s post lastError t1 t2,
       HtmlParser.strategies this = pre ++ s :: post /\
       Validator.validateHtml html = Return true /\
       Spec.allFail this html pre None (Spec.started this t) = Some (lastError, t1) /\
       ExtractionStrategy.extract s html (Spec.entering this s t1) = (Return cs, t2) /\
       cs <> [] /\
       t' = Spec.reported this s cs t2)
  /\
  (forall pre s post lastError t1 t2 cs,
     HtmlParser.strategies this = pre ++ s :: post ->
     Validator.validateHtml html = Return true ->
     Spec.allFail this html pre None (Spec.started this t) = Some (lastError, t1) ->
     ExtractionStrategy.extract s html (Spec.entering this s t1) = (Return cs, t2) ->
     cs <> [] ->
     (forall post',
        HtmlParser.parse (Spec.withStrategies this (pre ++ s :: post')) html t
        = (Return cs, Spec.reported this s cs t2)) /\
     (Forall Spec.keepsCalls (pre ++ [s]) ->
      extracts (snd (HtmlParser.parse this html t))
      = extracts t ++ map ExtractionStrategy.getName (pre ++ [s]))).
Proof.
  assert (Win : forall pre s post lastError t1 t2 cs,
     Validator.validateHtml html = Return true ->
     Spec.allFail this html pre None (Spec.started this t) = Some (lastError, t1) ->
     ExtractionStrategy.extract s html (Spec.entering this s t1) = (Return cs, t2) ->
     cs <> [] ->
     HtmlParser.parse (Spec.withStrategies this (pre ++ s :: post)) html t
     = (Return cs, Spec.reported this s cs t2)).
  { intros pre s post le t1 t2 cs V F X N.
    rewrite (parse_valid _ _ _ V). cbn [Spec.withStrategies HtmlParser.strategies].
    assert (R : HtmlParser.parse_loop (Spec.withStrategies this (pre ++ s :: post)) html
                  (pre ++ s :: post) None (Spec.started this t)
                = (Return cs, Spec.reported this s cs t2)).
    { apply parse_loop_returns. exists pre, s, post, le, t1, t2.
      split; [reflexivity|]. split; [rewrite allFail_withStrategies; exact F|].
      split; [exact X|].
      split; [exact N | reflexivity]. }
    change (Spec.started (Spec.withStrategies this (pre ++ s :: post)) t)
      with (Spec.started this t).
    rewrite R. reflexivity. }
  split.
  - intros cs t'. split.
    + intros H. destruct (validateHtml_cases html) as [(e & V)|V].
      * rewrite (parse_invalid _ _ _ _ V) in H. discriminate.
      * rewrite (parse_valid _ _ _ V) in H.
        destruct (HtmlParser.parse_loop this html (HtmlParser.strategies this) None
                    (Spec.started this t)) as [[cs0|e0|] t0] eqn:L; try discriminate.
        inversion H; subst. apply parse_loop_returns in L.
        destruct L as (pre & s & post & le & t1 & t2 & ? & ? & ? & ? & ?).
        exists pre, s, post, le, t1, t2. auto 10.
    + intros (pre & s & post & le & t1 & t2 & S & V & F & X & N & ->).
      rewrite <- (Win pre s post le t1 t2 cs V F X N).
      rewrite <- S. destruct this; reflexivity.
  - intros pre s post le t1 t2 cs S V F X N. split.
    + intros post'. apply (Win pre s post' le t1 t2 cs V F X N).
    + intros K. apply Forall_app in K. destruct K as [Kpre Ks].
      inversion Ks as [|? ? Ks' _]; subst.
      assert (E : HtmlParser.parse this html t = (Return cs, Spec.reported this s cs t2)).
      { rewrite <- (Win pre s post le t1 t2 cs V F X N).
        rewrite <- S. destruct this; reflexivity. }
      rewrite E. cbn [snd]. unfold Spec.reported.
      rewrite extracts_logged by auto with logs.
      pose proof (Ks' html (Spec.entering this s t1)) as Hs. rewrite X in Hs.
      cbn [snd] in Hs. rewrite Hs, extracts_entering.
      rewrite (extracts_allFail _ _ _ _ _ _ _ Kpre F).
      unfold Spec.started. rewrite extracts_logged by auto with logs.
      rewrite map_app, app_assoc. reflexivity.
Qed.

Lemma stub_keepsCalls (name : string) (outcome : Outcome (list string)) :
  Spec.keepsCalls (Spec.stub name outcome).
Proof. intros html t. reflexivity. Qed.

(** C2 on four stubs: the first throws, the second returns the empty
    sequence, the third and the fourth return characters.  The result is
    the output of the third, and the fourth is never called. *)
Lemma C2_first_nonempty_strategy_wins_witness :
  let S1 := Spec.stub "S1" (Throw "boom") in
  let S2 := Spec.stub "S2" (Return []) in
  let S3 := Spec.stub "S3" (Return ["x"; "y"]) in
  let S4 := Spec.stub "S4" (Return ["z"]) in
  let this := Fixtures.parserOf [S1; S2; S3; S4] in
  fst (HtmlParser.parse this "<html></html>" []) = Return ["x"; "y"] /\
  extracts (snd (HtmlParser.parse this "<html></html>" [])) = ["S1"; "S2"; "S3"].
Proof.
  intros S1 S2 S3 S4 this.
  destruct (proj2 (C2_first_nonempty_strategy_wins this "<html></html>" [])
              [S1; S2] S3 [S4] _ _ _ ["x"; "y"]
              eq_refl eq_refl eq_refl eq_refl ltac:(discriminate)) as [W C].
  split.
  - exact (f_equal fst (W [S4])).
  - apply C. repeat constructor; apply stub_keepsCalls.
Defined.

(** C3, as stated, at the empty document and one strategy that returns the
    empty sequence: every strategy returns the empty sequence, and yet the
    error of [parse] is the validation error, not the error that tells
    that all strategies failed. *)
Lemma C3_counterexample :
  let this := Fixtures.parserOf [Spec.stub "S" (Return [])] in
  Spec.allFail this EmptyString (HtmlParser.strategies this) None (Spec.started this [])
    <> None /\
  fst (HtmlParser.parse this EmptyString []) = Throw "HTML content is empty or invalid" /\
  Spec.isAllStrategiesFailed "HTML content is empty or invalid" = false.
Proof. vm_compute. repeat split. discriminate. Qed.

(** C3, amended.  For a document that passes validation, [parse] throws
    exactly when every strategy, called in turn, throws or returns the empty
    sequence, and the error is then the one that tells that all strategies
    failed, with the message of the last error thrown.  A strategy that
    returns the empty sequence records no error: the loop goes on with the
    next strategy and the same last error. *)
Theorem C3_all_strategies_failed (this : HtmlParser.t) (html : string) (t : Trace)
  (V : Validator.validateHtml html = Return true) :
  (forall (e : string) (t' : Trace),
     HtmlParser.parse this html t = (Throw e, t') <->
     exists lastError t1,
       Spec.allFail this html (HtmlParser.strategies this) None (Spec.started this t)
         = Some (lastError, t1) /\
       e = Spec.allStrategiesFailed lastError /\
       t' = Spec.failed this t1)
  /\
  (forall (e : string) (t' : Trace),
     HtmlParser.parse this html t = (Throw e, t') ->
     Spec.isAllStrategiesFailed e = true)
  /\
  (forall s rest lastError t0 t1,
     ExtractionStrategy.extract s html (Spec.entering this s t0) = (Return [], t1) ->
     HtmlParser.parse_loop this html (s :: rest) lastError t0
     = HtmlParser.parse_loop this html rest lastError t1).
Proof.
  assert (A : forall e t',
     HtmlParser.parse this html t = (Throw e, t') <->
     exists lastError t1,
       Spec.allFail this html (HtmlParser.strategies this) None (Spec.started this t)
         = Some (lastError, t1) /\
       e = Spec.allStrategiesFailed lastError /\
       t' = Spec.failed this t1).
  { intros e t'. rewrite (parse_valid _ _ _ V). split.
    - destruct (HtmlParser.parse_loop this html (HtmlParser.strategies this) None
                  (Spec.started this t)) as [[cs|e0|] t0] eqn:L; try discriminate.
      intros H. inversion H; subst. apply parse_loop_throws in L.
      destruct L as (le & F & ->). exists le, t0. auto.
    - intros (le & t1 & F & -> & ->).
      assert (L : HtmlParser.parse_loop this html (HtmlParser.strategies this) None
                    (Spec.started this t)
                  = (Throw (Spec.allStrategiesFailed le), t1)).
      { apply parse_loop_throws. eauto. }
      rewrite L. reflexivity. }
  split; [exact A|]. split.
  - intros e t' H. apply A in H. destruct H as (le & t1 & _ & -> & _). reflexivity.
  - intros s rest le t0 t1 X. rewrite parse_loop_cons, X. reflexivity.
Qed.

Lemma C3_all_strategies_failed_witness :
  let this := Fixtures.parserOf [Spec.stub "S1" (Throw "boom"); Spec.stub "S2" (Return [])] in
  exists t',
    HtmlParser.parse this "<html></html>" []
    = (Throw "All extraction strategies failed. Last error: boom", t').
Proof.
  intros this.
  destruct (C3_all_strategies_failed this "<html></html>" [] eq_refl) as (A & _ & _).
  eexists. apply A. do 2 eexists. split; [reflexivity|]. split; reflexivity.
Defined.

(** C9, as stated, at a server whose first response has a body of three
    spaces and whose second response is a page: [fetch] does not fail, it
    retries and returns the page. *)
Lemma C9_counterexample :
  @network Fixtures.blankThenPage 0 "https://example.com/" = HttpResponse 200 "OK" "   " /\
  Spec.blank "   " = true /\
  fst (@HttpClient.fetch Fixtures.blankThenPage Fixtures.client "https://example.com/" 0 [])
  = Return "<html>ok</html>".
Proof. vm_compute. repeat split. Qed.

(** C9, amended.  For a string of white space only, the empty string
    included: [validateHtml] throws; [parse] throws that same error and calls
    no strategy; in [fetch] the attempt that receives such a body fails with
    that error and is retried like any other failed attempt, so that [fetch]
    itself fails with that error, wrapped, when its last attempt receives
    such a body and every attempt before it has failed, for whatever reason.
    A [fetch] that fails has failed at every one of its attempts, and its
    error wraps the error of the last one. *)
Theorem C9_blank_document_rejected (s : string) (B : Spec.blank s = true) :
  Validator.validateHtml s = Throw (Spec.blankError s)
  /\
  (forall (this : HtmlParser.t) (t : Trace),
     HtmlParser.parse this s t = (Throw (Spec.blankError s), Spec.failed this t) /\
     extracts (Spec.failed this t) = extracts t)
  /\
  (forall (P : Platform) (this : HttpClient.t) (url : string) (retryCount : nat)
          (t : Trace) (message : string),
     urlParses url = true ->
     network (List.length (requests t)) url = HttpResponse 200 message s ->
     exists t', HttpClient.attempt this url retryCount t = (Throw (Spec.blankError s), t'))
  /\
  (forall (P : Platform) (this : HttpClient.t) (url : string) (t : Trace)
          (message : string),
     urlParses url = true ->
     1 <= HttpClient.maxRetries this ->
     (forall j, j < HttpClient.maxRetries this - 1 ->
                Spec.attemptFailure (List.length (requests t) + j) url <> None) ->
     network (List.length (requests t) + (HttpClient.maxRetries this - 1)) url
     = HttpResponse 200 message s ->
     exists t',
       HttpClient.fetch this url 0 t
         = (Throw (Spec.fetchError this (Spec.blankError s)), t') /\
       requests t' = requests t ++ repeat url (HttpClient.maxRetries this))
  /\
  (forall (P : Platform) (this : HttpClient.t) (url : string) (t : Trace)
          (e : string) (t' : Trace),
     urlParses url = true ->
     1 <= HttpClient.maxRetries this ->
     HttpClient.fetch this url 0 t = (Throw e, t') ->
     (forall j, j < HttpClient.maxRetries this ->
                Spec.attemptFailure (List.length (requests t) + j) url <> None) /\
     exists cause,
       Spec.attemptFailure
         (List.length (requests t) + (HttpClient.maxRetries this - 1)) url = Some cause /\
       e = Spec.fetchError this cause).
Proof.
  pose proof (validateHtml_blank s B) as V.
  assert (A : forall (P : Platform) url k message,
             urlParses url = true ->
             network k url = HttpResponse 200 message s ->
             Spec.attemptFailure k url = Some (Spec.blankError s)).
  { intros P url k message U N. unfold Spec.attemptFailure. rewrite U, N, V. reflexivity. }
  split; [exact V|]. split; [|split; [|split]].
  - intros this t. split.
    + apply parse_invalid. exact V.
    + unfold Spec.failed. apply extracts_logged. auto with logs.
  - intros P this url rc t message U N.
    destruct (attempt_fails this url rc t _ (A P url _ message U N)) as (t' & E & _).
    exists t'. exact E.
  - intros P this url t message U Hmax F N.
    pose proof (A P url _ message U N) as L.
    destruct (fetch_run this url U (HttpClient.maxRetries this - 1) 0 t ltac:(lia))
      as (k & t' & K & _ & R & _ & _ & O).
    destruct O as [(m & data & O & _)|(e & -> & O & E)].
    + exfalso. destruct (Nat.eq_dec k (HttpClient.maxRetries this - 1)) as [->|Nk].
      * rewrite L in O. discriminate.
      * apply (F k); [lia | exact O].
    + rewrite L in O. inversion O; subst e.
      exists t'. split; [exact E|]. rewrite R.
      replace (S (HttpClient.maxRetries this - 1)) with (HttpClient.maxRetries this) by lia.
      reflexivity.
  - intros P this url t e t' U Hmax E.
    destruct (fetch_run this url U (HttpClient.maxRetries this - 1) 0 t ltac:(lia))
      as (k & t2 & K & F & _ & _ & _ & O).
    destruct O as [(m & data & _ & _ & _ & O)|(cause & -> & O & E')].
    + rewrite O in E. discriminate.
    + rewrite E' in E. inversion E; subst. split.
      * intros j Hj.
        destruct (Nat.eq_dec j (HttpClient.maxRetries this - 1)) as [->|Nj].
        -- rewrite O. discriminate.
        -- apply F. lia.
      * exists cause. auto.
Qed.

(** C9 at a body of three spaces: validation rejects it; [fetch] fails with
    the wrapped error on a server that answers every request with that body,
    and also on a server that fails twice with a status 500 before it
    answers with that body. *)
Lemma C9_blank_document_rejected_witness :
  Validator.validateHtml "   " = Throw "HTML content is empty" /\
  (exists t',
     @HttpClient.fetch Fixtures.blankServer Fixtures.client "https://example.com/" 0 []
     = (Throw "Failed to fetch URL after 3 attempts: HTML content is empty", t')) /\
  (exists t',
     @HttpClient.fetch Fixtures.blankAtLast Fixtures.client "https://example.com/" 0 []
     = (Throw "Failed to fetch URL after 3 attempts: HTML content is empty", t')).
Proof.
  destruct (C9_blank_document_rejected "   " eq_refl) as (V & _ & _ & F & _).
  split; [exact V|]. split.
  - destruct (F Fixtures.blankServer Fixtures.client "https://example.com/" [] "OK"
                eq_refl ltac:(vm_compute; lia)) as (t' & E & _).
    + intros j _. discriminate.
    + reflexivity.
    + exists t'. exact E.
  - destruct (F Fixtures.blankAtLast Fixtures.client "https://example.com/" [] "OK"
                eq_refl ltac:(vm_compute; lia)) as (t' & E & _).
    + intros j Hj. destruct j as [|[|j]]; [discriminate | discriminate |].
      exfalso. vm_compute in Hj. lia.
    + reflexivity.
    + exists t'. exact E.
Defined.

(** ** The regular expression of _fetchFlag *)

Lemma strip_inside (s : string) :
  Spec.strip true s =
  match Spec.untilClosing s with
  | Some rest => Spec.strip false rest
  | None => EmptyString
  end.
Proof.
  induction s as [|c s IH]; simpl; [reflexivity|].
  destruct (Ascii.eqb c ">"); [reflexivity | exact IH].
Qed.

Lemma hasClosing_untilClosing (s : string) :
  Spec.hasClosing s = match Spec.untilClosing s with Some _ => true | None => false end.
Proof.
  induction s as [|c s IH]; simpl; [reflexivity|].
  destruct (Ascii.eqb c ">"); [reflexivity | exact IH].
Qed.

Lemma untilClosing_shorter (s rest : string) :
  Spec.untilClosing s = Some rest -> String.length rest < String.length s.
Proof.
  revert rest. induction s as [|c s IH]; simpl; intros rest H; [discriminate|].
  destruct (Ascii.eqb c ">").
  - inversion H; subst. lia.
  - apply IH in H. lia.
Qed.

(** The tag expression matches at an opening bracket that has a closing
    bracket after it, up to the first such bracket. *)
Lemma tag_matchHere (s : string) :
  Regex.matchHere false (Regex.source UrlExtractor.tagRegExp) None s =
  match s with
  | String c s' =>
      if Ascii.eqb c "<" then
        match Spec.untilClosing s' with
        | Some rest => Some (None, rest)
        | None => None
        end
      else None
  | EmptyString => None
  end.
Proof.
  destruct s as [|c s]; [reflexivity|].
  cbn [UrlExtractor.tagRegExp Regex.source Regex.lit app Regex.matchHere Regex.sameChar].
  rewrite (Ascii.eqb_sym "<" c). destruct (Ascii.eqb c "<"); [|reflexivity].
  induction s as [|d s IH]; [reflexivity|].
  cbn [Regex.greedyStar Regex.inClass Spec.untilClosing] in *.
  destruct (Ascii.eqb d ">") eqn:E; cbn [negb].
  - apply Ascii.eqb_eq in E. subst d. reflexivity.
  - rewrite IH. destruct (Spec.untilClosing s); [reflexivity|].
    cbn [Regex.matchHere Regex.sameChar].
    rewrite (Ascii.eqb_sym ">" d), E. reflexivity.
Qed.

(** The global replacement of [_fetchFlag] is the removal of tags. *)
Lemma removeAll_tag (s : string) :
  Regex.removeAll UrlExtractor.tagRegExp s = Spec.stripTags s.
Proof.
  unfold Spec.stripTags. remember UrlExtractor.tagRegExp as re eqn:R.
  funelim (Regex.removeAll re s).
  - reflexivity.
  - clear Heqcall.
    repeat match goal with H : sigmaI _ _ _ = _ |- _ => clear H end.
    change (Regex.ignoreCase UrlExtractor.tagRegExp) with false in e.
    rewrite tag_matchHere in e. cbn [Spec.strip].
    rewrite hasClosing_untilClosing.
    destruct (Ascii.eqb c "<"); cbn [andb]; [|rewrite H; reflexivity].
    destruct (Spec.untilClosing s'); [discriminate|]. rewrite H. reflexivity.
  - try clear Heqcall.
    repeat match goal with H : sigmaI _ _ _ = _ |- _ => clear H end.
    change (Regex.ignoreCase UrlExtractor.tagRegExp) with false in e.
    rewrite tag_matchHere in e. cbn [Spec.strip].
    rewrite hasClosing_untilClosing, strip_inside.
    destruct (Ascii.eqb c "<"); cbn [andb]; [|discriminate].
    destruct (Spec.untilClosing s'); [|discriminate].
    inversion e; subst. rewrite H; reflexivity.
  - try clear Heqcall.
    repeat match goal with H : sigmaI _ _ _ = _ |- _ => clear H end.
    change (Regex.ignoreCase UrlExtractor.tagRegExp) with false in e.
    rewrite tag_matchHere in e.
    destruct (Ascii.eqb c "<"); [|discriminate].
    destruct (Spec.untilClosing s') eqn:U; [|discriminate].
    inversion e; subst. apply untilClosing_shorter in U. simpl in n. lia.
Qed.

(** ** UrlExtractor *)

Lemma append_empty_r (s : string) : (s ++ EmptyString)%string = s.
Proof. induction s as [|c s IH]; simpl; [reflexivity | rewrite IH; reflexivity]. Qed.

(** Joining with the empty separator is plain concatenation. *)
Lemma join_concatenates (cs : list string) :
  JS.join cs = fold_right String.append EmptyString cs.
Proof.
  unfold JS.join. induction cs as [|c cs IH]; [reflexivity|].
  destruct cs as [|d cs].
  - simpl. rewrite append_empty_r. reflexivity.
  - change (String.concat EmptyString (c :: d :: cs))
      with (c ++ EmptyString ++ String.concat EmptyString (d :: cs))%string.
    rewrite IH. reflexivity.
Qed.

Lemma printed_app (tag : string) (a b : Trace) :
  printed tag (a ++ b) = printed tag a ++ printed tag b.
Proof. apply flat_map_app. Qed.

Section Extractor.

Context `{P : Platform}.
Variable this : UrlExtractor.t.

(** [_buildUrl] always returns the joined string; it sends nothing and
    prints a warning when the string does not parse as a URL. *)
Lemma buildUrl_returns (cs : list string) (t : Trace) :
  exists ev,
    UrlExtractor._buildUrl this cs t = (Return (JS.join cs), t ++ ev) /\
    silent ev /\
    (urlParses (JS.join cs) = false ->
     Logger._shouldLog (UrlExtractor.logger this) WARN = true ->
     printed "WARN" ev = [("Built string may not be a valid URL: " ++ JS.join cs)%string]).
Proof.
  unfold UrlExtractor._buildUrl, Validator.validateUrl, Logger.info, Logger.warn,
    Logger.success.
  destruct (urlParses (JS.join cs)),
           (Logger._shouldLog (UrlExtractor.logger this) INFO),
           (Logger._shouldLog (UrlExtractor.logger this) WARN);
    unfold bind, try_catch, lift, emit, ret; cbn [fst snd];
    rewrite <- ?app_assoc;
    first [ eexists; split; [reflexivity|]
          | exists []; rewrite app_nil_r; split; [reflexivity|] ];
    (split; [repeat split|]); intros; try discriminate; try reflexivity.
Qed.

Lemma logs_ret : logs (ret tt).
Proof. intros t. exists []. rewrite app_nil_r. split; [reflexivity | apply silent_nil]. Qed.

Lemma logs_bind (m : M unit) (k : unit -> M unit) :
  logs m -> logs (k tt) -> logs (bind m k).
Proof.
  intros Hm Hk t. destruct (Hm t) as (ev1 & E1 & S1).
  destruct (Hk (t ++ ev1)) as (ev2 & E2 & S2).
  exists (ev1 ++ ev2). unfold bind. rewrite E1, E2, app_assoc.
  split; [reflexivity | apply silent_app; assumption].
Qed.

Lemma displayResults_logs (result : UrlExtractor.Result) :
  logs (UrlExtractor._displayResults this result).
Proof.
  unfold UrlExtractor._displayResults.
  repeat first
    [ solve [auto with logs]
    | apply logs_bind
    | destruct (UrlExtractor.flag result) as [[|c f]|];
      solve [auto using logs_ret with logs] ].
Qed.

(** [_fetchFlag] never throws: it turns the outcome of the second fetch
    into a flag or into [null]. *)
Lemma fetchFlag_outcome (url : string) (t : Trace) :
  match HttpClient.fetch (UrlExtractor.httpClient this) url 0 (Spec.flagFetchStart this t) with
  | (Return response, t1) =>
      exists ev,
        UrlExtractor._fetchFlag this url t
        = (Return (Some (JS.trim (Spec.stripTags response))), t1 ++ ev) /\ silent ev
  | (Throw e, t1) =>
      exists ev,
        UrlExtractor._fetchFlag this url t = (Return None, t1 ++ ev) /\ silent ev /\
        (Logger._shouldLog (UrlExtractor.logger this) WARN = true ->
         In ("Could not fetch flag automatically: " ++ e)%string (printed "WARN" ev))
  | (Hang, t1) => UrlExtractor._fetchFlag this url t = (Hang, t1)
  end.
Proof.
  unfold UrlExtractor._fetchFlag, Spec.flagFetchStart, Logger.info, Logger.warn,
    Logger.success.
  destruct (Logger._shouldLog (UrlExtractor.logger this) INFO),
           (Logger._shouldLog (UrlExtractor.logger this) WARN);
    unfold bind, try_catch, emit, ret; cbn [fst snd];
    match goal with
    | |- context [HttpClient.fetch ?c url 0 ?t0] =>
        destruct (HttpClient.fetch c url 0 t0) as [[response|e|] t1]
    end; try reflexivity;
    rewrite <- ?removeAll_tag, <- ?app_assoc;
    first [ eexists; split; [reflexivity|]
          | exists []; rewrite app_nil_r; split; [reflexivity|] ];
    repeat split; intros; try discriminate; simpl; auto.
Qed.

(** Once the first two steps have returned, [extract] goes on with the
    flag step on the joined string and ends as that step does. *)
Lemma extract_pipeline (challengeUrl : string) (t : Trace) (html : string)
  (t1 : Trace) (cs : list string) (t2 : Trace) :
  UrlExtractor._fetchHtml this challengeUrl (Spec.pipelineStart this t) = (Return html, t1) ->
  UrlExtractor._extractCharacters this html t1 = (Return cs, t2) ->
  UrlExtractor.extract this challengeUrl t
  = Spec.finish this cs
      (UrlExtractor._fetchFlag this (JS.join cs) (snd (UrlExtractor._buildUrl this cs t2))).
Proof.
  unfold Spec.pipelineStart, UrlExtractor.extract. intros H1 H2.
  destruct (buildUrl_returns cs t2) as (ev & B & _).
  revert H1. unfold Logger.info at 1 2 3 4 5 6.
  destruct (Logger._shouldLog (UrlExtractor.logger this) INFO);
    unfold bind at 1 2, emit, ret; cbn [snd fst]; intros H1;
    unfold try_catch, bind at 1 2 3;
    unfold emit, ret; cbn [snd fst]; unfold bind at 1; rewrite H1;
    unfold bind at 1; rewrite H2; unfold bind at 1; rewrite B; cbn [snd];
    unfold bind at 1;
    destruct (UrlExtractor._fetchFlag this (JS.join cs) (t2 ++ ev)) as [[flag|e|] t3];
    cbn [Spec.finish]; try reflexivity;
    unfold bind;
    destruct (displayResults_logs (Spec.resultOf cs flag) t3) as (ev' & D & _);
    unfold Spec.resultOf in *; rewrite D; reflexivity.
Qed.

End Extractor.

(** C8.  In a run whose first two steps returned the characters [cs]: when
    the second fetch, made on the joined string, throws, [extract] returns
    the joined string, the characters and their number with the flag [null],
    and a warning that carries the error is printed; when the second fetch
    returns the body [R], the flag is [R] with its tags removed and then
    trimmed. *)
Theorem C8_flag_step `{P : Platform} (this : UrlExtractor.t) (challengeUrl : string)
  (t : Trace) (html : string) (t1 : Trace) (cs : list string) (t2 : Trace)
  (H1 : UrlExtractor._fetchHtml this challengeUrl (Spec.pipelineStart this t)
        = (Return html, t1))
  (H2 : UrlExtractor._extractCharacters this html t1 = (Return cs, t2)) :
  let t3 := Spec.flagFetchStart this (snd (UrlExtractor._buildUrl this cs t2)) in
  (forall (e : string) (t4 : Trace),
     HttpClient.fetch (UrlExtractor.httpClient this) (JS.join cs) 0 t3 = (Throw e, t4) ->
     exists t',
       UrlExtractor.extract this challengeUrl t = (Return (Spec.resultOf cs None), t') /\
       (Logger._shouldLog (UrlExtractor.logger this) WARN = true ->
        In ("Could not fetch flag automatically: " ++ e)%string (printed "WARN" t')))
  /\
  (forall (R : string) (t4 : Trace),
     HttpClient.fetch (UrlExtractor.httpClient this) (JS.join cs) 0 t3 = (Return R, t4) ->
     exists t',
       UrlExtractor.extract this challengeUrl t
       = (Return (Spec.resultOf cs (Some (JS.trim (Spec.stripTags R)))), t')).
Proof.
  intros t3. rewrite (extract_pipeline this challengeUrl t html t1 cs t2 H1 H2).
  pose proof (fetchFlag_outcome this (JS.join cs) (snd (UrlExtractor._buildUrl this cs t2)))
    as F.
  fold t3 in F. split.
  - intros e t4 E. rewrite E in F. destruct F as (ev & F & _ & W).
    rewrite F. cbn [Spec.finish].
    destruct (displayResults_logs this (Spec.resultOf cs None) (t4 ++ ev)) as (ev' & D & _).
    rewrite D. cbn [snd]. eexists. split; [reflexivity|].
    intros L. rewrite !printed_app. apply in_or_app. left. apply in_or_app. right. auto.
  - intros R t4 E. rewrite E in F. destruct F as (ev & F & _).
    rewrite F. cbn [Spec.finish]. eexists. reflexivity.
Qed.

Lemma C8_flag_step_witness :
  (exists t',
     @UrlExtractor.extract Fixtures.flagServer (Fixtures.extractorOf ["https://"; "f"; "/"])
       "https://example.com/" []
     = (Return {| UrlExtractor.url := "https://f/";
                  UrlExtractor.flag := Some "sunbeam";
                  UrlExtractor.characters := ["https://"; "f"; "/"];
                  UrlExtractor.characterCount := 3 |}, t')) /\
  (exists t',
     @UrlExtractor.extract Fixtures.pageOnlyServer (Fixtures.extractorOf ["https://"; "f"; "/"])
       "https://example.com/" []
     = (Return {| UrlExtractor.url := "https://f/";
                  UrlExtractor.flag := None;
                  UrlExtractor.characters := ["https://"; "f"; "/"];
                  UrlExtractor.characterCount := 3 |}, t')).
Proof.
  split.
  - destruct (@C8_flag_step Fixtures.flagServer (Fixtures.extractorOf ["https://"; "f"; "/"])
                "https://example.com/" [] _ _ _ _ eq_refl eq_refl) as [_ S].
    destruct (S _ _ eq_refl) as (t' & E). exists t'. exact E.
  - destruct (@C8_flag_step Fixtures.pageOnlyServer (Fixtures.extractorOf ["https://"; "f"; "/"])
                "https://example.com/" [] _ _ _ _ eq_refl eq_refl) as [F _].
    destruct (F _ _ eq_refl) as (t' & E & _). exists t'. exact E.
Defined.

(** C10.  [_buildUrl] returns for every sequence of characters: its value
    is the concatenation of the characters, it sends no request, and when
    the concatenation does not parse as a URL the failure of the validation
    only prints a warning.  In a run whose first two steps returned, the
    flag step is then entered with exactly that concatenation, and the run
    ends as the flag step does. *)
Theorem C10_build_url_never_fails `{P : Platform} (this : UrlExtractor.t)
  (cs : list string) (t : Trace) :
  (exists ev,
     UrlExtractor._buildUrl this cs t
     = (Return (fold_right String.append EmptyString cs), t ++ ev) /\
     requests ev = [] /\
     (urlParses (fold_right String.append EmptyString cs) = false ->
      Logger._shouldLog (UrlExtractor.logger this) WARN = true ->
      printed "WARN" ev
      = [("Built string may not be a valid URL: "
          ++ fold_right String.append EmptyString cs)%string]))
  /\
  (forall (challengeUrl : string) (t0 : Trace) (html : string) (t1 : Trace),
     UrlExtractor._fetchHtml this challengeUrl (Spec.pipelineStart this t0)
     = (Return html, t1) ->
     UrlExtractor._extractCharacters this html t1 = (Return cs, t) ->
     UrlExtractor.extract this challengeUrl t0
     = Spec.finish this cs
         (UrlExtractor._fetchFlag this (fold_right String.append EmptyString cs)
            (snd (UrlExtractor._buildUrl this cs t)))).
Proof.
  rewrite <- join_concatenates. split.
  - destruct (buildUrl_returns this cs t) as (ev & B & (Sr & _) & W).
    exists ev. auto.
  - intros challengeUrl t0 html t1 H1 H2. apply (extract_pipeline this _ _ _ _ _ _ H1 H2).
Qed.

Lemma C10_build_url_never_fails_witness :
  exists ev,
    @UrlExtractor._buildUrl Fixtures.pageServer (Fixtures.extractorOf ["a"; "b"; "c"])
      ["a"; "b"; "c"] []
    = (Return "abc", ev) /\
    printed "WARN" ev = ["Built string may not be a valid URL: abc"].
Proof.
  destruct (proj1 (@C10_build_url_never_fails Fixtures.pageServer
                     (Fixtures.extractorOf ["a"; "b"; "c"]) ["a"; "b"; "c"] []))
    as (ev & B & _ & W).
  exists ev. split; [exact B | exact (W eq_refl eq_refl)].
Defined.

(** ** The strategies and their pure cores *)

Lemma quietly_ret {A : Type} (a : A) : quietly (ret a) a.
Proof. intros t. exists []. rewrite app_nil_r. split; [reflexivity | apply silent_nil]. Qed.

Lemma quietly_bind {A B : Type} (m : M A) (k : A -> M B) (a : A) (b : B) :
  quietly m a -> quietly (k a) b -> quietly (bind m k) b.
Proof.
  intros Hm Hk t. destruct (Hm t) as (ev1 & E1 & S1).
  destruct (Hk (t ++ ev1)) as (ev2 & E2 & S2).
  exists (ev1 ++ ev2). unfold bind. rewrite E1, E2, app_assoc.
  split; [reflexivity | apply silent_app; assumption].
Qed.

Lemma quietly_try {A : Type} (m : M A) (h : string -> M A) (a : A) :
  quietly m a -> quietly (try_catch m h) a.
Proof.
  intros Hm t. destruct (Hm t) as (ev & E & S). exists ev.
  unfold try_catch. rewrite E. auto.
Qed.

(** A loop whose callback pushes [g x] for [x] pushes them all, in order. *)
Lemma quietly_forEach {A : Type} (f : A -> nat -> M (list string))
  (g : A -> list string) (l : list A) :
  (forall x index, In x l -> quietly (f x index) (g x)) ->
  forall index, quietly (forEach f l index) (flat_map g l).
Proof.
  induction l as [|x l IH]; intros Hf index; simpl.
  - apply quietly_ret.
  - eapply quietly_bind; [apply Hf; left; reflexivity|].
    eapply quietly_bind; [apply IH; intros; apply Hf; right; assumption|].
    apply quietly_ret.
Qed.

(** The callback of the XPath strategy pushes one string for every node:
    the parser of that strategy never answers null. *)
Lemma xpath_readValue (this : XPathStrategy.t) (node : DOM.Node) (index : nat) :
  quietly (XPathStrategy.readValue this node index) [Spec.valueString node].
Proof.
  unfold XPathStrategy.readValue, XMLDOM.getAttribute, Spec.valueString.
  destruct (DOM.getAttribute node PATTERN.VALUE_ATTRIBUTE);
    (eapply quietly_bind; [apply logs_debug | apply quietly_ret]).
Qed.

Lemma flat_map_singleton {A B : Type} (f : A -> B) (l : list A) :
  flat_map (fun x => [f x]) l = map f l.
Proof. induction l as [|x l IH]; simpl; [|rewrite IH]; reflexivity. Qed.

Lemma jsdom_readValue (this : JSDOMStrategy.t) (node : DOM.Node) (index : nat) :
  quietly (JSDOMStrategy.readValue this node index) (Spec.valueOf node).
Proof.
  unfold JSDOMStrategy.readValue, Spec.valueOf.
  destruct (DOM.getAttribute node PATTERN.VALUE_ATTRIBUTE).
  - eapply quietly_bind; [apply logs_debug | apply quietly_ret].
  - apply quietly_ret.
Qed.

(** What [XPathStrategy.extract] returns on a document that parses. *)
Lemma xpath_extract_returns `{P : Platform} (this : XPathStrategy.t) (html : string)
  (doc : DOM.Document) :
  parseFromString html = Return doc ->
  quietly (XPathStrategy.extract this html)
    (map Spec.valueString (XPath.select XPathStrategy._buildXPathExpression doc)).
Proof.
  intros H. unfold XPathStrategy.extract. apply quietly_try.
  eapply quietly_bind; [apply logs_info|].
  rewrite H. eapply quietly_bind; [apply (quietly_ret doc)|].
  eapply quietly_bind; [apply logs_debug|].
  eapply quietly_bind; [apply logs_info|].
  apply (quietly_bind _ _ (map Spec.valueString
           (XPath.select XPathStrategy._buildXPathExpression doc))).
  - rewrite <- flat_map_singleton.
    apply quietly_forEach. intros. apply xpath_readValue.
  - eapply quietly_bind; [apply logs_success | apply quietly_ret].
Qed.

Lemma flat_map_flat_map {A B C : Type} (f : A -> list B) (g : B -> list C) (l : list A) :
  flat_map g (flat_map f l) = flat_map (fun x => flat_map g (f x)) l.
Proof.
  induction l as [|x l IH]; simpl; [reflexivity|].
  rewrite flat_map_app, IH. reflexivity.
Qed.

(** What [JSDOMStrategy.extract] returns on a document that parses. *)
Lemma jsdom_extract_returns `{P : Platform} (this : JSDOMStrategy.t) (html : string)
  (doc : DOM.Document) :
  jsdom html = Return doc ->
  quietly (JSDOMStrategy.extract this html) (flat_map Spec.valueOf (Spec.jsdomVisited doc)).
Proof.
  intros H. unfold JSDOMStrategy.extract. apply quietly_try.
  eapply quietly_bind; [apply logs_info|].
  rewrite H. eapply quietly_bind; [apply (quietly_ret doc)|].
  eapply quietly_bind; [apply logs_debug|].
  apply (quietly_bind _ _ (flat_map Spec.valueOf (Spec.jsdomVisited doc))).
  - unfold Spec.jsdomVisited. cbv zeta. rewrite flat_map_flat_map.
    apply quietly_forEach. intros section ? _.
    cbv beta. rewrite flat_map_flat_map.
    apply quietly_forEach. intros article ? _.
    cbv beta. rewrite flat_map_flat_map.
    apply quietly_forEach. intros div ? _.
    cbv beta.
    apply quietly_forEach. intros. apply jsdom_readValue.
  - eapply quietly_bind; [apply logs_success | apply quietly_ret].
Qed.

(** What [RegexStrategy.extract] returns when its loop ends. *)
Lemma regex_extract_returns (this : RegexStrategy.t) (html : string)
  (found : list (option string)) :
  Regex.execLoop RegexStrategy._buildRegexPattern html = Some found ->
  quietly (RegexStrategy.extract this html) (map Spec.pushed found).
Proof.
  intros H. unfold RegexStrategy.extract. apply quietly_try.
  eapply quietly_bind; [apply logs_info|].
  eapply quietly_bind; [apply logs_debug|].
  rewrite H. apply (quietly_bind _ _ (map Spec.pushed found)).
  - replace (map Spec.pushed found) with (flat_map (fun g => [Spec.pushed g]) found)
      by (clear H; induction found as [|g l IH]; simpl; [|rewrite IH]; reflexivity).
    apply quietly_forEach. intros g index _.
    unfold RegexStrategy.pushMatch.
    eapply quietly_bind; [apply logs_debug | apply quietly_ret].
  - eapply quietly_bind; [apply logs_success | apply quietly_ret].
Qed.

(** ** The matcher *)

#[local] Arguments Regex.sameChar : simpl never.
#[local] Arguments Regex.inClass : simpl never.

Section MatcherInvariant.

(** A property of a match that still holds when the input is extended to
    the left. *)
Variable Q : string -> Regex.MatchResult -> Prop.
Hypothesis Q_extends : forall d s r, Q s r -> Q (String d s) r.

Lemma greedyStar_invariant (cls : Regex.CharClass)
  (k : string -> option Regex.MatchResult) :
  (forall s r, k s = Some r -> Q s r) ->
  forall s r, Regex.greedyStar cls k s = Some r -> Q s r.
Proof.
  intros Hk. induction s as [|d s IH]; intros r; simpl; [apply Hk|].
  destruct (Regex.inClass cls d); [|apply Hk].
  destruct (Regex.greedyStar cls k s) as [r'|] eqn:G; [|apply Hk].
  intros H. inversion H; subst. apply Q_extends. apply IH. reflexivity.
Qed.

Lemma lazyStar_invariant (cls : Regex.CharClass)
  (k : string -> option Regex.MatchResult) :
  (forall s r, k s = Some r -> Q s r) ->
  forall s r, Regex.lazyStar cls k s = Some r -> Q s r.
Proof.
  intros Hk. induction s as [|d s IH]; intros r; simpl.
  - destruct (k EmptyString) eqn:K; [|discriminate].
    intros H. inversion H; subst. apply Hk. exact K.
  - destruct (k (String d s)) eqn:K.
    + intros H. inversion H; subst. apply Hk. exact K.
    + destruct (Regex.inClass cls d); [|discriminate].
      intros H. apply Q_extends. apply IH. exact H.
Qed.

Lemma greedyGroup_invariant (cls : Regex.CharClass)
  (k : string -> string -> option Regex.MatchResult) :
  (forall acc s r, k acc s = Some r -> Q s r) ->
  forall s acc r, Regex.greedyGroup cls k acc s = Some r -> Q s r.
Proof.
  intros Hk. induction s as [|d s IH]; intros acc r; simpl; [apply Hk|].
  destruct (Regex.inClass cls d); [|apply Hk].
  destruct (Regex.greedyGroup cls k (acc ++ String d EmptyString) s) as [r'|] eqn:G;
    [|apply Hk].
  intros H. inversion H; subst. apply Q_extends. eapply IH. exact G.
Qed.

End MatcherInvariant.

(** A match never reads backwards. *)
Lemma matchHere_rest (icase : bool) (p : Regex.Pattern) :
  forall cap s g rest,
  Regex.matchHere icase p cap s = Some (g, rest) ->
  String.length rest <= String.length s.
Proof.
  induction p as [|[c|cls|cls|cls] p IH]; intros cap s g rest; simpl.
  - intros H. inversion H; subst. lia.
  - destruct s as [|d s]; [discriminate|].
    destruct (Regex.sameChar icase c d); [|discriminate].
    intros H. apply IH in H. simpl. lia.
  - apply (greedyStar_invariant
             (fun s r => String.length (snd r) <= String.length s)).
    + intros; simpl in *; lia.
    + intros s0 [g0 r0] H. simpl. eapply IH; eauto.
  - apply (lazyStar_invariant
             (fun s r => String.length (snd r) <= String.length s)).
    + intros; simpl in *; lia.
    + intros s0 [g0 r0] H. simpl. eapply IH; eauto.
  - apply (greedyGroup_invariant
             (fun s r => String.length (snd r) <= String.length s)).
    + intros; simpl in *; lia.
    + intros acc s0 [g0 r0] H. simpl. eapply IH; eauto.
Qed.

(** A pattern that starts with a literal reads at least one character. *)
Lemma matchHere_advances (icase : bool) (c : ascii) (p : Regex.Pattern)
  (cap : option string) (s : string) (g : option string) (rest : string) :
  Regex.matchHere icase (Regex.Lit c :: p) cap s = Some (g, rest) ->
  String.length rest < String.length s.
Proof.
  simpl. destruct s as [|d s]; [discriminate|].
  destruct (Regex.sameChar icase c d); [|discriminate].
  intros H. apply matchHere_rest in H. simpl. lia.
Qed.

Lemma search_advances (re : Regex.RegExp) (c : ascii) (p : Regex.Pattern) :
  Regex.source re = Regex.Lit c :: p ->
  forall s skipped g rest,
  Regex.search re s = Some (skipped, g, rest) ->
  String.length rest < String.length s.
Proof.
  intros R. induction s as [|d s IH]; intros skipped g rest; simpl; rewrite R.
  - discriminate.
  - destruct (Regex.matchHere (Regex.ignoreCase re) (Regex.Lit c :: p) None (String d s))
      as [[g0 r0]|] eqn:M.
    + intros H. inversion H; subst. apply matchHere_advances in M. exact M.
    + destruct (Regex.search re s) as [[[sk g1] r1]|] eqn:S; [|discriminate].
      intros H. inversion H; subst. specialize (IH _ _ _ eq_refl). simpl. lia.
Qed.

(** The loop of a regular expression that starts with a literal ends. *)
Lemma execLoop_ends (re : Regex.RegExp) (c : ascii) (p : Regex.Pattern) :
  Regex.source re = Regex.Lit c :: p ->
  forall s, exists found, Regex.execLoop re s = Some found.
Proof.
  intros R s. funelim (Regex.execLoop re s).
  - eexists. reflexivity.
  - destruct (H c p R) as (found & E). rewrite E. eexists. reflexivity.
  - exfalso. pose proof (search_advances re c p R _ _ _ _ e). lia.
Qed.

(** A literal at the head of the pattern is at the head of the input. *)
Lemma matchHere_prefix (L : string) :
  forall p cap s r,
  Regex.matchHere true (Regex.lit L ++ p) cap s = Some r ->
  Spec.prefixIgnoringCase L s = true.
Proof.
  induction L as [|c L IH]; intros p cap s r; simpl; [intros; reflexivity|].
  destruct s as [|d s]; [discriminate|].
  destruct (Regex.sameChar true c d); [|discriminate].
  intros H. simpl. eapply IH. exact H.
Qed.

Lemma includesIgnoringCase_extends (L : string) (d : ascii) (s : string) :
  Spec.includesIgnoringCase L s = true ->
  Spec.includesIgnoringCase L (String d s) = true.
Proof.
  intros H. simpl. rewrite H. apply orb_true_r.
Qed.

Lemma prefix_includesIgnoringCase (L s : string) :
  Spec.prefixIgnoringCase L s = true -> Spec.includesIgnoringCase L s = true.
Proof. intros H. destruct s; simpl; rewrite H; reflexivity. Qed.

(** A literal anywhere in the pattern occurs in every input that matches,
    up to the case of the letters. *)
Lemma matchHere_literal (L : string) (p2 : Regex.Pattern) (p1 : Regex.Pattern) :
  forall cap s r,
  Regex.matchHere true (p1 ++ Regex.lit L ++ p2) cap s = Some r ->
  Spec.includesIgnoringCase L s = true.
Proof.
  induction p1 as [|[c|cls|cls|cls] p1 IH]; intros cap s r; simpl.
  - intros H. apply prefix_includesIgnoringCase. eapply matchHere_prefix. exact H.
  - destruct s as [|d s]; [discriminate|].
    destruct (Regex.sameChar true c d); [|discriminate].
    intros H. apply includesIgnoringCase_extends. eapply IH. exact H.
  - apply (greedyStar_invariant (fun s _ => Spec.includesIgnoringCase L s = true)).
    + intros. apply includesIgnoringCase_extends. assumption.
    + intros s0 r0 H. eapply IH. exact H.
  - apply (lazyStar_invariant (fun s _ => Spec.includesIgnoringCase L s = true)).
    + intros. apply includesIgnoringCase_extends. assumption.
    + intros s0 r0 H. eapply IH. exact H.
  - apply (greedyGroup_invariant (fun s _ => Spec.includesIgnoringCase L s = true)).
    + intros. apply includesIgnoringCase_extends. assumption.
    + intros acc s0 r0 H. eapply IH. exact H.
Qed.

(** What holds of every match at every place holds of what a search finds. *)
Lemma search_invariant (re : Regex.RegExp) (Q : string -> Regex.MatchResult -> Prop) :
  (forall d s r, Q s r -> Q (String d s) r) ->
  (forall s r, Regex.matchHere (Regex.ignoreCase re) (Regex.source re) None s = Some r ->
               Q s r) ->
  forall s skipped g rest,
  Regex.search re s = Some (skipped, g, rest) -> Q s (g, rest).
Proof.
  intros Qe Qm. induction s as [|d s IH]; intros skipped g rest; simpl.
  - destruct (Regex.matchHere (Regex.ignoreCase re) (Regex.source re) None EmptyString)
      as [[g0 r0]|] eqn:M; [|discriminate].
    intros H. inversion H; subst. apply Qm. exact M.
  - destruct (Regex.matchHere (Regex.ignoreCase re) (Regex.source re) None (String d s))
      as [[g0 r0]|] eqn:M.
    + intros H. inversion H; subst. apply Qm. exact M.
    + destruct (Regex.search re s) as [[[sk g1] r1]|] eqn:S; [|discriminate].
      intros H. inversion H; subst. apply Qe. eapply IH. reflexivity.
Qed.

(** The first value that the loop finds is found by a search of the whole
    input; every value is found by a search. *)
Lemma execLoop_first (re : Regex.RegExp) (s : string) (g : option string)
  (found : list (option string)) :
  Regex.execLoop re s = Some (g :: found) ->
  exists skipped rest, Regex.search re s = Some (skipped, g, rest).
Proof.
  funelim (Regex.execLoop re s); try discriminate.
  intros E. destruct (Regex.execLoop re rest); [|discriminate].
  inversion E; subst. eauto.
Qed.

Lemma execLoop_all (re : Regex.RegExp) (Q : option string -> Prop) :
  (forall s skipped g rest, Regex.search re s = Some (skipped, g, rest) -> Q g) ->
  forall s found, Regex.execLoop re s = Some found -> Forall Q found.
Proof.
  intros HQ s. funelim (Regex.execLoop re s); intros found E.
  - inversion E. constructor.
  - destruct (Regex.execLoop re rest) as [caps|] eqn:L; [|discriminate].
    inversion E; subst. constructor; [eapply HQ; exact e | apply H; auto].
  - discriminate.
Qed.

(** ** The document tree *)

Lemma Node_induction (Q : DOM.Node -> Prop) :
  (forall name attrs kids, Forall Q kids -> Q (DOM.Element name attrs kids)) ->
  (forall data, Q (DOM.TextNode data)) ->
  forall n, Q n.
Proof.
  intros HE HT. fix IH 1. intros [name attrs kids|data]; [|apply HT].
  apply HE. induction kids as [|k kids IHk]; constructor; [apply IH | exact IHk].
Qed.

Lemma Marked_induction (Q : XPath.Marked -> Prop) :
  (forall selected uri n kids, Forall Q kids -> Q (XPath.Mark selected uri n kids)) ->
  forall m, Q m.
Proof.
  intros HM. fix IH 1. intros [selected uri n kids].
  apply HM. induction kids as [|k kids IHk]; constructor; [apply IH | exact IHk].
Qed.

(** After a step, the members of the node-set pass the test of the step. *)
Lemma descend_selected (st : XPath.Step) (m : XPath.Marked) :
  forall above n, In n (XPath.toArray (XPath.descend st above m)) -> XPath.test st n = true.
Proof.
  induction m as [selected uri n0 kids IH] using Marked_induction. intros above n. simpl.
  rewrite in_app_iff. intros [H|H].
  - destruct above; simpl in H; [|contradiction].
    destruct (XPath.noNamespace uri); simpl in H; [|contradiction].
    destruct (XPath.test st n0) eqn:T; simpl in H; [|contradiction].
    destruct H as [<-|[]]. exact T.
  - apply in_flat_map in H. destruct H as (k' & Hk & Hn).
    apply in_map_iff in Hk. destruct Hk as (k & <- & Hk).
    rewrite Forall_forall in IH. eapply IH; eauto.
Qed.

Lemma applyStep_selected (s : XPath.NodeSet) (st : XPath.Step) (n : DOM.Node) :
  In n (flat_map XPath.toArray (XPath.elements (XPath.applyStep s st))) ->
  XPath.test st n = true.
Proof.
  simpl. intros H. apply in_flat_map in H. destruct H as (m' & Hm & Hn).
  apply in_map_iff in Hm. destruct Hm as (m & <- & Hm).
  eapply descend_selected; eauto.
Qed.

(** The elements that the XPath expression selects are [b] elements whose
    [class] attribute is the required class, as a whole. *)
Lemma xpath_selects_ref (doc : DOM.Document) (n : DOM.Node) :
  In n (XPath.select XPathStrategy._buildXPathExpression doc) ->
  Spec.isRefB n = true.
Proof.
  unfold XPath.select, XPathStrategy._buildXPathExpression. cbn [fold_left].
  intros H. apply applyStep_selected in H.
  destruct n as [name attrs kids|data]; [|discriminate]. exact H.
Qed.

Lemma matches_b (quirks : bool) (n : DOM.Node) :
  Selector.matches quirks (JSDOMStrategy.b JSDOMStrategy._buildSelector) n =
  Spec.isElement "b" n
  && existsb (Selector.sameClass quirks PATTERN.B_CLASS) (Selector.classList n)
  && match DOM.getAttribute n PATTERN.VALUE_ATTRIBUTE with Some _ => true | None => false end.
Proof.
  destruct n as [name attrs kids|data]; [|reflexivity].
  cbn [Selector.matches JSDOMStrategy._buildSelector JSDOMStrategy.b Selector.typeName
       Selector.conditions forallb Selector.holds Spec.isElement].
  rewrite andb_true_r, andb_assoc. reflexivity.
Qed.

Lemma classList_reference (n : DOM.Node) (quirks : bool) :
  DOM.getAttribute n "class" = Some "reference" ->
  existsb (Selector.sameClass quirks PATTERN.B_CLASS) (Selector.classList n) = false.
Proof.
  intros H. unfold Selector.classList. rewrite H. destruct quirks; reflexivity.
Qed.

(** ** The XPath expression and the matching structures *)

Lemma enclosed_nil {A : Type} (ancestors : list A) :
  Spec.enclosed (@nil (A -> bool)) ancestors = true.
Proof. destruct ancestors; reflexivity. Qed.

(** A new innermost ancestor completes a chain when it passes the last test
    and the tests before it were already met. *)
Lemma enclosed_snoc {A : Type} (ancestors : list A) :
  forall (tests : list (A -> bool)) (t : A -> bool) (n : A),
  Spec.enclosed (tests ++ [t]) (ancestors ++ [n])
  = Spec.enclosed (tests ++ [t]) ancestors || (Spec.enclosed tests ancestors && t n).
Proof.
  induction ancestors as [|a anc IH]; intros tests t n.
  - destruct tests as [|t0 [|t1 ts]]; simpl; destruct (t n); try reflexivity;
      try (rewrite ?andb_false_r; reflexivity).
    all: destruct (t0 n); reflexivity.
  - destruct tests as [|t0 ts].
    + pose proof (IH [] t n) as E. simpl in E. rewrite enclosed_nil in E.
      simpl. rewrite !enclosed_nil, E.
      destruct (t a), (t n), (Spec.enclosed [t] anc); reflexivity.
    + change ((t0 :: ts) ++ [t]) with (t0 :: (ts ++ [t])).
      simpl. rewrite (IH ts t n).
      change (t0 :: (ts ++ [t])) with ((t0 :: ts) ++ [t]). rewrite (IH (t0 :: ts) t n).
      change ((t0 :: ts) ++ [t]) with (t0 :: (ts ++ [t])).
      destruct (t0 a), (t n), (Spec.enclosed (ts ++ [t]) anc), (Spec.enclosed ts anc),
        (Spec.enclosed (t0 :: ts ++ [t]) anc), (Spec.enclosed (t0 :: ts) anc); reflexivity.
Qed.

Lemma test_section (n : DOM.Node) :
  XPath.test {| XPath.name := "section";
                 XPath.predicate := XPath.Contains "data-id" PATTERN.SECTION_DATA_ID |} n
  = Spec.isSection n.
Proof.
  destruct n as [name attrs kids|data]; [|reflexivity].
  cbn [XPath.test XPath.name XPath.predicate].
  unfold Spec.isSection, Spec.attributeContains, XPath.attributeString, Spec.isElement.
  destruct (DOM.getAttribute (DOM.Element name attrs kids) "data-id"); reflexivity.
Qed.

Lemma test_article (n : DOM.Node) :
  XPath.test {| XPath.name := "article";
                 XPath.predicate := XPath.Contains "data-class" PATTERN.ARTICLE_DATA_CLASS |} n
  = Spec.isArticle n.
Proof.
  destruct n as [name attrs kids|data]; [|reflexivity].
  cbn [XPath.test XPath.name XPath.predicate].
  unfold Spec.isArticle, Spec.attributeContains, XPath.attributeString, Spec.isElement.
  destruct (DOM.getAttribute (DOM.Element name attrs kids) "data-class"); reflexivity.
Qed.

Lemma test_div (n : DOM.Node) :
  XPath.test {| XPath.name := "div";
                 XPath.predicate := XPath.Contains "data-tag" PATTERN.DIV_DATA_TAG |} n
  = Spec.isDiv n.
Proof.
  destruct n as [name attrs kids|data]; [|reflexivity].
  cbn [XPath.test XPath.name XPath.predicate].
  unfold Spec.isDiv, Spec.attributeContains, XPath.attributeString, Spec.isElement.
  destruct (DOM.getAttribute (DOM.Element name attrs kids) "data-tag"); reflexivity.
Qed.

Lemma test_b (n : DOM.Node) :
  XPath.test {| XPath.name := "b";
                 XPath.predicate := XPath.AttrEquals "class" PATTERN.B_CLASS |} n
  = Spec.isRefB n.
Proof. destruct n as [name attrs kids|data]; reflexivity. Qed.

Lemma map_flat_map {A B C : Type} (f : B -> C) (g : A -> list B) (l : list A) :
  map f (flat_map g l) = flat_map (fun x => map f (g x)) l.
Proof.
  induction l as [|x l IH]; simpl; [reflexivity|].
  rewrite map_app, IH. reflexivity.
Qed.

Lemma flat_map_ext_in {A B : Type} (f g : A -> list B) (l : list A) :
  (forall x, In x l -> f x = g x) -> flat_map f l = flat_map g l.
Proof.
  induction l as [|x l IH]; intros H; simpl; [reflexivity|].
  rewrite (H x (or_introl eq_refl)), IH; [reflexivity|].
  intros y Hy. apply H. right. exact Hy.
Qed.

(** The four steps of the expression, run on the subtree of [n] whose
    ancestors are [ancestors], select the innermost elements of the matching
    structures of that subtree that lie in no namespace. *)
Lemma select_structuresIn (st1 st2 st3 st4 : XPath.Step)
  (T1 : forall n, XPath.test st1 n = Spec.isSection n)
  (T2 : forall n, XPath.test st2 n = Spec.isArticle n)
  (T3 : forall n, XPath.test st3 n = Spec.isDiv n)
  (T4 : forall n, XPath.test st4 n = Spec.isRefB n) :
  forall (n : DOM.Node) (uri : string) (ancestors : list (string * DOM.Node)),
  flat_map XPath.toArray
    (map (XPath.descend st4
            (Spec.enclosed [Spec.bare Spec.isSection; Spec.bare Spec.isArticle;
                            Spec.bare Spec.isDiv] ancestors))
       (map (XPath.descend st3
               (Spec.enclosed [Spec.bare Spec.isSection; Spec.bare Spec.isArticle] ancestors))
          (map (XPath.descend st2 (Spec.enclosed [Spec.bare Spec.isSection] ancestors))
             (map (XPath.descend st1 true) (XPath.unmarked uri n)))))
  = Spec.xmlStructuresIn uri ancestors n.
Proof.
  induction n as [name attrs kids IH|data] using Node_induction; intros uri anc;
    [|reflexivity].
  cbn [XPath.unmarked map XPath.descend flat_map XPath.toArray Spec.xmlStructuresIn].
  cbv zeta.
  cbn [map XPath.descend flat_map XPath.toArray].
  rewrite app_nil_r, T1, T2, T3, T4.
  set (u := XMLDOM.namespaceURI uri (DOM.Element name attrs kids)).
  assert (B : forall t, Spec.bare t (u, DOM.Element name attrs kids)
                        = XPath.noNamespace u && t (DOM.Element name attrs kids))
    by reflexivity.
  rewrite B. f_equal.
  - destruct (Spec.enclosed [Spec.bare Spec.isSection; Spec.bare Spec.isArticle;
                             Spec.bare Spec.isDiv] anc),
      (XPath.noNamespace u), (Spec.isRefB (DOM.Element name attrs kids)); reflexivity.
  - rewrite !map_flat_map, flat_map_flat_map.
    apply flat_map_ext_in. intros k Hk.
    rewrite Forall_forall in IH. rewrite <- (IH k Hk).
    pose proof (enclosed_snoc anc [Spec.bare Spec.isSection; Spec.bare Spec.isArticle]
                  (Spec.bare Spec.isDiv) (u, DOM.Element name attrs kids)) as E3.
    pose proof (enclosed_snoc anc [Spec.bare Spec.isSection] (Spec.bare Spec.isArticle)
                  (u, DOM.Element name attrs kids)) as E2.
    pose proof (enclosed_snoc anc [] (Spec.bare Spec.isSection)
                  (u, DOM.Element name attrs kids)) as E1.
    cbn [app] in E1, E2, E3. rewrite enclosed_nil in E1.
    rewrite B in E1, E2, E3.
    rewrite E1, E2, E3, !andb_assoc. reflexivity.
Qed.

(** The expression of the XPath strategy selects exactly the innermost
    elements of the matching structures that lie in no namespace, each
    once, in document order. *)
Lemma xpath_select_structures (doc : DOM.Document) :
  XPath.select XPathStrategy._buildXPathExpression doc = Spec.xmlStructures doc.
Proof.
  unfold XPath.select, XPathStrategy._buildXPathExpression, Spec.xmlStructures.
  cbn [fold_left XPath.applyStep XPath.initial XPath.elements XPath.hasDocument].
  rewrite !map_flat_map, flat_map_flat_map.
  apply flat_map_ext. intros n.
  apply (select_structuresIn _ _ _ _ test_section test_article test_div test_b n
           XMLDOM.XHTML []).
Qed.

(** ** The loops of the JSDOM strategy and the matching structures *)

Lemma filter_flat_map {A B : Type} (f : B -> bool) (g : A -> list B) (l : list A) :
  filter f (flat_map g l) = flat_map (fun x => filter f (g x)) l.
Proof.
  induction l as [|x l IH]; simpl; [reflexivity|].
  rewrite filter_app, IH. reflexivity.
Qed.

Lemma flat_map_filter_subtree {X : Type} (F : DOM.Node -> list X) (t : DOM.Node -> bool)
  (kids : list DOM.Node) :
  flat_map (fun k => flat_map F (filter t (DOM.subtree k))) kids
  = flat_map F (filter t (flat_map DOM.subtree kids)).
Proof. rewrite filter_flat_map, flat_map_flat_map. reflexivity. Qed.

Lemma flat_map_nil {A B : Type} (f : A -> list B) (l : list A) :
  (forall x, In x l -> f x = []) -> flat_map f l = [].
Proof.
  induction l as [|x l IH]; intros H; simpl; [reflexivity|].
  rewrite (H x (or_introl eq_refl)), IH; [reflexivity|].
  intros y Hy. apply H. right. exact Hy.
Qed.

Lemma filter_nil {A : Type} (f : A -> bool) (l : list A) :
  (forall x, In x l -> f x = false) -> filter f l = [].
Proof.
  induction l as [|x l IH]; intros H; simpl; [reflexivity|].
  rewrite (H x (or_introl eq_refl)). apply IH. intros y Hy. apply H. right. exact Hy.
Qed.

Lemma subtree_child (name : string) (attrs : list (string * string))
  (kids : list DOM.Node) (k m : DOM.Node) :
  In k kids -> In m (DOM.subtree k) -> In m (DOM.descendants (DOM.Element name attrs kids)).
Proof.
  intros Hk Hm. unfold DOM.descendants. simpl. apply in_flat_map. exists k. auto.
Qed.

Lemma enclosed_more_tests (ancestors : list DOM.Node) :
  forall (l1 l2 : list (DOM.Node -> bool)),
  Spec.enclosed (l1 ++ l2) ancestors = true -> Spec.enclosed l1 ancestors = true.
Proof.
  induction ancestors as [|a anc IH]; intros l1 l2.
  - destruct l1; [reflexivity | discriminate].
  - destruct l1 as [|t0 l1]; [reflexivity|].
    simpl. intros H. apply orb_true_iff in H. apply orb_true_iff.
    destruct H as [H|H].
    + apply andb_prop in H. destruct H as [H1 H2]. left.
      rewrite H1. simpl. eapply IH. exact H2.
    + right. apply (IH (t0 :: l1) l2). exact H.
Qed.

Lemma enclosed_more_ancestors (ancestors : list DOM.Node) :
  forall (tests : list (DOM.Node -> bool)) (n : DOM.Node),
  Spec.enclosed tests ancestors = true -> Spec.enclosed tests (ancestors ++ [n]) = true.
Proof.
  induction ancestors as [|a anc IH]; intros tests n.
  - destruct tests; [reflexivity | discriminate].
  - destruct tests as [|t0 ts]; [reflexivity|].
    simpl. intros H. apply orb_true_iff in H. apply orb_true_iff.
    destruct H as [H|H].
    + apply andb_prop in H. destruct H as [H1 H2]. left.
      rewrite H1. simpl. apply IH. exact H2.
    + right. apply IH. exact H.
Qed.

Section JsdomLoops.

Variable quirks : bool.

Let innermost : DOM.Node -> bool :=
  Selector.matches quirks (JSDOMStrategy.b JSDOMStrategy._buildSelector).

Lemma exactIn_child name attrs kids k :
  Spec.exactIn quirks (DOM.Element name attrs kids) -> In k kids -> Spec.exactIn quirks k.
Proof.
  intros H Hk m Hm. apply H. simpl. right. apply in_flat_map. exists k. auto.
Qed.

Lemma unnestedIn_child t name attrs kids k :
  Spec.unnestedIn t (DOM.Element name attrs kids) -> In k kids -> Spec.unnestedIn t k.
Proof.
  intros H Hk m Hm. apply H. simpl. right. apply in_flat_map. exists k. auto.
Qed.

(** With exact classes, the selector of the innermost level and the test
    of the pattern give the same values. *)
Lemma innermost_value (k : DOM.Node) :
  (Spec.isElement "b" k = true ->
   existsb (Selector.sameClass quirks PATTERN.B_CLASS) (Selector.classList k) = true ->
   Spec.attributeIs k "class" PATTERN.B_CLASS = true) ->
  flat_map Spec.valueOf (if Spec.isRefB k then [k] else [])
  = flat_map Spec.valueOf (if innermost k then [k] else []).
Proof.
  intros H. unfold innermost. rewrite matches_b. unfold Spec.isRefB.
  destruct (Spec.isElement "b" k); [|reflexivity]. specialize (H eq_refl). simpl.
  destruct (Spec.attributeIs k "class" PATTERN.B_CLASS) eqn:C.
  - assert (E : existsb (Selector.sameClass quirks PATTERN.B_CLASS) (Selector.classList k)
                = true).
    { unfold Spec.attributeIs in C. unfold Selector.classList.
      destruct (DOM.getAttribute k "class") as [c|]; [|discriminate].
      apply String.eqb_eq in C. subst c. destruct quirks; reflexivity. }
    rewrite E. simpl.
    destruct (DOM.getAttribute k PATTERN.VALUE_ATTRIBUTE) eqn:V; simpl;
      unfold Spec.valueOf; rewrite V; reflexivity.
  - destruct (existsb (Selector.sameClass quirks PATTERN.B_CLASS) (Selector.classList k));
      [specialize (H eq_refl); discriminate | reflexivity].
Qed.

Let pattern : list (DOM.Node -> bool) := [Spec.isSection; Spec.isArticle; Spec.isDiv].

(** The loops from a level on push the values of the matching structures
    of a subtree whose ancestors meet the tests of the levels before, and
    no more of them. *)
Lemma structuresIn_visitedAt (todo : list (DOM.Node -> bool)) :
  forall (done : list (DOM.Node -> bool)),
  done ++ todo = pattern ->
  forall (k : DOM.Node) (ancestors : list DOM.Node),
  Spec.exactIn quirks k ->
  (forall t, In t todo -> Spec.unnestedIn t k) ->
  Spec.enclosed done ancestors = true ->
  match todo with
  | t :: _ => Spec.enclosed (done ++ [t]) ancestors = false
  | [] => True
  end ->
  flat_map Spec.valueOf (Spec.structuresIn ancestors k) = Spec.visitedAt todo innermost k.
Proof.
  induction todo as [|t ts IHtodo]; intros done D.
  - rewrite app_nil_r in D. subst done.
    induction k as [name attrs kids IH|data] using Node_induction;
      intros anc X U E _; [|reflexivity].
    cbn [Spec.structuresIn Spec.visitedAt DOM.subtree filter].
    fold pattern. rewrite E, andb_true_r, flat_map_app.
    rewrite (innermost_value _ (X _ (or_introl eq_refl))).
    replace (if innermost (DOM.Element name attrs kids)
             then DOM.Element name attrs kids :: filter innermost (flat_map DOM.subtree kids)
             else filter innermost (flat_map DOM.subtree kids))
      with ((if innermost (DOM.Element name attrs kids)
             then [DOM.Element name attrs kids] else [])
            ++ filter innermost (flat_map DOM.subtree kids))
      by (destruct (innermost (DOM.Element name attrs kids)); reflexivity).
    rewrite flat_map_app. f_equal.
    rewrite filter_flat_map, !flat_map_flat_map.
    apply flat_map_ext_in. intros k Hk. rewrite Forall_forall in IH.
    apply (IH k Hk).
    + eapply exactIn_child; eauto.
    + intros t [].
    + apply enclosed_more_ancestors. exact E.
    + exact I.
  - induction k as [name attrs kids IH|data] using Node_induction;
      intros anc X U E F; [|reflexivity].
    assert (Full : Spec.enclosed pattern anc = false).
    { destruct (Spec.enclosed pattern anc) eqn:G; [|reflexivity].
      rewrite <- D in G. change (t :: ts) with ([t] ++ ts) in G.
      rewrite app_assoc in G. apply enclosed_more_tests in G. congruence. }
    cbn [Spec.structuresIn Spec.visitedAt DOM.subtree filter].
    fold pattern. rewrite Full, andb_false_r. cbn [app].
    rewrite flat_map_flat_map.
    pose proof (enclosed_snoc anc done t (DOM.Element name attrs kids)) as Snoc.
    rewrite F, E in Snoc. cbn [orb andb] in Snoc.
    destruct (t (DOM.Element name attrs kids)) eqn:T.
    + cbn [flat_map DOM.childNodes].
      rewrite (filter_nil t (flat_map DOM.subtree kids)).
      * cbn [flat_map]. rewrite !app_nil_r.
        apply flat_map_ext_in. intros k Hk.
        apply (IHtodo (done ++ [t])).
        -- rewrite <- app_assoc. exact D.
        -- eapply exactIn_child; eauto.
        -- intros t' Ht'. eapply unnestedIn_child; [|exact Hk]. apply U. right. exact Ht'.
        -- exact Snoc.
        -- destruct ts as [|t' ts]; [exact I|].
           rewrite enclosed_snoc. rewrite F, andb_false_l, orb_false_r.
           destruct (Spec.enclosed ((done ++ [t]) ++ [t']) anc) eqn:G; [|reflexivity].
           apply enclosed_more_tests in G. congruence.
      * intros m Hm. apply (U t (or_introl eq_refl) (DOM.Element name attrs kids));
          [left; reflexivity | exact T | exact Hm].
    + rewrite <- flat_map_filter_subtree.
      apply flat_map_ext_in. intros k Hk. rewrite Forall_forall in IH.
      apply (IH k Hk).
      * eapply exactIn_child; eauto.
      * intros t' Ht'. eapply unnestedIn_child; [|exact Hk]. apply U. exact Ht'.
      * apply enclosed_more_ancestors. exact E.
      * exact Snoc.
Qed.

End JsdomLoops.

Lemma matches_section (quirks : bool) (n : DOM.Node) :
  Selector.matches quirks (JSDOMStrategy.section JSDOMStrategy._buildSelector) n
  = Spec.isSection n.
Proof.
  destruct n as [name attrs kids|data]; [|reflexivity].
  cbn [Selector.matches JSDOMStrategy._buildSelector JSDOMStrategy.section
       Selector.typeName Selector.conditions forallb Selector.holds].
  unfold Spec.isSection, Spec.attributeContains, Spec.isElement.
  destruct (DOM.getAttribute (DOM.Element name attrs kids) "data-id");
    rewrite ?andb_true_r; reflexivity.
Qed.

Lemma matches_article (quirks : bool) (n : DOM.Node) :
  Selector.matches quirks (JSDOMStrategy.article JSDOMStrategy._buildSelector) n
  = Spec.isArticle n.
Proof.
  destruct n as [name attrs kids|data]; [|reflexivity].
  cbn [Selector.matches JSDOMStrategy._buildSelector JSDOMStrategy.article
       Selector.typeName Selector.conditions forallb Selector.holds].
  unfold Spec.isArticle, Spec.attributeContains, Spec.isElement.
  destruct (DOM.getAttribute (DOM.Element name attrs kids) "data-class");
    rewrite ?andb_true_r; reflexivity.
Qed.

Lemma matches_div (quirks : bool) (n : DOM.Node) :
  Selector.matches quirks (JSDOMStrategy.div JSDOMStrategy._buildSelector) n
  = Spec.isDiv n.
Proof.
  destruct n as [name attrs kids|data]; [|reflexivity].
  cbn [Selector.matches JSDOMStrategy._buildSelector JSDOMStrategy.div
       Selector.typeName Selector.conditions forallb Selector.holds].
  unfold Spec.isDiv, Spec.attributeContains, Spec.isElement.
  destruct (DOM.getAttribute (DOM.Element name attrs kids) "data-tag");
    rewrite ?andb_true_r; reflexivity.
Qed.

(** The values of the elements that the loops visit, level by level. *)
Lemma jsdom_visitedAt (doc : DOM.Document) :
  flat_map Spec.valueOf (Spec.jsdomVisited doc)
  = flat_map
      (Spec.visitedAt [Spec.isSection; Spec.isArticle; Spec.isDiv]
         (Selector.matches (DOM.quirksMode doc)
            (JSDOMStrategy.b JSDOMStrategy._buildSelector)))
      (DOM.documentNodes doc).
Proof.
  unfold Spec.jsdomVisited, Selector.querySelectorAll, Selector.querySelectorAllIn,
    DOM.documentElements, DOM.descendants.
  cbv zeta. cbn [Spec.visitedAt].
  rewrite (filter_ext _ _ (matches_section (DOM.quirksMode doc))).
  rewrite flat_map_flat_map, flat_map_filter_subtree.
  apply flat_map_ext. intros s.
  rewrite (filter_ext _ _ (matches_article (DOM.quirksMode doc))).
  rewrite flat_map_flat_map, flat_map_filter_subtree.
  apply flat_map_ext. intros a.
  rewrite (filter_ext _ _ (matches_div (DOM.quirksMode doc))).
  rewrite flat_map_flat_map, flat_map_filter_subtree.
  apply flat_map_ext. intros d.
  rewrite filter_flat_map, flat_map_flat_map. reflexivity.
Qed.

(** In a document where matching sections, matching articles and matching
    divs are not nested in their like and classes are exact, the loops of
    the JSDOM strategy push the values of the matching structures. *)
Lemma jsdom_values (doc : DOM.Document) :
  Spec.unnested Spec.isSection doc ->
  Spec.unnested Spec.isArticle doc ->
  Spec.unnested Spec.isDiv doc ->
  Spec.exactClasses doc ->
  flat_map Spec.valueOf (Spec.jsdomVisited doc) = Spec.values doc.
Proof.
  intros US UA UD X. rewrite jsdom_visitedAt.
  unfold Spec.values, Spec.structures. rewrite flat_map_flat_map.
  apply flat_map_ext_in. intros k Hk. symmetry.
  assert (Sub : forall m, In m (DOM.subtree k) -> In m (DOM.documentElements doc)).
  { intros m Hm. unfold DOM.documentElements. apply in_flat_map. exists k. auto. }
  apply (structuresIn_visitedAt (DOM.quirksMode doc)
           [Spec.isSection; Spec.isArticle; Spec.isDiv] [] eq_refl k []).
  - intros m Hm. apply X. apply Sub. exact Hm.
  - intros t [<-|[<-|[<-|[]]]] m Hm; [apply US | apply UA | apply UD]; apply Sub; exact Hm.
  - reflexivity.
  - reflexivity.
Qed.

(** ** The regular expression of the Regex strategy on written documents *)

#[local] Arguments Regex.sameChar : simpl nomatch.
#[local] Arguments Regex.inClass : simpl nomatch.

Lemma lazy_first (cls : Regex.CharClass) (p : Regex.Pattern) (cap : option string)
  (s : string) (r : Regex.MatchResult) :
  Regex.matchHere true p cap s = Some r ->
  Regex.matchHere true (Regex.LazyStar cls :: p) cap s = Some r.
Proof. intros H. cbn [Regex.matchHere]. destruct s; simpl; rewrite H; reflexivity. Qed.

Lemma section_step (p : Regex.Pattern) (cap : option string) (tail : string)
  (r : Regex.MatchResult) :
  Regex.matchHere true p cap tail = Some r ->
  Regex.matchHere true (RegexStrategy.sectionPattern ++ p) cap
    ("<section data-id=" ++ JS.dquote ++ "92" ++ JS.dquote ++ ">" ++ tail)%string = Some r.
Proof.
  intros H. cbn. rewrite H. reflexivity.
Qed.

Lemma article_step (p : Regex.Pattern) (cap : option string) (tail : string)
  (r : Regex.MatchResult) :
  Regex.matchHere true p cap tail = Some r ->
  Regex.matchHere true (RegexStrategy.articlePattern ++ p) cap
    ("<article data-class=" ++ JS.dquote ++ "45" ++ JS.dquote ++ ">" ++ tail)%string = Some r.
Proof.
  intros H. cbn. rewrite H. reflexivity.
Qed.

Lemma div_step (p : Regex.Pattern) (cap : option string) (tail : string)
  (r : Regex.MatchResult) :
  Regex.matchHere true p cap tail = Some r ->
  Regex.matchHere true (RegexStrategy.divPattern ++ p) cap
    ("<div data-tag=" ++ JS.dquote ++ "78" ++ JS.dquote ++ ">" ++ tail)%string = Some r.
Proof.
  intros H. cbn. rewrite H. reflexivity.
Qed.

Lemma append_assoc (a b c : string) : ((a ++ b) ++ c)%string = (a ++ b ++ c)%string.
Proof. induction a as [|x a IH]; simpl; [reflexivity | rewrite IH; reflexivity]. Qed.

(** A greedy star that has read [u] tries its continuation after [u] and
    then at the places inside [u], from the right to the left. *)
Lemma greedyStar_app (cls : Regex.CharClass) (k : string -> option Regex.MatchResult)
  (u s : string) :
  Spec.allInClass cls u = true ->
  Regex.greedyStar cls k (u ++ s) =
  match Regex.greedyStar cls k s with
  | Some r => Some r
  | None => Spec.retry k u s
  end.
Proof.
  induction u as [|c u IH]; intros H.
  - simpl. destruct (Regex.greedyStar cls k s); reflexivity.
  - cbn [append Regex.greedyStar Spec.retry Spec.allInClass] in *.
    apply andb_prop in H. destruct H as [Hc Hu].
    rewrite Hc, (IH Hu).
    destruct (Regex.greedyStar cls k s); reflexivity.
Qed.

Lemma retry_app (k : string -> option Regex.MatchResult) (u1 u2 s : string) :
  Spec.retry k (u1 ++ u2) s =
  match Spec.retry k u2 s with
  | Some r => Some r
  | None => Spec.retry k u1 (u2 ++ s)
  end.
Proof.
  induction u1 as [|c u1 IH]; simpl.
  - destruct (Spec.retry k u2 s); reflexivity.
  - rewrite IH, append_assoc. destruct (Spec.retry k u2 s); reflexivity.
Qed.

Lemma allInClass_app (cls : Regex.CharClass) (u1 u2 : string) :
  Spec.allInClass cls (u1 ++ u2) = Spec.allInClass cls u1 && Spec.allInClass cls u2.
Proof.
  induction u1 as [|c u1 IH]; simpl; [reflexivity|].
  rewrite IH, andb_assoc. reflexivity.
Qed.

Lemma length_append (a b : string) :
  String.length (a ++ b) = String.length a + String.length b.
Proof. induction a as [|c a IH]; simpl; [reflexivity | rewrite IH; reflexivity]. Qed.

(** Only the double quote is the same character as the double quote. *)
Lemma quote_only (c : ascii) :
  Regex.sameChar true (ascii_of_nat 34) c = true -> c = ascii_of_nat 34.
Proof.
  destruct c as [[] [] [] [] [] [] [] []]; vm_compute; intros H;
    first [reflexivity | discriminate].
Qed.

Lemma notQuote_differs (c : ascii) :
  Regex.inClass RegexStrategy.notQuote c = true ->
  Regex.sameChar true (ascii_of_nat 34) c = false.
Proof.
  intros H. destruct (Regex.sameChar true (ascii_of_nat 34) c) eqn:E; [|reflexivity].
  apply quote_only in E. subst c. discriminate.
Qed.

(** The characters of a name are neither a double quote nor a closing
    angle bracket. *)
Lemma nameChar_classes (c : ascii) :
  Spec.nameChar c = true ->
  Regex.inClass RegexStrategy.notQuote c = true /\
  Regex.inClass RegexStrategy.notClosing c = true.
Proof.
  destruct c as [[] [] [] [] [] [] [] []]; vm_compute; intros H;
    first [split; reflexivity | discriminate].
Qed.

Lemma isName_classes (q : string) :
  Spec.isName q = true ->
  Spec.allInClass RegexStrategy.notQuote q = true /\
  Spec.allInClass RegexStrategy.notClosing q = true.
Proof.
  induction q as [|c q IH]; [split; reflexivity|].
  cbn [Spec.isName Spec.allInClass]. intros H. apply andb_prop in H. destruct H as [Hc Hq].
  destruct (nameChar_classes c Hc) as [C1 C2]. destruct (IH Hq) as [Q1 Q2].
  rewrite C1, C2, Q1, Q2. split; reflexivity.
Qed.

(** A literal whose seventh character is a double quote, after six that are
    none, begins at a text [x] without double quote that a double quote
    follows only if [x] is the first six characters of the literal, up to
    the case of the letters, and the rest of the literal comes next. *)
Lemma literal_needs_quote (a b c d e f : ascii) (L x rest : string) :
  Regex.sameChar true a (ascii_of_nat 34) = false ->
  Regex.sameChar true b (ascii_of_nat 34) = false ->
  Regex.sameChar true c (ascii_of_nat 34) = false ->
  Regex.sameChar true d (ascii_of_nat 34) = false ->
  Regex.sameChar true e (ascii_of_nat 34) = false ->
  Regex.sameChar true f (ascii_of_nat 34) = false ->
  Spec.allInClass RegexStrategy.notQuote x = true ->
  Spec.sameText (String a (String b (String c (String d (String e (String f EmptyString))))))
    x = false \/ Spec.prefixIgnoringCase L rest = false ->
  Spec.prefixIgnoringCase
    (String a (String b (String c (String d (String e (String f
       (String (ascii_of_nat 34) L)))))))
    (x ++ String (ascii_of_nat 34) rest) = false.
Proof.
  intros Ha Hb Hc Hd He Hf X D.
  destruct x as [|x0 [|x1 [|x2 [|x3 [|x4 [|x5 [|x6 x]]]]]]];
    cbn [append Spec.prefixIgnoringCase];
    rewrite ?Ha, ?Hb, ?Hc, ?Hd, ?He, ?Hf, ?andb_false_r; try reflexivity.
  - unfold Spec.sameText in D. cbn [Spec.prefixIgnoringCase String.length Nat.eqb] in D.
    destruct D as [D|D].
    + rewrite !andb_true_r in D.
      destruct (Regex.sameChar true a x0), (Regex.sameChar true b x1),
        (Regex.sameChar true c x2), (Regex.sameChar true d x3),
        (Regex.sameChar true e x4), (Regex.sameChar true f x5);
        try reflexivity; discriminate D.
    + rewrite D, !andb_false_r. reflexivity.
  - cbn [Spec.allInClass] in X.
    repeat (apply andb_prop in X; destruct X as [? X]).
    rewrite (notQuote_differs x6) by assumption.
    rewrite ?andb_false_r. reflexivity.
Qed.

(** A continuation that fails at every place inside [v] fails when it is
    tried at these places one after the other. *)
Lemma retry_blocked (k : string -> option Regex.MatchResult) (s : string) :
  forall v : string,
  (forall u w, v = (u ++ w)%string -> w <> EmptyString -> k (w ++ s)%string = None) ->
  Spec.retry k v s = None.
Proof.
  induction v as [|c v IH]; intros H; [reflexivity|].
  cbn [Spec.retry]. rewrite IH.
  - apply (H EmptyString (String c v)); [reflexivity | discriminate].
  - intros u w E N. apply (H (String c u) w); [cbn; rewrite E; reflexivity | exact N].
Qed.

Lemma ends_suffix (L u w : string) :
  Spec.endsIgnoringCase L (u ++ w) = false -> Spec.sameText L w = false.
Proof.
  induction u as [|c u IH]; cbn [append]; intros H.
  - destruct w; cbn [Spec.endsIgnoringCase] in H; apply orb_false_elim in H; apply H.
  - cbn [Spec.endsIgnoringCase] in H. apply orb_false_elim in H. apply IH, H.
Qed.

Lemma allInClass_suffix (cls : Regex.CharClass) (u w : string) :
  Spec.allInClass cls (u ++ w) = true -> Spec.allInClass cls w = true.
Proof.
  rewrite allInClass_app. intros H. apply andb_prop in H. apply H.
Qed.

(** A continuation that starts with such a literal fails at every place
    inside a value without double quote and at the double quote that closes
    it, when the value does not end with the first six characters of the
    literal or the rest of the literal does not come next. *)
Lemma retry_in_value (a b c d e f : ascii) (L : string) (p : Regex.Pattern)
  (cap : option string) (v rest : string) :
  Regex.sameChar true a (ascii_of_nat 34) = false ->
  Regex.sameChar true b (ascii_of_nat 34) = false ->
  Regex.sameChar true c (ascii_of_nat 34) = false ->
  Regex.sameChar true d (ascii_of_nat 34) = false ->
  Regex.sameChar true e (ascii_of_nat 34) = false ->
  Regex.sameChar true f (ascii_of_nat 34) = false ->
  Spec.allInClass RegexStrategy.notQuote v = true ->
  Spec.endsIgnoringCase
    (String a (String b (String c (String d (String e (String f EmptyString)))))) v = false
  \/ Spec.prefixIgnoringCase L rest = false ->
  Spec.retry
    (Regex.matchHere true
       (Regex.lit (String a (String b (String c (String d (String e (String f
                     (String (ascii_of_nat 34) L)))))))
        ++ p) cap)
    (v ++ String (ascii_of_nat 34) EmptyString) rest = None.
Proof.
  intros Ha Hb Hc Hd He Hf V D. rewrite retry_app.
  match goal with
  | |- context [Spec.retry ?k (String (ascii_of_nat 34) EmptyString) rest] =>
      replace (Spec.retry k (String (ascii_of_nat 34) EmptyString) rest)
        with (@None Regex.MatchResult)
        by (cbn [Spec.retry append Regex.lit app Regex.matchHere]; rewrite Ha; reflexivity)
  end.
  apply retry_blocked. intros u w E N.
  match goal with
  | |- ?m = None => destruct m as [r|] eqn:M; [|reflexivity]
  end.
  apply matchHere_prefix in M. cbn [append] in M.
  rewrite (literal_needs_quote a b c d e f L w rest Ha Hb Hc Hd He Hf) in M;
    [discriminate| |].
  - subst v. eapply allInClass_suffix. exact V.
  - destruct D as [D|D]; [left | right; exact D].
    subst v. eapply ends_suffix. exact D.
Qed.

(** The same at every place of a text without double quote that six
    characters without double quote and then a double quote follow. *)
Lemma retry_before_quote (a b c d e f : ascii) (L : string) (p : Regex.Pattern)
  (cap : option string) (x six rest : string) :
  Regex.sameChar true a (ascii_of_nat 34) = false ->
  Regex.sameChar true b (ascii_of_nat 34) = false ->
  Regex.sameChar true c (ascii_of_nat 34) = false ->
  Regex.sameChar true d (ascii_of_nat 34) = false ->
  Regex.sameChar true e (ascii_of_nat 34) = false ->
  Regex.sameChar true f (ascii_of_nat 34) = false ->
  Spec.allInClass RegexStrategy.notQuote x = true ->
  Spec.allInClass RegexStrategy.notQuote six = true ->
  String.length six = 6 ->
  Spec.retry
    (Regex.matchHere true
       (Regex.lit (String a (String b (String c (String d (String e (String f
                     (String (ascii_of_nat 34) L)))))))
        ++ p) cap)
    x (six ++ String (ascii_of_nat 34) rest) = None.
Proof.
  intros Ha Hb Hc Hd He Hf X S6 L6.
  apply retry_blocked. intros u w E N.
  match goal with
  | |- ?m = None => destruct m as [r|] eqn:M; [|reflexivity]
  end.
  apply matchHere_prefix in M. rewrite <- append_assoc in M.
  rewrite (literal_needs_quote a b c d e f L (w ++ six) rest Ha Hb Hc Hd He Hf) in M;
    [discriminate| |].
  - rewrite allInClass_app, S6, andb_true_r. subst x. eapply allInClass_suffix. exact X.
  - left. unfold Spec.sameText. rewrite length_append, L6.
    destruct w as [|w0 w]; [contradiction|].
    cbn [String.length]. replace (6 =? S (String.length w) + 6)%nat with false
      by (symmetry; apply Nat.eqb_neq; lia).
    apply andb_false_r.
Qed.

(** The group reads a value without double quote up to the double quote
    that closes it. *)
Lemma group_reads (v : string) :
  forall (acc tail : string),
  Spec.allInClass RegexStrategy.notQuote v = true ->
  Regex.greedyGroup RegexStrategy.notQuote
    (fun acc0 =>
       Regex.matchHere true
         (Regex.lit JS.dquote ++ [Regex.Star RegexStrategy.notClosing] ++ Regex.lit ">")
         (Some acc0))
    acc (v ++ JS.dquote ++ ">" ++ tail)%string
  = Some (Some (acc ++ v)%string, tail).
Proof.
  induction v as [|c v IH]; intros acc tail V.
  - cbn. rewrite append_empty_r. reflexivity.
  - cbn [Spec.allInClass] in V. apply andb_prop in V. destruct V as [Vc Vv].
    cbn [append Regex.greedyGroup].
    rewrite Vc, (IH _ tail Vv), append_assoc. reflexivity.
Qed.

Lemma first_some {A : Type} (x y : option A) (r : A) :
  x = Some r -> match x with Some r' => Some r' | None => y end = Some r.
Proof. intros ->. reflexivity. Qed.

Lemma quotable_classes (v : string) :
  Spec.quotable v = true ->
  Spec.allInClass RegexStrategy.notQuote v = true /\
  Spec.allInClass RegexStrategy.notClosing v = true /\
  Spec.endsIgnoringCase "value=" v = false.
Proof.
  unfold Spec.quotable. intros H.
  apply andb_prop in H. destruct H as [H E].
  apply andb_prop in H. destruct H as [Q C].
  apply negb_true_iff in E. auto.
Qed.

(** The end of the pattern, from the literal of the value attribute on,
    tried at the places of that literal and of the value from the right to
    the left, first matches where the literal starts. *)
Lemma value_found (v : string) (cap : option string) (tail : string) :
  Spec.quotable v = true ->
  Spec.retry
    (Regex.matchHere true
       (Regex.lit (PATTERN.VALUE_ATTRIBUTE ++ "=" ++ JS.dquote)
        ++ [Regex.Group RegexStrategy.notQuote] ++ Regex.lit JS.dquote
        ++ [Regex.Star RegexStrategy.notClosing] ++ Regex.lit ">") cap)
    ("value=" ++ String (ascii_of_nat 34) (v ++ String (ascii_of_nat 34) EmptyString))
    (String ">" tail)
  = Some (Some v, tail).
Proof.
  intros V. destruct (quotable_classes v V) as (Q & C & E).
  cbn [Spec.retry append].
  match goal with
  | |- context [Spec.retry ?k ?u ?s] =>
      replace (Spec.retry k u s) with (@None Regex.MatchResult)
        by (symmetry; apply (retry_in_value "v" "a" "l" "u" "e" "=");
            [reflexivity .. | exact Q | left; exact E])
  end.
  rewrite !append_assoc.
  exact (group_reads v EmptyString tail Q).
Qed.

(** The end of the pattern, from the star before the value attribute on,
    matches the rest of a tag in which an attribute whose name ends with
    value comes next, and captures what that attribute holds. *)
Lemma value_step (q v : string) (cap : option string) (tail : string) :
  Spec.isName q = true ->
  Spec.quotable v = true ->
  Regex.matchHere true
    ([Regex.Star RegexStrategy.notClosing]
     ++ Regex.lit (PATTERN.VALUE_ATTRIBUTE ++ "=" ++ JS.dquote)
     ++ [Regex.Group RegexStrategy.notQuote] ++ Regex.lit JS.dquote
     ++ [Regex.Star RegexStrategy.notClosing] ++ Regex.lit ">")
    cap (" " ++ q ++ "value=" ++ JS.dquote ++ v ++ JS.dquote ++ ">" ++ tail)%string
  = Some (Some v, tail).
Proof.
  intros N V. destruct (quotable_classes v V) as (Q & C & E).
  destruct (isName_classes q N) as (NQ & NC).
  cbn [Regex.matchHere app].
  replace (" " ++ q ++ "value=" ++ JS.dquote ++ v ++ JS.dquote ++ ">" ++ tail)%string
    with ((String " " q
           ++ ("value=" ++ String (ascii_of_nat 34) (v ++ String (ascii_of_nat 34) EmptyString)))
          ++ String ">" tail)%string
    by (cbn; rewrite !append_assoc; cbn; rewrite !append_assoc; reflexivity).
  rewrite greedyStar_app
    by (rewrite allInClass_app; cbn [Spec.allInClass append]; rewrite NC, allInClass_app, C;
        reflexivity).
  match goal with
  | |- context [Regex.greedyStar ?c ?k ?s] =>
      replace (Regex.greedyStar c k s) with (@None Regex.MatchResult) by reflexivity
  end.
  rewrite retry_app. apply first_some.
  exact (value_found v cap tail V).
Qed.

Lemma same_r (c : ascii) :
  Regex.sameChar true "r" c = true -> c = "r"%char \/ c = "R"%char.
Proof.
  destruct c as [[] [] [] [] [] [] [] []]; vm_compute; intros H;
    first [discriminate | left; reflexivity | right; reflexivity].
Qed.

Lemma same_e (c : ascii) :
  Regex.sameChar true "e" c = true -> c = "e"%char \/ c = "E"%char.
Proof.
  destruct c as [[] [] [] [] [] [] [] []]; vm_compute; intros H;
    first [discriminate | left; reflexivity | right; reflexivity].
Qed.

Lemma same_f (c : ascii) :
  Regex.sameChar true "f" c = true -> c = "f"%char \/ c = "F"%char.
Proof.
  destruct c as [[] [] [] [] [] [] [] []]; vm_compute; intros H;
    first [discriminate | left; reflexivity | right; reflexivity].
Qed.

(** A class that is ref up to the case of its letters is one of eight
    strings. *)
Lemma sameText_ref (cls : string) :
  Spec.sameText PATTERN.B_CLASS cls = true ->
  exists c1 c2 c3,
    cls = String c1 (String c2 (String c3 EmptyString)) /\
    (c1 = "r"%char \/ c1 = "R"%char) /\ (c2 = "e"%char \/ c2 = "E"%char) /\
    (c3 = "f"%char \/ c3 = "F"%char).
Proof.
  unfold Spec.sameText. intros H. apply andb_prop in H. destruct H as [Hp Hl].
  destruct cls as [|c1 [|c2 [|c3 [|c4 cls]]]]; try discriminate.
  cbn [PATTERN.B_CLASS Spec.prefixIgnoringCase] in Hp.
  apply andb_prop in Hp. destruct Hp as [H1 Hp].
  apply andb_prop in Hp. destruct Hp as [H2 Hp].
  apply andb_prop in Hp. destruct Hp as [H3 _].
  exists c1, c2, c3. split; [reflexivity|].
  split; [apply same_r; exact H1|]. split; [apply same_e; exact H2 | apply same_f; exact H3].
Qed.

(** The literal of the class does not begin anywhere after the class
    attribute of such a tag. *)
Lemma class_blocked (p : Regex.Pattern) (q v : string) (cap : option string)
  (tail : string) :
  Spec.isName q = true ->
  Spec.quotable v = true ->
  Spec.retry (Regex.matchHere true (Regex.lit Spec.classText ++ p) cap)
    (String " " q
     ++ ("value=" ++ String (ascii_of_nat 34) (v ++ String (ascii_of_nat 34) EmptyString)))
    (String ">" tail) = None.
Proof.
  intros N V. destruct (quotable_classes v V) as (Q & C & E).
  destruct (isName_classes q N) as (NQ & NC).
  replace (String " " q
           ++ ("value=" ++ String (ascii_of_nat 34) (v ++ String (ascii_of_nat 34) EmptyString)))%string
    with ((String " " q ++ ("value=" ++ String (ascii_of_nat 34) EmptyString))
          ++ (v ++ String (ascii_of_nat 34) EmptyString))%string
    by (rewrite !append_assoc; reflexivity).
  rewrite retry_app.
  match goal with
  | |- context [Spec.retry ?k (v ++ String (ascii_of_nat 34) EmptyString)%string ?s] =>
      replace (Spec.retry k (v ++ String (ascii_of_nat 34) EmptyString)%string s)
        with (@None Regex.MatchResult)
        by (symmetry;
            apply (retry_in_value "c" "l" "a" "s" "s" "=" ("ref" ++ JS.dquote) p cap v
                     (String ">" tail));
            [reflexivity ..|exact Q|right; reflexivity])
  end.
  rewrite retry_app.
  match goal with
  | |- context [Spec.retry ?k ("value=" ++ String (ascii_of_nat 34) EmptyString)%string ?s] =>
      replace (Spec.retry k ("value=" ++ String (ascii_of_nat 34) EmptyString)%string s)
        with (@None Regex.MatchResult) by reflexivity
  end.
  replace (("value=" ++ String (ascii_of_nat 34) EmptyString)
           ++ (v ++ String (ascii_of_nat 34) EmptyString) ++ String ">" tail)%string
    with ("value=" ++ String (ascii_of_nat 34)
            ((v ++ String (ascii_of_nat 34) EmptyString) ++ String ">" tail))%string
    by reflexivity.
  apply (retry_before_quote "c" "l" "a" "s" "s" "=" ("ref" ++ JS.dquote) p cap
           (String " " q) "value=");
    [reflexivity ..| |reflexivity|reflexivity].
  cbn [Spec.allInClass]. rewrite NQ. reflexivity.
Qed.

(** The end of the pattern, from the star before the class attribute on,
    matches the rest of a tag in which the class attribute, ref in whatever
    case, comes first and an attribute whose name ends with value comes
    next, and captures what that attribute holds. *)
Lemma class_step (c1 c2 c3 : ascii) (q v : string) (cap : option string) (tail : string) :
  (c1 = "r"%char \/ c1 = "R"%char) -> (c2 = "e"%char \/ c2 = "E"%char) ->
  (c3 = "f"%char \/ c3 = "F"%char) ->
  Spec.isName q = true ->
  Spec.quotable v = true ->
  Regex.matchHere true
    ([Regex.Star RegexStrategy.notClosing] ++ Regex.lit Spec.classText
     ++ [Regex.Star RegexStrategy.notClosing]
     ++ Regex.lit (PATTERN.VALUE_ATTRIBUTE ++ "=" ++ JS.dquote)
     ++ [Regex.Group RegexStrategy.notQuote] ++ Regex.lit JS.dquote
     ++ [Regex.Star RegexStrategy.notClosing] ++ Regex.lit ">")
    cap (" class=" ++ JS.dquote ++ String c1 (String c2 (String c3 EmptyString)) ++ JS.dquote
         ++ " " ++ q ++ "value=" ++ JS.dquote ++ v ++ JS.dquote ++ ">" ++ tail)%string
  = Some (Some v, tail).
Proof.
  intros H1 H2 H3 N V. destruct (quotable_classes v V) as (Q & C & E).
  destruct (isName_classes q N) as (NQ & NC).
  cbn [Regex.matchHere app].
  replace (" class=" ++ JS.dquote ++ String c1 (String c2 (String c3 EmptyString)) ++ JS.dquote
           ++ " " ++ q ++ "value=" ++ JS.dquote ++ v ++ JS.dquote ++ ">" ++ tail)%string
    with (((" class=" ++ String (ascii_of_nat 34)
              (String c1 (String c2 (String c3 (String (ascii_of_nat 34) EmptyString)))))
           ++ (String " " q
               ++ ("value=" ++ String (ascii_of_nat 34)
                     (v ++ String (ascii_of_nat 34) EmptyString))))
          ++ String ">" tail)%string
    by (cbn; rewrite !append_assoc; cbn; rewrite !append_assoc; reflexivity).
  rewrite greedyStar_app.
  2:{ destruct H1 as [->| ->], H2 as [->| ->], H3 as [->| ->];
        rewrite !allInClass_app; cbn [Spec.allInClass append];
        rewrite ?allInClass_app; cbn [Spec.allInClass append];
        rewrite ?allInClass_app, NC, C; reflexivity. }
  match goal with
  | |- context [Regex.greedyStar ?c ?k ?s] =>
      replace (Regex.greedyStar c k s) with (@None Regex.MatchResult) by reflexivity
  end.
  rewrite retry_app.
  match goal with
  | |- context [Spec.retry ?k (String " " q ++ ?w)%string ?s] =>
      replace (Spec.retry k (String " " q ++ w)%string s) with (@None Regex.MatchResult)
        by (symmetry;
            exact (class_blocked
                     ([Regex.Star RegexStrategy.notClosing]
                      ++ Regex.lit (PATTERN.VALUE_ATTRIBUTE ++ "=" ++ JS.dquote)
                      ++ [Regex.Group RegexStrategy.notQuote] ++ Regex.lit JS.dquote
                      ++ [Regex.Star RegexStrategy.notClosing] ++ Regex.lit ">")
                     q v cap tail N V))
  end.
  rewrite ?append_assoc; cbn [append]; rewrite ?append_assoc; cbn [append].
  destruct H1 as [->| ->], H2 as [->| ->], H3 as [->| ->];
    cbn [Spec.retry append]; apply first_some;
    exact (value_step q v cap tail N V).
Qed.

(** The text of such a structure. *)
Lemma render_blockOf (c1 c2 c3 : ascii) (q v : string) :
  Spec.render (Spec.blockOf (String c1 (String c2 (String c3 EmptyString)))
                 (q ++ PATTERN.VALUE_ATTRIBUTE) v)
  = ("<section data-id=" ++ JS.dquote ++ "92" ++ JS.dquote ++ ">"
     ++ ("<article data-class=" ++ JS.dquote ++ "45" ++ JS.dquote ++ ">"
     ++ ("<div data-tag=" ++ JS.dquote ++ "78" ++ JS.dquote ++ ">"
     ++ ("<b" ++ (" class=" ++ JS.dquote ++ String c1 (String c2 (String c3 EmptyString))
                  ++ JS.dquote ++ " " ++ q ++ "value=" ++ JS.dquote ++ v ++ JS.dquote
                  ++ ">" ++ Spec.blockTail)))))%string.
Proof. cbn. rewrite !append_assoc. cbn. rewrite !append_assoc. reflexivity. Qed.

(** The whole pattern, at the head of such a structure, matches up to the
    end of the innermost opening tag and captures the value. *)
Lemma block_match (cls q v tail : string) :
  Spec.sameText PATTERN.B_CLASS cls = true ->
  Spec.isName q = true ->
  Spec.quotable v = true ->
  Regex.matchHere true (Regex.source RegexStrategy._buildRegexPattern) None
    (Spec.render (Spec.blockOf cls (q ++ PATTERN.VALUE_ATTRIBUTE) v) ++ tail)%string
  = Some (Some v, (Spec.blockTail ++ tail)%string).
Proof.
  intros S N V. destruct (sameText_ref cls S) as (c1 & c2 & c3 & -> & H1 & H2 & H3).
  change (Regex.source RegexStrategy._buildRegexPattern)
    with (RegexStrategy.sectionPattern
          ++ (RegexStrategy.articlePattern
          ++ (RegexStrategy.divPattern
          ++ (Regex.LazyStar Regex.AnyChar :: Regex.lit "<b"
          ++ ([Regex.Star RegexStrategy.notClosing] ++ Regex.lit Spec.classText
              ++ [Regex.Star RegexStrategy.notClosing]
              ++ Regex.lit (PATTERN.VALUE_ATTRIBUTE ++ "=" ++ JS.dquote)
              ++ [Regex.Group RegexStrategy.notQuote] ++ Regex.lit JS.dquote
              ++ [Regex.Star RegexStrategy.notClosing] ++ Regex.lit ">"))))).
  rewrite render_blockOf, !append_assoc.
  apply section_step, article_step, div_step, lazy_first.
  cbn [Regex.lit app Regex.matchHere append].
  replace (Regex.sameChar true "<" "<") with true by reflexivity.
  replace (Regex.sameChar true "b" "b") with true by reflexivity.
  rewrite ?append_assoc.
  exact (class_step c1 c2 c3 q v None (Spec.blockTail ++ tail) H1 H2 H3 N V).
Qed.

Lemma concat_empty_cons (x : string) (l : list string) :
  String.concat EmptyString (x :: l) = (x ++ String.concat EmptyString l)%string.
Proof.
  destruct l as [|y l]; [simpl; rewrite append_empty_r; reflexivity | reflexivity].
Qed.

Lemma written_text_cons (quirks : bool) (cls name v : string) (vs : list string) :
  Spec.renderDocument (Spec.written quirks cls name (v :: vs))
  = (Spec.render (Spec.blockOf cls name v)
     ++ Spec.renderDocument (Spec.written quirks cls name vs))%string.
Proof.
  unfold Spec.renderDocument, Spec.written. cbn [DOM.documentNodes map].
  apply concat_empty_cons.
Qed.

Lemma search_here (re : Regex.RegExp) (s : string) (g : option string) (rest : string) :
  Regex.matchHere (Regex.ignoreCase re) (Regex.source re) None s = Some (g, rest) ->
  Regex.search re s = Some (EmptyString, g, rest).
Proof. intros H. destruct s; simpl; rewrite H; reflexivity. Qed.

(** Nothing matches inside the closing tags of a structure. *)
Lemma search_after_block (s : string) :
  Regex.search RegexStrategy._buildRegexPattern (Spec.blockTail ++ s) =
  match Regex.search RegexStrategy._buildRegexPattern s with
  | Some (skipped, g, rest) => Some ((Spec.blockTail ++ skipped)%string, g, rest)
  | None => None
  end.
Proof.
  cbn [Spec.blockTail append Regex.search].
  destruct (Regex.search RegexStrategy._buildRegexPattern s) as [[[sk g] r]|];
    reflexivity.
Qed.

Lemma execLoop_step (re : Regex.RegExp) (s skipped : string) (g : option string)
  (rest : string) :
  Regex.search re s = Some (skipped, g, rest) ->
  String.length rest < String.length s ->
  Regex.execLoop re s =
  match Regex.execLoop re rest with
  | Some found => Some (g :: found)
  | None => None
  end.
Proof.
  intros S L. funelim (Regex.execLoop re s).
  - congruence.
  - assert (E : Some (s1, cap, rest0) = Some (skipped, g, rest)) by congruence.
    inversion E; subst. reflexivity.
  - assert (E : Some (s1, cap, rest0) = Some (skipped, g, rest)) by congruence.
    inversion E; subst. contradiction.
Qed.

Lemma execLoop_stop (re : Regex.RegExp) (s : string) :
  Regex.search re s = None -> Regex.execLoop re s = Some [].
Proof.
  intros S. funelim (Regex.execLoop re s); [reflexivity | congruence | congruence].
Qed.

Lemma block_longer (cls name v : string) :
  String.length Spec.blockTail < String.length (Spec.render (Spec.blockOf cls name v)).
Proof. cbn. rewrite !length_append. cbn. rewrite !length_append. cbn. lia. Qed.

(** On the text of a document made of structures written side by side,
    each with its class attribute, ref in whatever case, before an
    attribute whose name ends with value, the loop of the regular expression
    finds what these attributes hold, one string for each structure, in
    order. *)
Lemma regex_written (quirks : bool) (cls q : string) (vs : list string) :
  Spec.sameText PATTERN.B_CLASS cls = true ->
  Spec.isName q = true ->
  Forall (fun v => Spec.quotable v = true) vs ->
  Regex.execLoop RegexStrategy._buildRegexPattern
    (Spec.renderDocument (Spec.written quirks cls (q ++ PATTERN.VALUE_ATTRIBUTE) vs))
  = Some (map Some vs)
  /\
  Regex.execLoop RegexStrategy._buildRegexPattern
    (Spec.blockTail
     ++ Spec.renderDocument (Spec.written quirks cls (q ++ PATTERN.VALUE_ATTRIBUTE) vs))
  = Some (map Some vs).
Proof.
  intros S N. induction vs as [|v vs IH]; intros H.
  - split; apply execLoop_stop; reflexivity.
  - inversion H as [|? ? Hv Hvs]; subst. destruct (IH Hvs) as [_ IH2].
    pose proof (block_match cls q v
                  (Spec.renderDocument
                     (Spec.written quirks cls (q ++ PATTERN.VALUE_ATTRIBUTE) vs)) S N Hv) as M.
    rewrite <- written_text_cons in M.
    pose proof (search_here RegexStrategy._buildRegexPattern _ _ _ M) as Sr.
    assert (L : String.length
                  (Spec.blockTail
                   ++ Spec.renderDocument
                        (Spec.written quirks cls (q ++ PATTERN.VALUE_ATTRIBUTE) vs))
                < String.length
                    (Spec.renderDocument
                       (Spec.written quirks cls (q ++ PATTERN.VALUE_ATTRIBUTE) (v :: vs)))).
    { rewrite written_text_cons, !length_append.
      pose proof (block_longer cls (q ++ PATTERN.VALUE_ATTRIBUTE) v). lia. }
    split.
    + rewrite (execLoop_step _ _ _ _ _ Sr L), IH2. reflexivity.
    + assert (S' : Regex.search RegexStrategy._buildRegexPattern
                     (Spec.blockTail
                      ++ Spec.renderDocument
                           (Spec.written quirks cls (q ++ PATTERN.VALUE_ATTRIBUTE) (v :: vs)))
                   = Some ((Spec.blockTail ++ EmptyString)%string, Some v,
                           (Spec.blockTail
                            ++ Spec.renderDocument
                                 (Spec.written quirks cls (q ++ PATTERN.VALUE_ATTRIBUTE) vs))%string)).
      { rewrite search_after_block, Sr. reflexivity. }
      rewrite (execLoop_step _ _ _ _ _ S'), IH2; [reflexivity|].
      rewrite (length_append Spec.blockTail
                 (Spec.renderDocument
                    (Spec.written quirks cls (q ++ PATTERN.VALUE_ATTRIBUTE) (v :: vs)))).
      lia.
Qed.

(** ** Structures laid out with text between their tags *)




















(** ** What the group of the regular expression captures *)










Lemma plain_elements (quirks : bool) (vs : list string) (n : DOM.Node) :
  In n (DOM.documentElements (Spec.plainDocument quirks vs)) ->
  exists v, In n (DOM.subtree (Spec.block v)).
Proof.
  unfold DOM.documentElements, Spec.plainDocument. cbn [DOM.documentNodes].
  intros H. apply in_flat_map in H. destruct H as (k & Hk & Hn).
  apply in_map_iff in Hk. destruct Hk as (v & <- & _). exists v. exact Hn.
Qed.

Lemma plain_unnested (quirks : bool) (vs : list string) :
  Spec.unnested Spec.isSection (Spec.plainDocument quirks vs) /\
  Spec.unnested Spec.isArticle (Spec.plainDocument quirks vs) /\
  Spec.unnested Spec.isDiv (Spec.plainDocument quirks vs).
Proof.
  repeat split; intros n Hn; apply plain_elements in Hn; destruct Hn as (v & Hn);
    cbn in Hn; destruct Hn as [<-|[<-|[<-|[<-|[]]]]]; intros T; try discriminate T;
    intros m Hm; cbn in Hm;
    repeat (destruct Hm as [<-|Hm]; [reflexivity|]); destruct Hm.
Qed.

Lemma plain_exactClasses (quirks : bool) (vs : list string) :
  Spec.exactClasses (Spec.plainDocument quirks vs).
Proof.
  intros n Hn. apply plain_elements in Hn. destruct Hn as (v & Hn).
  cbn in Hn. destruct Hn as [<-|[<-|[<-|[<-|[]]]]]; intros B; try discriminate B.
  intros _. reflexivity.
Qed.

Lemma plain_namespaced (quirks : bool) (vs : list string) :
  Spec.namespaced (Spec.plainDocument quirks vs).
Proof.
  intros n Hn. apply plain_elements in Hn. destruct Hn as (v & Hn).
  cbn in Hn. destruct Hn as [<-|[<-|[<-|[<-|[]]]]]; discriminate.
Qed.

Lemma pushed_all (vs : list string) : map Spec.pushed (map Some vs) = vs.
Proof. rewrite map_map. cbn [Spec.pushed]. apply map_id. Qed.

(** ** Trees without the empty namespace *)

Lemma xmlStructuresIn_namespaced (n : DOM.Node) :
  forall (uri : string) (ancestors : list (string * DOM.Node)),
  uri <> EmptyString ->
  (forall m, In m (DOM.subtree n) -> DOM.getAttribute m "xmlns" <> Some EmptyString) ->
  Spec.xmlStructuresIn uri ancestors n = [].
Proof.
  induction n as [name attrs kids IH|data] using Node_induction; intros uri anc U H;
    [|reflexivity].
  cbn [Spec.xmlStructuresIn].
  assert (U' : XMLDOM.namespaceURI uri (DOM.Element name attrs kids) <> EmptyString).
  { unfold XMLDOM.namespaceURI.
    destruct (DOM.getAttribute (DOM.Element name attrs kids) "xmlns") as [u|] eqn:A;
      [|exact U].
    intros ->. apply (H _ (or_introl eq_refl)). exact A. }
  unfold Spec.bare at 1. cbn [fst snd].
  destruct (String.eqb_spec (XMLDOM.namespaceURI uri (DOM.Element name attrs kids))
              EmptyString) as [E|_]; [contradiction|].
  cbn [andb app]. apply flat_map_nil. intros k Hk.
  rewrite Forall_forall in IH. apply (IH k Hk); [exact U'|].
  intros m Hm. apply H. cbn [DOM.subtree]. right.
  apply in_flat_map. exists k. auto.
Qed.

(** On a tree in which no element declares the empty namespace, every
    element lies in some namespace and the expression selects nothing. *)
Lemma xpath_selects_nothing (doc : DOM.Document) :
  Spec.namespaced doc ->
  XPath.select XPathStrategy._buildXPathExpression doc = [].
Proof.
  intros H. rewrite xpath_select_structures. unfold Spec.xmlStructures.
  apply flat_map_nil. intros n Hn.
  apply xmlStructuresIn_namespaced; [discriminate|].
  intros m Hm. apply H. unfold DOM.documentElements.
  apply in_flat_map. exists n. auto.
Qed.

(** ** The elements that the JSDOM strategy visits *)

Lemma jsdom_visited_iff (doc : DOM.Document) (n : DOM.Node) :
  In n (Spec.jsdomVisited doc) <->
  exists s a d,
    In s (DOM.documentElements doc) /\ Spec.isSection s = true /\
    In a (DOM.descendants s) /\ Spec.isArticle a = true /\
    In d (DOM.descendants a) /\ Spec.isDiv d = true /\
    In n (DOM.descendants d) /\ Spec.isElement "b" n = true /\
    existsb (Selector.sameClass (DOM.quirksMode doc) PATTERN.B_CLASS) (Selector.classList n)
    = true /\
    DOM.getAttribute n PATTERN.VALUE_ATTRIBUTE <> None.
Proof.
  unfold Spec.jsdomVisited, Selector.querySelectorAll, Selector.querySelectorAllIn.
  cbv zeta. split.
  - intros H.
    apply in_flat_map in H. destruct H as (s & Hs & H).
    apply in_flat_map in H. destruct H as (a & Ha & H).
    apply in_flat_map in H. destruct H as (d & Hd & H).
    apply filter_In in Hs, Ha, Hd, H.
    destruct Hs as [Hs Ms], Ha as [Ha Ma], Hd as [Hd Md], H as [H M].
    rewrite matches_section in Ms. rewrite matches_article in Ma.
    rewrite matches_div in Md. rewrite matches_b in M.
    apply andb_prop in M. destruct M as [M V]. apply andb_prop in M. destruct M as [B C].
    exists s, a, d. repeat (split; [assumption|]).
    destruct (DOM.getAttribute n PATTERN.VALUE_ATTRIBUTE); [discriminate | discriminate].
  - intros (s & a & d & Hs & Ms & Ha & Ma & Hd & Md & H & B & C & V).
    apply in_flat_map. exists s. split.
    { apply filter_In. rewrite matches_section. auto. }
    apply in_flat_map. exists a. split.
    { apply filter_In. rewrite matches_article. auto. }
    apply in_flat_map. exists d. split.
    { apply filter_In. rewrite matches_div. auto. }
    apply filter_In. split; [exact H|].
    rewrite matches_b, B, C.
    destruct (DOM.getAttribute n PATTERN.VALUE_ATTRIBUTE); [reflexivity | contradiction].
Qed.

(** The required class is one of the classes of an element whose [class]
    attribute starts with it and goes on with white space. *)
Lemma first_class (quirks : bool) (n : DOM.Node) (c : ascii) (rest : string) :
  Selector.isAsciiWhitespace c = true ->
  DOM.getAttribute n "class" = Some (PATTERN.B_CLASS ++ String c rest)%string ->
  existsb (Selector.sameClass quirks PATTERN.B_CLASS) (Selector.classList n) = true.
Proof.
  intros W H. unfold Selector.classList. rewrite H.
  cbn [PATTERN.B_CLASS append Selector.splitTokens].
  replace (Selector.isAsciiWhitespace "r") with false by reflexivity.
  replace (Selector.isAsciiWhitespace "e") with false by reflexivity.
  replace (Selector.isAsciiWhitespace "f") with false by reflexivity.
  rewrite W. cbn [append existsb]. destruct quirks; reflexivity.
Qed.





(** ** Structures whose innermost element has no [value] attribute *)



(** ** The class of the innermost element *)

(** On a structure whose innermost element has the class reference, the
    three strategies return nothing. *)
Lemma reference_is_not_ref :
  fst (@XPathStrategy.extract (Fixtures.parsing Fixtures.referenceClass) Fixtures.xpathStrategy
         (Spec.renderDocument Fixtures.referenceClass) []) = Return [] /\
  fst (@JSDOMStrategy.extract (Fixtures.parsing Fixtures.referenceClass) Fixtures.jsdomStrategy
         (Spec.renderDocument Fixtures.referenceClass) []) = Return [] /\
  fst (RegexStrategy.extract Fixtures.regexStrategy
         (Spec.renderDocument Fixtures.referenceClass) []) = Return [].
Proof. vm_compute. repeat split. Qed.

(** C4, as stated, at a structure whose innermost element has the two
    classes ref and bold, and at one whose class is written REF: the class
    attribute is not the exact string ref, no element counts as a matching
    structure, and yet the JSDOM strategy returns the value of the first and
    the Regex strategy the value of the second. *)
Lemma C4_counterexample :
  Spec.values Fixtures.twoClasses = [] /\
  fst (@JSDOMStrategy.extract (Fixtures.parsing Fixtures.twoClasses) Fixtures.jsdomStrategy
         (Spec.renderDocument Fixtures.twoClasses) []) = Return ["x"] /\
  Spec.values Fixtures.upperClass = [] /\
  fst (RegexStrategy.extract Fixtures.regexStrategy
         (Spec.renderDocument Fixtures.upperClass) []) = Return ["x"].
Proof. vm_compute. repeat split. Qed.

(** C4, amended.  The XPath strategy selects a [b] element only when its
    [class] attribute is exactly ref.  The JSDOM strategy visits exactly the
    [b] elements that have a [value] attribute and have ref among their
    classes, that is among the tokens of their [class] attribute separated
    by white space (compared without regard to the case of ASCII letters in
    a quirks-mode document), and that lie in a matching div in a matching
    article in a matching section: an element whose [class] attribute is ref,
    white space and more is one of them.  Neither takes an element whose
    [class] attribute is reference.  The Regex strategy finds something only
    in a text where the attribute is written class, equals sign, ref between
    double quotes, in any case of the letters, and on the text of plain
    structures whose class is ref in whatever case it returns the values of
    all of them. *)
Theorem C4_class_of_matched_b (doc : DOM.Document) :
  (forall n, In n (XPath.select XPathStrategy._buildXPathExpression doc) ->
     Spec.isElement "b" n = true /\ DOM.getAttribute n "class" = Some "ref")
  /\
  (forall n, In n (Spec.jsdomVisited doc) <->
     exists s a d,
       In s (DOM.documentElements doc) /\ Spec.isSection s = true /\
       In a (DOM.descendants s) /\ Spec.isArticle a = true /\
       In d (DOM.descendants a) /\ Spec.isDiv d = true /\
       In n (DOM.descendants d) /\ Spec.isElement "b" n = true /\
       existsb (Selector.sameClass (DOM.quirksMode doc) "ref") (Selector.classList n) = true /\
       DOM.getAttribute n "value" <> None)
  /\
  (forall n c rest,
     Selector.isAsciiWhitespace c = true ->
     DOM.getAttribute n "class" = Some ("ref" ++ String c rest)%string ->
     existsb (Selector.sameClass (DOM.quirksMode doc) "ref") (Selector.classList n) = true)
  /\
  (forall n, DOM.getAttribute n "class" = Some "reference" ->
     ~ In n (XPath.select XPathStrategy._buildXPathExpression doc) /\
     ~ In n (Spec.jsdomVisited doc))
  /\
  (forall html found,
     Regex.execLoop RegexStrategy._buildRegexPattern html = Some found ->
     found <> [] ->
     Spec.includesIgnoringCase Spec.classText html = true)
  /\
  (forall (this : RegexStrategy.t) (quirks : bool) (cls : string) (vs : list string),
     Spec.sameText "ref" cls = true ->
     Forall (fun v => Spec.quotable v = true) vs ->
     quietly
       (RegexStrategy.extract this (Spec.renderDocument (Spec.written quirks cls "value" vs)))
       vs).
Proof.
  assert (X : forall n, In n (XPath.select XPathStrategy._buildXPathExpression doc) ->
     Spec.isElement "b" n = true /\ DOM.getAttribute n "class" = Some "ref").
  { intros n H. apply xpath_selects_ref in H. unfold Spec.isRefB in H.
    apply andb_prop in H. destruct H as [B C]. split; [exact B|].
    unfold Spec.attributeIs in C.
    destruct (DOM.getAttribute n "class") as [c|]; [|discriminate].
    apply String.eqb_eq in C. subst c. reflexivity. }
  split; [exact X|]. split; [exact (jsdom_visited_iff doc)|].
  split; [intros n c rest; apply first_class|]. split; [|split].
  - intros n R. split.
    + intros H. apply X in H. destruct H as [_ H]. rewrite R in H. discriminate.
    + intros H. apply jsdom_visited_iff in H.
      destruct H as (s & a & d & _ & _ & _ & _ & _ & _ & _ & _ & H & _).
      rewrite (classList_reference n _ R) in H. discriminate.
  - intros html found E N. destruct found as [|g found]; [contradiction|].
    apply execLoop_first in E. destruct E as (skipped & rest & S).
    apply (search_invariant RegexStrategy._buildRegexPattern
             (fun s _ => Spec.includesIgnoringCase Spec.classText s = true)) in S;
      [exact S | intros; apply includesIgnoringCase_extends; assumption |].
    intros s r M.
    apply (matchHere_literal Spec.classText
             ([Regex.Star RegexStrategy.notClosing]
              ++ Regex.lit (PATTERN.VALUE_ATTRIBUTE ++ "=" ++ JS.dquote)
              ++ [Regex.Group RegexStrategy.notQuote] ++ Regex.lit JS.dquote
              ++ [Regex.Star RegexStrategy.notClosing] ++ Regex.lit ">")
             (RegexStrategy.sectionPattern ++ RegexStrategy.articlePattern
              ++ RegexStrategy.divPattern
              ++ Regex.LazyStar Regex.AnyChar :: Regex.lit "<b"
              ++ [Regex.Star RegexStrategy.notClosing]) None s r).
    exact M.
  - intros this quirks cls vs S V.
    rewrite <- (pushed_all vs) at 2.
    apply regex_extract_returns.
    exact (proj1 (regex_written quirks cls EmptyString vs S eq_refl V)).
Qed.

(** C4 at the structure whose innermost element has the classes ref and
    bold, which the JSDOM strategy visits, and at the structure whose class
    is written REF, whose value the Regex strategy returns. *)
Lemma C4_class_of_matched_b_witness :
  In (DOM.Element "b" [("class", "ref bold"); ("value", "x")] [])
     (Spec.jsdomVisited Fixtures.twoClasses) /\
  quietly (RegexStrategy.extract Fixtures.regexStrategy
             (Spec.renderDocument Fixtures.upperClass)) ["x"].
Proof.
  destruct (C4_class_of_matched_b Fixtures.twoClasses) as (_ & J & T & _ & _ & R).
  split.
  - apply J.
    exists (Spec.blockWith "ref bold" "x"),
      (DOM.Element "article" [("data-class", "45")]
         [DOM.Element "div" [("data-tag", "78")]
            [DOM.Element "b" [("class", "ref bold"); ("value", "x")] []]]),
      (DOM.Element "div" [("data-tag", "78")]
         [DOM.Element "b" [("class", "ref bold"); ("value", "x")] []]).
    split; [left; reflexivity|]. split; [reflexivity|].
    split; [left; reflexivity|]. split; [reflexivity|].
    split; [left; reflexivity|]. split; [reflexivity|].
    split; [left; reflexivity|]. split; [reflexivity|].
    split; [|discriminate].
    exact (T (DOM.Element "b" [("class", "ref bold"); ("value", "x")] [])
             " "%char "bold" eq_refl eq_refl).
  - apply (R Fixtures.regexStrategy true "REF" ["x"] eq_refl).
    apply Forall_cons; [reflexivity | apply Forall_nil].
Defined.

(** ** The value of the innermost element *)




(** ** The values in document order *)




(* ===================================================================== *)
(** * Further properties of the sources *)
(* ===================================================================== *)

(** ** HttpClient.fetch, attempt by attempt: what it returns *)

Lemma attempt_needs_url `{P : Platform} (k : nat) (url : string) :
  Spec.attemptFailure k url = None -> urlParses url = true.
Proof.
  unfold Spec.attemptFailure. destruct (urlParses url); [reflexivity | discriminate].
Qed.

(** X1.  When the first [k] attempts of [fetch] fail and the next one
    succeeds, [k] being at most [maxRetries - 1], [fetch] returns the body
    of that attempt after [k + 1] requests and [k] waits of the fixed
    delay. *)
Theorem fetch_returns_after_failures `{P : Platform} (this : HttpClient.t) (url : string)
  (t : Trace) (k : nat)
  (K : k <= HttpClient.maxRetries this - 1)
  (F : forall j, j < k -> Spec.attemptFailure (List.length (requests t) + j) url <> None)
  (S : Spec.attemptFailure (List.length (requests t) + k) url = None) :
  exists t' message data,
    network (List.length (requests t) + k) url = HttpResponse 200 message data /\
    HttpClient.fetch this url 0 t = (Return data, t') /\
    requests t' = requests t ++ repeat url (k + 1) /\
    delays t' = delays t ++ repeat (HttpClient.retryDelay this) k.
Proof.
  pose proof (attempt_needs_url _ _ S) as U.
  destruct (fetch_run this url U (HttpClient.maxRetries this - 1) 0 t ltac:(lia))
    as (k' & t' & K' & F' & R & D & _ & O).
  assert (k' = k) as ->.
  { destruct (Nat.lt_trichotomy k' k) as [L|[L|L]]; [|exact L|].
    - exfalso. destruct O as [(m & d & A & _)|(e & -> & _)]; [|lia].
      exact (F k' L A).
    - exfalso. exact (F' k L S). }
  destruct O as [(message & data & _ & N & _ & E)|(e & _ & A & _)];
    [|rewrite S in A; discriminate].
  exists t', message, data. rewrite Nat.add_1_r. auto.
Qed.

Lemma fetch_returns_after_failures_witness :
  exists t',
    @HttpClient.fetch Fixtures.thirdTimeLucky Fixtures.client "https://example.com/" 0 []
    = (Return "<html>ok</html>", t') /\
    requests t' = repeat "https://example.com/" 3 /\
    delays t' = [1000; 1000].
Proof.
  destruct (@fetch_returns_after_failures Fixtures.thirdTimeLucky Fixtures.client
              "https://example.com/" [] 2 ltac:(vm_compute; lia))
    as (t' & message & data & N & E & R & D).
  - intros j Hj. destruct j as [|[|j]]; [vm_compute; discriminate | vm_compute; discriminate | lia].
  - reflexivity.
  - vm_compute in N. inversion N; subst. exists t'. auto.
Defined.


(** X3.  What [fetch] returns is the body of the last request it sent,
    received with the status 200 and holding more than white space: a
    response with any other status, a status of the 2xx range included, is
    never returned. *)
Theorem fetch_returns_checked_body `{P : Platform} (this : HttpClient.t) (url : string)
  (retryCount : nat) (t : Trace) (data : string) (t' : Trace)
  (E : HttpClient.fetch this url retryCount t = (Return data, t')) :
  urlParses url = true /\
  List.length (requests t) < List.length (requests t') /\
  (exists message,
     network (List.length (requests t') - 1) url = HttpResponse 200 message data) /\
  Validator.validateHtml data = Return true.
Proof.
  destruct (urlParses url) eqn:U.
  - destruct (fetch_run this url U (HttpClient.maxRetries this - 1 - retryCount)
                retryCount t eq_refl) as (k & t1 & K & _ & R & D & X & O).
    destruct O as [(message & d & _ & N & V & E')|(e & _ & _ & E')];
      rewrite E in E'; inversion E'; subst.
    rewrite R, length_app, repeat_length.
    replace (List.length (requests t) + S k - 1) with (List.length (requests t) + k) by lia.
    split; [reflexivity|]. split; [lia|]. split; [exists message; exact N | exact V].
  - destruct (fetch_exhausted this url (HttpClient.maxRetries this - 1 - retryCount)
                retryCount t eq_refl) as (t1 & e & E' & _).
    { intros k _. unfold Spec.attemptFailure. rewrite U. discriminate. }
    rewrite E in E'. discriminate.
Qed.

Lemma fetch_returns_checked_body_witness :
  exists message,
    @network Fixtures.thirdTimeLucky 2 "https://example.com/"
    = HttpResponse 200 message "<html>ok</html>".
Proof.
  destruct (@fetch_returns_checked_body Fixtures.thirdTimeLucky Fixtures.client
              "https://example.com/" 0 [] "<html>ok</html>" _ eq_refl)
    as (_ & _ & N & _).
  exact N.
Defined.

(** ** Validator and Logger *)

Lemma trimStart_empty (s : string) :
  JS.trimStart s = EmptyString -> Spec.blank s = true.
Proof.
  induction s as [|c s IH]; simpl; [reflexivity|].
  destruct (JS.isWhiteSpace c); [exact IH | discriminate].
Qed.

Lemma trimStart_head (s : string) (c : ascii) (s' : string) :
  JS.trimStart s = String c s' -> JS.isWhiteSpace c = false.
Proof.
  induction s as [|d s IH]; simpl; [discriminate|].
  destruct (JS.isWhiteSpace d) eqn:W; [exact IH|].
  intros H. inversion H; subst. exact W.
Qed.

Lemma trimEnd_head (c : ascii) (s : string) :
  JS.isWhiteSpace c = false -> JS.trimEnd (String c s) <> EmptyString.
Proof.
  intros W. cbn [JS.trimEnd]. rewrite W.
  destruct (JS.trimEnd s); discriminate.
Qed.

(** X4.  [validateHtml] returns exactly on the strings that hold a
    character that is not white space; on every other string it throws. *)
Theorem validateHtml_accepts (html : string) :
  (Validator.validateHtml html = Return true <-> Spec.blank html = false) /\
  (forall b, Validator.validateHtml html = Return b -> b = true) /\
  Validator.validateHtml html <> Hang.
Proof.
  split; [|split].
  - split.
    + intros V. destruct (Spec.blank html) eqn:B; [|reflexivity].
      rewrite (validateHtml_blank html B) in V. discriminate.
    + intros B. unfold Validator.validateHtml.
      destruct html as [|c s]; [discriminate|].
      unfold JS.trim.
      destruct (JS.trimStart (String c s)) as [|d s'] eqn:T.
      * apply trimStart_empty in T. rewrite T in B. discriminate.
      * apply trimStart_head in T.
        pose proof (trimEnd_head d s' T) as N.
        destruct (JS.trimEnd (String d s')); [contradiction | reflexivity].
  - intros b V. destruct (validateHtml_cases html) as [(e & V')|V']; rewrite V' in V.
    + discriminate.
    + inversion V. reflexivity.
  - destruct (validateHtml_cases html) as [(e & V')|V']; rewrite V'; discriminate.
Qed.

(** X5.  The level of a logger orders what it prints: a line printed at
    some level is printed at every more verbose level, and error lines are
    printed at every level.  [success] does not look at the level: its line
    is printed even by a logger of level ERROR, which prints no warning, no
    information and no debug line. *)
Theorem logger_levels (this : Logger.t) (message : string) (t : Trace) :
  (forall (other : Logger.t) (messageLevel : LogLevel),
     Logger.levels (Logger.level this) <= Logger.levels (Logger.level other) ->
     Logger._shouldLog this messageLevel = true ->
     Logger._shouldLog other messageLevel = true)
  /\
  Logger.error this message t = (Return tt, t ++ [Console "ERROR" message])
  /\
  Logger.success this message t = (Return tt, t ++ [Console "SUCCESS" message])
  /\
  (Logger.level this = ERROR ->
   Logger.warn this message t = (Return tt, t) /\
   Logger.info this message t = (Return tt, t) /\
   Logger.debug this message t = (Return tt, t))
  /\
  (Logger.debug this message t = (Return tt, t ++ [Console "DEBUG" message]) <->
   Logger.level this = DEBUG).
Proof.
  split; [|split; [|split; [|split]]].
  - intros other messageLevel L S. unfold Logger._shouldLog in *.
    apply Nat.leb_le in S. apply Nat.leb_le. lia.
  - unfold Logger.error, Logger._shouldLog. destruct (Logger.level this); reflexivity.
  - reflexivity.
  - intros L. unfold Logger.warn, Logger.info, Logger.debug, Logger._shouldLog.
    rewrite L. repeat split.
  - unfold Logger.debug, Logger._shouldLog. split.
    + destruct (Logger.level this); cbn; unfold ret; intros H; try reflexivity;
        exfalso; inversion H as [H1];
        apply (f_equal (@List.length Event)) in H1;
        rewrite length_app in H1; simpl in H1; lia.
    + intros ->. reflexivity.
Qed.

(** ** HtmlParser.addStrategy *)

(** Only the logger of the parser matters to the loop of [parse]. *)
Lemma parse_loop_withStrategies (this : HtmlParser.t) (l : list ExtractionStrategy.t)
  (html : string) (remaining : list ExtractionStrategy.t) :
  forall (lastError : option string) (t : Trace),
  HtmlParser.parse_loop (Spec.withStrategies this l) html remaining lastError t
  = HtmlParser.parse_loop this html remaining lastError t.
Proof.
  induction remaining as [|s rest IH]; intros le t; [reflexivity|].
  rewrite !parse_loop_cons.
  change (Spec.entering (Spec.withStrategies this l) s t) with (Spec.entering this s t).
  destruct (ExtractionStrategy.extract s html (Spec.entering this s t))
    as [[[|c cs]|e|] t0]; auto.
Qed.

(** A loop that returns does so whatever strategies come after. *)
Lemma parse_loop_more (this : HtmlParser.t) (html : string)
  (l more : list ExtractionStrategy.t) (lastError : option string) (t : Trace)
  (cs : list string) (t' : Trace) :
  HtmlParser.parse_loop this html l lastError t = (Return cs, t') ->
  HtmlParser.parse_loop this html (l ++ more) lastError t = (Return cs, t').
Proof.
  intros H. apply parse_loop_returns in H.
  destruct H as (pre & s & post & le & t1 & t2 & -> & F & X & N & ->).
  apply parse_loop_returns.
  exists pre, s, (post ++ more), le, t1, t2.
  rewrite <- app_assoc. simpl. auto.
Qed.

Lemma parse_returns_valid (this : HtmlParser.t) (html : string) (t : Trace)
  (cs : list string) (t' : Trace) :
  HtmlParser.parse this html t = (Return cs, t') ->
  Validator.validateHtml html = Return true.
Proof.
  intros H. destruct (validateHtml_cases html) as [(e & V)|V]; [|exact V].
  rewrite (parse_invalid this html t e V) in H. discriminate.
Qed.

Lemma parse_added (this : HtmlParser.t) (s : ExtractionStrategy.t) (html : string)
  (t : Trace) :
  Validator.validateHtml html = Return true ->
  HtmlParser.parse (Spec.withStrategies this (HtmlParser.strategies this ++ [s])) html t =
  match HtmlParser.parse_loop this html (HtmlParser.strategies this ++ [s]) None
          (Spec.started this t) with
  | (Throw e, t1) => (Throw e, Spec.failed this t1)
  | r => r
  end.
Proof.
  intros V. rewrite (parse_valid _ _ _ V).
  cbn [Spec.withStrategies HtmlParser.strategies].
  rewrite parse_loop_withStrategies. reflexivity.
Qed.

Lemma addStrategy_returns (this : HtmlParser.t) (s : ExtractionStrategy.t) (t : Trace) :
  exists ev,
    HtmlParser.addStrategy this s t
    = (Return (Spec.withStrategies this (HtmlParser.strategies this ++ [s])), t ++ ev) /\
    silent ev.
Proof.
  unfold HtmlParser.addStrategy.
  destruct (logs_debug (HtmlParser.logger this)
              ("Added strategy: " ++ ExtractionStrategy.getName s)%string t)
    as (ev & E & Sv).
  exists ev. split; [|exact Sv]. unfold bind. rewrite E. reflexivity.
Qed.

Lemma parse_added_keeps (this : HtmlParser.t) (s : ExtractionStrategy.t) (html : string)
  (t0 : Trace) (cs : list string) (t1 : Trace) :
  HtmlParser.parse this html t0 = (Return cs, t1) ->
  HtmlParser.parse (Spec.withStrategies this (HtmlParser.strategies this ++ [s])) html t0
  = (Return cs, t1).
Proof.
  intros H.
  pose proof (parse_returns_valid _ _ _ _ _ H) as V.
  rewrite (parse_valid _ _ _ V) in H. rewrite (parse_added _ _ _ _ V).
  destruct (HtmlParser.parse_loop this html (HtmlParser.strategies this) None
              (Spec.started this t0)) as [[cs0|e0|] t3] eqn:L; try discriminate.
  inversion H; subst.
  rewrite (parse_loop_more _ _ _ [s] _ _ _ _ L). reflexivity.
Qed.

Lemma parse_added_wins (this : HtmlParser.t) (s : ExtractionStrategy.t) (html : string)
  (t0 : Trace) (lastError : option string) (t1 : Trace) (cs : list string) (t2 : Trace) :
  Validator.validateHtml html = Return true ->
  Spec.allFail this html (HtmlParser.strategies this) None (Spec.started this t0)
    = Some (lastError, t1) ->
  ExtractionStrategy.extract s html (Spec.entering this s t1) = (Return cs, t2) ->
  cs <> [] ->
  HtmlParser.parse (Spec.withStrategies this (HtmlParser.strategies this ++ [s])) html t0
  = (Return cs, Spec.reported this s cs t2).
Proof.
  intros V F X N.
  rewrite (parse_added _ _ _ _ V).
  rewrite (parse_loop_skip this html _ [s] None lastError _ t1 F), parse_loop_cons, X.
  destruct cs; [contradiction | reflexivity].
Qed.

(** X6.  [addStrategy] returns the parser with the strategy at the end of
    its list, and sends no request.  The strategy added is the last resort:
    a document on which [parse] returned before the addition gives the same
    characters and the same trace after it, the added strategy not being
    called; and when every earlier strategy fails on a valid document, the
    added strategy is called next and what it returns, if not empty, is
    the result. *)
Theorem addStrategy_last_resort (this : HtmlParser.t) (s : ExtractionStrategy.t)
  (t : Trace) :
  exists this' ev,
    HtmlParser.addStrategy this s t = (Return this', t ++ ev) /\
    silent ev /\
    HtmlParser.strategies this' = HtmlParser.strategies this ++ [s] /\
    (forall html t0 cs t1,
       HtmlParser.parse this html t0 = (Return cs, t1) ->
       HtmlParser.parse this' html t0 = (Return cs, t1)) /\
    (forall html t0 lastError t1 cs t2,
       Validator.validateHtml html = Return true ->
       Spec.allFail this html (HtmlParser.strategies this) None (Spec.started this t0)
         = Some (lastError, t1) ->
       ExtractionStrategy.extract s html (Spec.entering this s t1) = (Return cs, t2) ->
       cs <> [] ->
       HtmlParser.parse this' html t0 = (Return cs, Spec.reported this s cs t2)).
Proof.
  destruct (addStrategy_returns this s t) as (ev & E & Sv).
  exists (Spec.withStrategies this (HtmlParser.strategies this ++ [s])), ev.
  split; [exact E|]. split; [exact Sv|]. split; [reflexivity|]. split.
  - intros html t0 cs t1. apply parse_added_keeps.
  - intros html t0 le t1 cs t2. apply parse_added_wins.
Qed.

(** X7.  A parser made without strategies, as the constructor makes it by
    default, fails on every valid document, with no last error to report;
    once one strategy has been added, [parse] returns what that strategy
    returns whenever it is not empty. *)
Theorem parser_without_strategies (this : HtmlParser.t) (html : string) (t : Trace)
  (N : HtmlParser.strategies this = [])
  (V : Validator.validateHtml html = Return true) :
  HtmlParser.parse this html t
    = (Throw "All extraction strategies failed. Last error: Unknown error",
       Spec.failed this (Spec.started this t))
  /\
  (forall (s : ExtractionStrategy.t) (t0 : Trace) (this' : HtmlParser.t) (t1 : Trace)
          (c : string) (cs : list string) (t2 : Trace),
     HtmlParser.addStrategy this s t0 = (Return this', t1) ->
     ExtractionStrategy.extract s html (Spec.entering this s (Spec.started this t))
       = (Return (c :: cs), t2) ->
     fst (HtmlParser.parse this' html t) = Return (c :: cs)).
Proof.
  split.
  - rewrite (parse_valid _ _ _ V), N. reflexivity.
  - intros s t0 this' t1 c cs t2 A X.
    destruct (addStrategy_returns this s t0) as (ev & E & _).
    rewrite E in A. inversion A; subst this' t1.
    rewrite (parse_added_wins this s html t None (Spec.started this t) (c :: cs) t2 V);
      [reflexivity | rewrite N; reflexivity | exact X | discriminate].
Qed.

Lemma parser_without_strategies_witness :
  fst (HtmlParser.parse (Fixtures.parserOf []) "<html></html>" [])
    = Throw "All extraction strategies failed. Last error: Unknown error".
Proof.
  exact (f_equal fst (proj1 (parser_without_strategies (Fixtures.parserOf [])
                               "<html></html>" [] eq_refl eq_refl))).
Defined.

(** ** UrlExtractor.extract, step by step *)

Section ExtractSteps.

Context `{P : Platform}.
Variable this : UrlExtractor.t.

Lemma fetchHtml_cases (url : string) (t : Trace) :
  UrlExtractor._fetchHtml this url (Spec.pipelineStart this t) =
  match HttpClient.fetch (UrlExtractor.httpClient this) url 0 (Spec.htmlFetchStart this t) with
  | (Return html, t1) =>
      (Return html,
       snd (Logger.success (UrlExtractor.logger this)
              ("HTML fetched: " ++ JS.dec (String.length html) ++ " characters")%string t1))
  | (Throw e, t1) => (Throw ("Failed to fetch HTML: " ++ e)%string, t1)
  | (Hang, t1) => (Hang, t1)
  end.
Proof.
  unfold UrlExtractor._fetchHtml, Spec.htmlFetchStart, Logger.info, Logger.success.
  destruct (Logger._shouldLog (UrlExtractor.logger this) INFO);
    unfold bind, try_catch, emit, ret, throw; cbn [fst snd];
    match goal with
    | |- context [HttpClient.fetch ?c url 0 ?t0] =>
        destruct (HttpClient.fetch c url 0 t0) as [[html|e|] t1]
    end; reflexivity.
Qed.

Lemma extractCharacters_cases (html : string) (t1 : Trace) :
  UrlExtractor._extractCharacters this html
    (snd (Logger.success (UrlExtractor.logger this)
            ("HTML fetched: " ++ JS.dec (String.length html) ++ " characters")%string t1)) =
  match HtmlParser.parse (UrlExtractor.htmlParser this) html (Spec.parseStart this html t1) with
  | (Return cs, t2) =>
      (Return cs,
       snd (Logger.success (UrlExtractor.logger this)
              ("Extracted " ++ JS.dec (List.length cs) ++ " characters")%string t2))
  | (Throw e, t2) => (Throw ("Failed to extract characters: " ++ e)%string, t2)
  | (Hang, t2) => (Hang, t2)
  end.
Proof.
  unfold UrlExtractor._extractCharacters, Spec.parseStart, Logger.info, Logger.success.
  destruct (Logger._shouldLog (UrlExtractor.logger this) INFO);
    unfold bind, try_catch, emit, ret, throw; cbn [fst snd];
    match goal with
    | |- context [HtmlParser.parse ?p html ?t0] =>
        destruct (HtmlParser.parse p html t0) as [[cs|e|] t2]
    end; reflexivity.
Qed.

(** When one of the first two steps throws, [extract] reports it and throws
    the same error. *)
Lemma extract_step_throws (challengeUrl : string) (t : Trace) (e : string) (t1 : Trace) :
  (UrlExtractor._fetchHtml this challengeUrl (Spec.pipelineStart this t) = (Throw e, t1) \/
   exists html t0,
     UrlExtractor._fetchHtml this challengeUrl (Spec.pipelineStart this t) = (Return html, t0) /\
     UrlExtractor._extractCharacters this html t0 = (Throw e, t1)) ->
  UrlExtractor.extract this challengeUrl t = (Throw e, Spec.extractFailed this t1).
Proof.
  unfold Spec.pipelineStart, Spec.extractFailed, UrlExtractor.extract.
  unfold Logger.info, Logger.error.
  change (Logger._shouldLog (UrlExtractor.logger this) ERROR) with true.
  destruct (Logger._shouldLog (UrlExtractor.logger this) INFO);
    unfold try_catch, bind, emit, ret, throw; cbn [snd fst];
    (intros [H1|(html & t0 & H1 & H2)]; rewrite H1; [reflexivity|];
     rewrite H2; reflexivity).
Qed.

End ExtractSteps.

Lemma requests_logged (m : M unit) (t : Trace) :
  logs m -> requests (snd (m t)) = requests t.
Proof.
  intros L. destruct (L t) as (ev & E & (Sr & _ & _)). rewrite E. simpl.
  rewrite requests_app, Sr, app_nil_r. reflexivity.
Qed.

Lemma delays_logged (m : M unit) (t : Trace) :
  logs m -> delays (snd (m t)) = delays t.
Proof.
  intros L. destruct (L t) as (ev & E & (_ & Sd & _)). rewrite E. simpl.
  rewrite delays_app, Sd, app_nil_r. reflexivity.
Qed.

Lemma logs_pipelineStart (this : UrlExtractor.t) :
  logs (Logger.info (UrlExtractor.logger this) (JS.repeat "=" 60) ;;
        Logger.info (UrlExtractor.logger this) "Starting URL extraction process..." ;;
        Logger.info (UrlExtractor.logger this) (JS.repeat "=" 60))%monad.
Proof. repeat apply logs_bind; auto with logs. Qed.

(** [fetch] settles and calls no strategy. *)
Lemma fetch_settles `{P : Platform} (this : HttpClient.t) (url : string)
  (retryCount : nat) (t : Trace) :
  extracts (snd (HttpClient.fetch this url retryCount t)) = extracts t /\
  fst (HttpClient.fetch this url retryCount t) <> Hang.
Proof.
  destruct (urlParses url) eqn:U.
  - destruct (fetch_run this url U (HttpClient.maxRetries this - 1 - retryCount)
                retryCount t eq_refl) as (k & t' & _ & _ & _ & _ & X & O).
    destruct O as [(message & data & _ & _ & _ & E)|(e & _ & _ & E)];
      rewrite E; cbn [fst snd]; split; auto; discriminate.
  - destruct (fetch_exhausted this url (HttpClient.maxRetries this - 1 - retryCount)
                retryCount t eq_refl) as (t' & e & E & _ & _ & _ & X).
    { intros k _. unfold Spec.attemptFailure. rewrite U. discriminate. }
    rewrite E. cbn [fst snd]. split; auto. discriminate.
Qed.

Lemma parse_returns_nonempty (this : HtmlParser.t) (html : string) (t : Trace)
  (cs : list string) (t' : Trace) :
  HtmlParser.parse this html t = (Return cs, t') -> cs <> [].
Proof.
  intros H. pose proof (parse_returns_valid _ _ _ _ _ H) as V.
  rewrite (parse_valid _ _ _ V) in H.
  destruct (HtmlParser.parse_loop this html (HtmlParser.strategies this) None
              (Spec.started this t)) as [[cs0|e0|] t3] eqn:L; try discriminate.
  inversion H; subst. apply parse_loop_returns in L.
  destruct L as (pre & s & post & le & t1 & t2 & _ & _ & _ & N & _). exact N.
Qed.

(** X8.  When the first fetch throws, [extract] throws that error with the
    prefix of the fetch step, after reporting the failure as an error; it
    calls no strategy and sends no further request. *)
Theorem extract_fails_at_fetch `{P : Platform} (this : UrlExtractor.t)
  (challengeUrl : string) (t : Trace) (e : string) (t1 : Trace)
  (F : HttpClient.fetch (UrlExtractor.httpClient this) challengeUrl 0
         (Spec.htmlFetchStart this t) = (Throw e, t1)) :
  UrlExtractor.extract this challengeUrl t
    = (Throw ("Failed to fetch HTML: " ++ e)%string, Spec.extractFailed this t1) /\
  extracts (Spec.extractFailed this t1) = extracts t /\
  requests (Spec.extractFailed this t1) = requests t1 /\
  printed "ERROR" (Spec.extractFailed this t1)
    = printed "ERROR" t1 ++ ["URL extraction failed"%string].
Proof.
  split; [|split; [|split]].
  - apply extract_step_throws. left. rewrite fetchHtml_cases, F. reflexivity.
  - unfold Spec.extractFailed. rewrite extracts_logged by auto with logs.
    pose proof (proj1 (fetch_settles (UrlExtractor.httpClient this) challengeUrl 0
                         (Spec.htmlFetchStart this t))) as X.
    rewrite F in X. cbn [snd] in X. rewrite X.
    unfold Spec.htmlFetchStart. rewrite extracts_logged by auto with logs.
    unfold Spec.pipelineStart. apply extracts_logged, logs_pipelineStart.
  - unfold Spec.extractFailed. apply requests_logged. auto with logs.
  - unfold Spec.extractFailed, Logger.error.
    change (Logger._shouldLog (UrlExtractor.logger this) ERROR) with true.
    unfold emit. cbn [snd]. rewrite printed_app. reflexivity.
Qed.

Lemma extract_fails_at_fetch_witness :
  fst (@UrlExtractor.extract Fixtures.failingServer (Fixtures.extractorOf ["a"])
         "https://example.com/" [])
  = Throw ("Failed to fetch HTML: Failed to fetch URL after 3 attempts: "
           ++ "HTTP 500: Internal Server Error").
Proof.
  exact (f_equal fst (proj1 (@extract_fails_at_fetch Fixtures.failingServer
                               (Fixtures.extractorOf ["a"]) "https://example.com/" []
                               _ _ eq_refl))).
Defined.

(** X9.  When the first fetch returns a page on which [parse] throws,
    [extract] throws that error with the prefix of the extraction step,
    after reporting the failure as an error; nothing is sent or awaited
    after [parse]: no URL is built and no flag is fetched. *)
Theorem extract_fails_at_parse `{P : Platform} (this : UrlExtractor.t)
  (challengeUrl : string) (t : Trace) (html : string) (t1 : Trace)
  (e : string) (t2 : Trace)
  (F : HttpClient.fetch (UrlExtractor.httpClient this) challengeUrl 0
         (Spec.htmlFetchStart this t) = (Return html, t1))
  (X : HtmlParser.parse (UrlExtractor.htmlParser this) html (Spec.parseStart this html t1)
       = (Throw e, t2)) :
  UrlExtractor.extract this challengeUrl t
    = (Throw ("Failed to extract characters: " ++ e)%string, Spec.extractFailed this t2) /\
  requests (Spec.extractFailed this t2) = requests t2 /\
  delays (Spec.extractFailed this t2) = delays t2 /\
  printed "WARN" (Spec.extractFailed this t2) = printed "WARN" t2.
Proof.
  split; [|split; [|split]].
  - apply extract_step_throws. right. do 2 eexists. split.
    + rewrite fetchHtml_cases, F. reflexivity.
    + rewrite extractCharacters_cases, X. reflexivity.
  - unfold Spec.extractFailed. apply requests_logged. auto with logs.
  - unfold Spec.extractFailed. apply delays_logged. auto with logs.
  - unfold Spec.extractFailed, Logger.error.
    change (Logger._shouldLog (UrlExtractor.logger this) ERROR) with true.
    unfold emit. cbn [snd]. rewrite printed_app. apply app_nil_r.
Qed.

Lemma extract_fails_at_parse_witness :
  let r := @UrlExtractor.extract Fixtures.pageServer Fixtures.emptyHanded
             "https://example.com/" [] in
  fst r = Throw ("Failed to extract characters: "
                 ++ "All extraction strategies failed. Last error: Unknown error") /\
  requests (snd r) = ["https://example.com/"].
Proof.
  intros r.
  destruct (@extract_fails_at_parse Fixtures.pageServer Fixtures.emptyHanded
              "https://example.com/" [] _ _ _ _ eq_refl eq_refl) as (E & R & _).
  subst r. rewrite E. cbn [fst snd]. split; [reflexivity|]. rewrite R. reflexivity.
Defined.

(** X10.  Whenever [extract] returns a result, its character sequence is
    not empty, its URL is the characters joined with nothing between them,
    and its count is the number of the characters. *)
Theorem extract_result_invariant `{P : Platform} (this : UrlExtractor.t)
  (challengeUrl : string) (t : Trace) (r : UrlExtractor.Result) (t' : Trace)
  (E : UrlExtractor.extract this challengeUrl t = (Return r, t')) :
  UrlExtractor.characters r <> [] /\
  UrlExtractor.url r = fold_right String.append EmptyString (UrlExtractor.characters r) /\
  UrlExtractor.characterCount r = List.length (UrlExtractor.characters r).
Proof.
  pose proof (fetchHtml_cases this challengeUrl t) as H1.
  destruct (HttpClient.fetch (UrlExtractor.httpClient this) challengeUrl 0
              (Spec.htmlFetchStart this t)) as [[html|e|] t1] eqn:F.
  - pose proof (extractCharacters_cases this html t1) as H2.
    destruct (HtmlParser.parse (UrlExtractor.htmlParser this) html
                (Spec.parseStart this html t1)) as [[cs|e|] t2] eqn:X.
    + rewrite (extract_pipeline this challengeUrl t _ _ _ _ H1 H2) in E.
      destruct (UrlExtractor._fetchFlag this (JS.join cs) _) as [[flag|e|] t3];
        cbn [Spec.finish] in E; try discriminate.
      inversion E; subst. cbn. rewrite <- join_concatenates.
      split; [|split; reflexivity].
      exact (parse_returns_nonempty _ _ _ _ _ X).
    + rewrite (extract_step_throws this challengeUrl t
                 ("Failed to extract characters: " ++ e)%string t2) in E; [discriminate|].
      right. eauto.
    + exfalso. revert E. unfold UrlExtractor.extract, Logger.info.
      revert H1 H2. unfold Spec.pipelineStart, Logger.info.
      destruct (Logger._shouldLog (UrlExtractor.logger this) INFO);
        unfold try_catch, bind, emit, ret, throw; cbn [snd fst];
        intros H1 H2; rewrite H1, H2; discriminate.
  - rewrite (extract_step_throws this challengeUrl t
               ("Failed to fetch HTML: " ++ e)%string t1) in E; [discriminate|].
    left. exact H1.
  - exfalso. pose proof (proj2 (fetch_settles (UrlExtractor.httpClient this) challengeUrl 0
                         (Spec.htmlFetchStart this t))) as S.
    rewrite F in S. apply S. reflexivity.
Qed.

Lemma extract_result_invariant_witness :
  exists r t',
    @UrlExtractor.extract Fixtures.flagServer (Fixtures.extractorOf ["https://"; "f"; "/"])
      "https://example.com/" [] = (Return r, t') /\
    UrlExtractor.url r = "https://f/" /\ UrlExtractor.characterCount r = 3.
Proof.
  destruct (@UrlExtractor.extract Fixtures.flagServer
              (Fixtures.extractorOf ["https://"; "f"; "/"]) "https://example.com/" [])
    as [[r|e|] t'] eqn:E; try (vm_compute in E; discriminate).
  exists r, t'. split; [reflexivity|].
  destruct (@extract_result_invariant Fixtures.flagServer _ _ _ _ _ E) as (_ & U & C).
  rewrite U, C. vm_compute in E. inversion E; subst. split; reflexivity.
Defined.

(** ** The flag *)

Lemma hasClosing_strip (s : string) : forall inside,
  Spec.hasClosing (Spec.strip inside s) = true -> Spec.hasClosing s = true.
Proof.
  induction s as [|c s IH]; intros inside; simpl; [destruct inside; auto|].
  destruct inside.
  - destruct (Ascii.eqb c ">"); [reflexivity|]. apply IH.
  - destruct (Ascii.eqb c "<" && Spec.hasClosing s).
    + intros H. rewrite (IH _ H). apply orb_true_r.
    + simpl. destruct (Ascii.eqb c ">"); [reflexivity|]. apply IH.
Qed.

Lemma hasTag_strip (s : string) : forall inside,
  Spec.hasTag (Spec.strip inside s) = false.
Proof.
  induction s as [|c s IH]; intros inside; simpl; [destruct inside; reflexivity|].
  destruct inside.
  - destruct (Ascii.eqb c ">"); apply IH.
  - destruct (Ascii.eqb c "<" && Spec.hasClosing s) eqn:T; [apply IH|].
    simpl. rewrite IH, orb_false_r.
    destruct (Ascii.eqb c "<"); [|reflexivity]. simpl in *.
    destruct (Spec.hasClosing (Spec.strip false s)) eqn:C; [|reflexivity].
    apply hasClosing_strip in C. rewrite C in T. discriminate.
Qed.

Lemma strip_without_tag (s : string) :
  Spec.hasTag s = false -> Spec.strip false s = s.
Proof.
  induction s as [|c s IH]; simpl; [reflexivity|].
  intros H. apply orb_false_elim in H. destruct H as [H1 H2].
  rewrite H1, (IH H2). reflexivity.
Qed.

Lemma hasClosing_after (v w : string) : Spec.hasClosing (v ++ String ">" w)%string = true.
Proof.
  induction v as [|c v IH]; cbn [String.append Spec.hasClosing]; [reflexivity|].
  rewrite IH. apply orb_true_r.
Qed.

Lemma hasTag_found (u v w : string) :
  Spec.hasTag (u ++ "<" ++ v ++ ">" ++ w)%string = true.
Proof.
  change (Spec.hasTag (u ++ String "<" (v ++ String ">" w))%string = true).
  induction u as [|c u IH]; cbn [String.append Spec.hasTag].
  - rewrite hasClosing_after. reflexivity.
  - rewrite IH. apply orb_true_r.
Qed.

Lemma hasTag_trimStart (s : string) :
  Spec.hasTag (JS.trimStart s) = true -> Spec.hasTag s = true.
Proof.
  induction s as [|c s IH]; simpl; [auto|].
  destruct (JS.isWhiteSpace c); [|auto].
  intros H. rewrite (IH H). apply orb_true_r.
Qed.

Lemma hasClosing_trimEnd (s : string) :
  Spec.hasClosing (JS.trimEnd s) = true -> Spec.hasClosing s = true.
Proof.
  induction s as [|c s IH]; [auto|]. cbn [JS.trimEnd Spec.hasClosing].
  destruct (JS.trimEnd s) as [|d u].
  - destruct (JS.isWhiteSpace c); simpl; [discriminate|].
    rewrite orb_false_r. intros ->. reflexivity.
  - cbn [Spec.hasClosing]. destruct (Ascii.eqb c ">"); [reflexivity|].
    simpl. exact IH.
Qed.

Lemma hasTag_trimEnd (s : string) :
  Spec.hasTag (JS.trimEnd s) = true -> Spec.hasTag s = true.
Proof.
  induction s as [|c s IH]; [auto|]. cbn [JS.trimEnd Spec.hasTag].
  pose proof (hasClosing_trimEnd s) as C.
  destruct (JS.trimEnd s) as [|d u].
  - destruct (JS.isWhiteSpace c); simpl; [discriminate|].
    rewrite andb_false_r. discriminate.
  - cbn [Spec.hasTag] in *. intros H. apply orb_prop in H. destruct H as [H|H].
    + apply andb_prop in H. destruct H as [H1 H2]. rewrite H1, (C H2). reflexivity.
    + rewrite (IH H). apply orb_true_r.
Qed.

Lemma flag_text_clean (R : string) :
  Spec.hasTag (JS.trim (Spec.stripTags R)) = false.
Proof.
  destruct (Spec.hasTag (JS.trim (Spec.stripTags R))) eqn:H; [|reflexivity].
  unfold JS.trim in H. apply hasTag_trimEnd, hasTag_trimStart in H.
  unfold Spec.stripTags in H. rewrite hasTag_strip in H. discriminate.
Qed.

(** X11.  A flag that [_fetchFlag] returns holds no tag: it cannot be cut
    into a text, an opening angle bracket, a text, a closing angle bracket
    and a text.  When the body of the response holds no tag, the flag is
    that body trimmed. *)
Theorem fetchFlag_flag_has_no_tag `{P : Platform} (this : UrlExtractor.t) (url : string)
  (t : Trace) (flag : string) (t' : Trace)
  (E : UrlExtractor._fetchFlag this url t = (Return (Some flag), t')) :
  (forall u v w : string, flag <> (u ++ "<" ++ v ++ ">" ++ w)%string) /\
  (exists R,
     fst (HttpClient.fetch (UrlExtractor.httpClient this) url 0 (Spec.flagFetchStart this t))
       = Return R /\
     (Spec.hasTag R = false -> flag = JS.trim R)).
Proof.
  pose proof (fetchFlag_outcome this url t) as O.
  destruct (HttpClient.fetch (UrlExtractor.httpClient this) url 0 (Spec.flagFetchStart this t))
    as [[R|e|] t1].
  - destruct O as (ev & O & _). rewrite O in E. inversion E; subst. split.
    + intros u v w H. pose proof (flag_text_clean R) as C.
      rewrite H, hasTag_found in C. discriminate.
    + exists R. split; [reflexivity|]. intros T.
      unfold Spec.stripTags. rewrite (strip_without_tag R T). reflexivity.
  - destruct O as (ev & O & _). rewrite O in E. discriminate.
  - rewrite O in E. discriminate.
Qed.

Lemma fetchFlag_flag_has_no_tag_witness :
  fst (@UrlExtractor._fetchFlag Fixtures.flagServer (Fixtures.extractorOf ["x"])
         "https://f/" [Request "https://e/"]) = Return (Some "sunbeam") /\
  forall u v w : string, "sunbeam" <> (u ++ "<" ++ v ++ ">" ++ w)%string.
Proof.
  split; [reflexivity|].
  exact (proj1 (@fetchFlag_flag_has_no_tag Fixtures.flagServer
                  (Fixtures.extractorOf ["x"]) "https://f/" [Request "https://e/"]
                  "sunbeam" _ eq_refl)).
Defined.

(** ** The values of the Regex strategy *)

(** The group collects characters of its class only. *)
Lemma greedyGroup_collects (cls : Regex.CharClass)
  (k : string -> string -> option Regex.MatchResult) (Q : Regex.MatchResult -> Prop) :
  (forall acc s r, Spec.allInClass cls acc = true -> k acc s = Some r -> Q r) ->
  forall s acc r,
  Spec.allInClass cls acc = true -> Regex.greedyGroup cls k acc s = Some r -> Q r.
Proof.
  intros Hk. induction s as [|d s IH]; intros acc r A; cbn [Regex.greedyGroup];
    [apply Hk; exact A|].
  destruct (Regex.inClass cls d) eqn:C; [|apply Hk; exact A].
  destruct (Regex.greedyGroup cls k (acc ++ String d EmptyString) s) as [r'|] eqn:G;
    [|apply Hk; exact A].
  intros H. inversion H; subst. eapply IH; [|exact G].
  rewrite allInClass_app, A. cbn [Spec.allInClass]. rewrite C. reflexivity.
Qed.

Lemma matchHere_group_class (icase : bool) (cls : Regex.CharClass) (p : Regex.Pattern) :
  (forall c, In (Regex.Group c) p -> c = cls) ->
  forall cap s g rest,
  (forall v, cap = Some v -> Spec.allInClass cls v = true) ->
  Regex.matchHere icase p cap s = Some (g, rest) ->
  forall v, g = Some v -> Spec.allInClass cls v = true.
Proof.
  induction p as [|[c|c|c|c] p IH]; intros G cap s g rest C; cbn [Regex.matchHere].
  - intros H. inversion H; subst. exact C.
  - destruct s as [|d s]; [discriminate|].
    destruct (Regex.sameChar icase c d); [|discriminate].
    apply IH; [intros; apply G; right; assumption | exact C].
  - apply (greedyStar_invariant
             (fun _ r => forall v, fst r = Some v -> Spec.allInClass cls v = true));
      [auto|].
    intros s0 [g0 r0] H. cbn [fst]. eapply IH; [|exact C|exact H].
    intros; apply G; right; assumption.
  - apply (lazyStar_invariant
             (fun _ r => forall v, fst r = Some v -> Spec.allInClass cls v = true));
      [auto|].
    intros s0 [g0 r0] H. cbn [fst]. eapply IH; [|exact C|exact H].
    intros; apply G; right; assumption.
  - assert (c = cls) as -> by (apply G; left; reflexivity).
    intros H.
    apply (greedyGroup_collects cls (fun acc => Regex.matchHere icase p (Some acc))
             (fun r => forall v, fst r = Some v -> Spec.allInClass cls v = true))
      with (s := s) (acc := EmptyString) (r := (g, rest)); [|reflexivity|exact H].
    intros acc s0 [g0 r0] A M. cbn [fst]. eapply IH; [| |exact M].
    + intros; apply G; right; assumption.
    + intros v0 E. inversion E; subst. exact A.
Qed.

Lemma notQuote_includes (v : string) :
  Spec.allInClass RegexStrategy.notQuote v = true -> JS.includes JS.dquote v = false.
Proof.
  induction v as [|c v IH]; [reflexivity|].
  cbn [Spec.allInClass]. intros H. apply andb_prop in H. destruct H as [C A].
  cbn [JS.includes]. rewrite (IH A), orb_false_r.
  unfold RegexStrategy.notQuote, Regex.inClass in C.
  unfold JS.dquote. cbn [String.prefix].
  destruct (ascii_dec (ascii_of_nat 34) c) as [<-|N].
  - rewrite Ascii.eqb_refl in C. discriminate.
  - reflexivity.
Qed.

(** X12.  The Regex strategy returns on every text, and none of the values
    it returns includes a double quote. *)
Theorem regex_values_hold_no_quote (this : RegexStrategy.t) (html : string) (t : Trace) :
  exists cs t',
    RegexStrategy.extract this html t = (Return cs, t') /\
    forall v, In v cs -> JS.includes JS.dquote v = false.
Proof.
  destruct (execLoop_ends RegexStrategy._buildRegexPattern "<"
              (tl (Regex.source RegexStrategy._buildRegexPattern)) eq_refl html)
    as (found & E).
  destruct (regex_extract_returns this html found E t) as (ev & X & _).
  exists (map Spec.pushed found), (t ++ ev). split; [exact X|].
  assert (F : Forall (fun g => forall v, g = Some v ->
                        Spec.allInClass RegexStrategy.notQuote v = true) found).
  { apply (execLoop_all RegexStrategy._buildRegexPattern _) with (s := html); [|exact E].
    intros s skipped g rest S.
    refine (search_invariant RegexStrategy._buildRegexPattern
              (fun _ r => forall v, fst r = Some v ->
                 Spec.allInClass RegexStrategy.notQuote v = true)
              (fun _ _ _ Q => Q) _ s skipped g rest S).
    intros s0 [g0 r0] M. cbn [fst].
    eapply (matchHere_group_class true RegexStrategy.notQuote); [| |exact M].
    - intros c H. cbn in H.
      repeat (destruct H as [H|H]; [try discriminate H; inversion H; reflexivity|]).
      destruct H.
    - discriminate. }
  intros v H. apply in_map_iff in H. destruct H as (g & <- & H).
  rewrite Forall_forall in F. specialize (F g H).
  destruct g as [v|]; [|reflexivity].
  apply notQuote_includes. apply F. reflexivity.
Qed.

(** ** The JSDOM strategy on nested structures *)

Lemma incl_flat_map {A B : Type} (f g : A -> list B) (l : list A) :
  (forall x, In x l -> incl (f x) (g x)) -> incl (flat_map f l) (flat_map g l).
Proof.
  intros H y Hy. apply in_flat_map in Hy. destruct Hy as (x & Hx & Hy).
  apply in_flat_map. exists x. split; [exact Hx | exact (H x Hx y Hy)].
Qed.

Section JsdomCovers.

Variable quirks : bool.

Let innermost : DOM.Node -> bool :=
  Selector.matches quirks (JSDOMStrategy.b JSDOMStrategy._buildSelector).

Let pattern : list (DOM.Node -> bool) := [Spec.isSection; Spec.isArticle; Spec.isDiv].

(** The selector of the innermost level takes every element of the pattern
    that has a value. *)
Lemma innermost_covers (k : DOM.Node) :
  incl (flat_map Spec.valueOf (if Spec.isRefB k then [k] else []))
       (flat_map Spec.valueOf (if innermost k then [k] else [])).
Proof.
  unfold innermost. rewrite matches_b. unfold Spec.isRefB.
  destruct (Spec.isElement "b" k); [|apply incl_refl]. simpl.
  destruct (Spec.attributeIs k "class" PATTERN.B_CLASS) eqn:C; [|intros v []].
  assert (E : existsb (Selector.sameClass quirks PATTERN.B_CLASS) (Selector.classList k)
              = true).
  { unfold Spec.attributeIs in C. unfold Selector.classList.
    destruct (DOM.getAttribute k "class") as [c|]; [|discriminate].
    apply String.eqb_eq in C. subst c. destruct quirks; reflexivity. }
  rewrite E. simpl.
  destruct (DOM.getAttribute k PATTERN.VALUE_ATTRIBUTE) eqn:V; simpl;
    unfold Spec.valueOf; rewrite V; apply incl_refl.
Qed.

Lemma filter_subtree (t : DOM.Node -> bool) name attrs kids :
  filter t (DOM.subtree (DOM.Element name attrs kids))
  = (if t (DOM.Element name attrs kids) then [DOM.Element name attrs kids] else [])
    ++ filter t (flat_map DOM.subtree kids).
Proof.
  cbn [DOM.subtree filter]. destruct (t (DOM.Element name attrs kids)); reflexivity.
Qed.

(** Whatever the nesting, the loops from a level on push the values of the
    matching structures of a subtree whose ancestors meet the tests of the
    levels before, and of no level after. *)
Lemma structuresIn_covered (todo : list (DOM.Node -> bool)) :
  forall (done : list (DOM.Node -> bool)),
  done ++ todo = pattern ->
  forall (k : DOM.Node) (ancestors : list DOM.Node),
  Spec.enclosed done ancestors = true ->
  match todo with
  | t :: _ => Spec.enclosed (done ++ [t]) ancestors = false
  | [] => True
  end ->
  incl (flat_map Spec.valueOf (Spec.structuresIn ancestors k))
       (Spec.visitedAt todo innermost k).
Proof.
  induction todo as [|t ts IHtodo]; intros done D.
  - rewrite app_nil_r in D. subst done.
    induction k as [name attrs kids IH|data] using Node_induction;
      intros anc E _; [|cbn; intros v []].
    cbn [Spec.structuresIn Spec.visitedAt]. rewrite filter_subtree.
    fold pattern. rewrite E, andb_true_r, !flat_map_app.
    apply incl_app_app; [apply innermost_covers|].
    rewrite filter_flat_map, !flat_map_flat_map.
    apply incl_flat_map. intros k Hk. rewrite Forall_forall in IH.
    apply (IH k Hk); [apply enclosed_more_ancestors; exact E | exact I].
  - induction k as [name attrs kids IH|data] using Node_induction;
      intros anc E F; [|cbn; intros v []].
    assert (Full : Spec.enclosed pattern anc = false).
    { destruct (Spec.enclosed pattern anc) eqn:G; [|reflexivity].
      rewrite <- D in G. change (t :: ts) with ([t] ++ ts) in G.
      rewrite app_assoc in G. apply enclosed_more_tests in G. congruence. }
    cbn [Spec.structuresIn Spec.visitedAt]. rewrite filter_subtree.
    fold pattern. rewrite Full, andb_false_r. cbn [app].
    rewrite flat_map_flat_map, flat_map_app.
    pose proof (enclosed_snoc anc done t (DOM.Element name attrs kids)) as Snoc.
    rewrite F, E in Snoc. cbn [orb andb] in Snoc.
    destruct (t (DOM.Element name attrs kids)) eqn:T.
    + apply incl_appl. cbn [flat_map DOM.childNodes]. rewrite app_nil_r.
      apply incl_flat_map. intros k Hk.
      apply (IHtodo (done ++ [t])).
      * rewrite <- app_assoc. exact D.
      * exact Snoc.
      * destruct ts as [|t' ts]; [exact I|].
        rewrite enclosed_snoc. rewrite F, andb_false_l, orb_false_r.
        destruct (Spec.enclosed ((done ++ [t]) ++ [t']) anc) eqn:G; [|reflexivity].
        apply enclosed_more_tests in G. congruence.
    + apply incl_appr. rewrite <- flat_map_filter_subtree.
      apply incl_flat_map. intros k Hk. rewrite Forall_forall in IH.
      apply (IH k Hk); [apply enclosed_more_ancestors; exact E | exact Snoc].
Qed.

(** With exact classes, the loops push values of matching structures
    only. *)
Lemma visitedAt_structures (todo : list (DOM.Node -> bool)) :
  forall (done : list (DOM.Node -> bool)),
  done ++ todo = pattern ->
  forall (k : DOM.Node) (ancestors : list DOM.Node),
  Spec.exactIn quirks k ->
  Spec.enclosed done ancestors = true ->
  incl (Spec.visitedAt todo innermost k)
       (flat_map Spec.valueOf (Spec.structuresIn ancestors k)).
Proof.
  induction todo as [|t ts IHtodo]; intros done D.
  - rewrite app_nil_r in D. subst done.
    induction k as [name attrs kids IH|data] using Node_induction;
      intros anc X E; [|cbn; intros v []].
    cbn [Spec.structuresIn Spec.visitedAt]. rewrite filter_subtree.
    fold pattern. rewrite E, andb_true_r, !flat_map_app.
    apply incl_app_app.
    + rewrite (innermost_value quirks _ (X _ (or_introl eq_refl))). apply incl_refl.
    + rewrite filter_flat_map, !flat_map_flat_map.
      apply incl_flat_map. intros k Hk. rewrite Forall_forall in IH.
      apply (IH k Hk); [eapply exactIn_child; eauto | apply enclosed_more_ancestors; exact E].
  - induction k as [name attrs kids IH|data] using Node_induction;
      intros anc X E; [|cbn; intros v []].
    cbn [Spec.structuresIn Spec.visitedAt]. rewrite filter_subtree.
    rewrite !flat_map_app.
    apply incl_appr. rewrite flat_map_flat_map.
    apply incl_app.
    + destruct (t (DOM.Element name attrs kids)) eqn:T; [|intros v []].
      cbn [flat_map DOM.childNodes]. rewrite app_nil_r.
      apply incl_flat_map. intros k Hk.
      apply (IHtodo (done ++ [t])).
      * rewrite <- app_assoc. exact D.
      * eapply exactIn_child; eauto.
      * rewrite enclosed_snoc, T, E. apply orb_true_r.
    + rewrite <- flat_map_filter_subtree.
      apply incl_flat_map. intros k Hk. rewrite Forall_forall in IH.
      apply (IH k Hk); [eapply exactIn_child; eauto | apply enclosed_more_ancestors; exact E].
Qed.

End JsdomCovers.

Lemma values_covered (doc : DOM.Document) :
  incl (Spec.values doc) (flat_map Spec.valueOf (Spec.jsdomVisited doc)).
Proof.
  rewrite jsdom_visitedAt. unfold Spec.values, Spec.structures.
  rewrite flat_map_flat_map. apply incl_flat_map. intros k Hk.
  apply (structuresIn_covered (DOM.quirksMode doc)
           [Spec.isSection; Spec.isArticle; Spec.isDiv] [] eq_refl k []); reflexivity.
Qed.

Lemma visited_are_values (doc : DOM.Document) :
  Spec.exactClasses doc ->
  incl (flat_map Spec.valueOf (Spec.jsdomVisited doc)) (Spec.values doc).
Proof.
  intros X. rewrite jsdom_visitedAt. unfold Spec.values, Spec.structures.
  rewrite flat_map_flat_map. apply incl_flat_map. intros k Hk.
  apply (visitedAt_structures (DOM.quirksMode doc)
           [Spec.isSection; Spec.isArticle; Spec.isDiv] [] eq_refl k []); [|reflexivity].
  intros m Hm. apply X. unfold DOM.documentElements. apply in_flat_map. exists k. auto.
Qed.

(** X13.  Whatever the nesting of the matching elements, the JSDOM
    strategy returns every value of the matching structures of the tree of
    its parser.  When moreover every [b] element that has ref among its
    classes has ref as its whole [class] attribute, it returns nothing else:
    its output and the values of the matching structures hold the same
    values, and differ only in how often a value is repeated. *)
Theorem jsdom_covers_structures `{P : Platform} (j : JSDOMStrategy.t)
  (html : string) (doc : DOM.Document)
  (HJ : jsdom html = Return doc) :
  exists js,
    quietly (JSDOMStrategy.extract j html) js /\
    incl (Spec.values doc) js /\
    (Spec.exactClasses doc -> incl js (Spec.values doc)).
Proof.
  exists (flat_map Spec.valueOf (Spec.jsdomVisited doc)).
  split; [|split].
  - apply jsdom_extract_returns. exact HJ.
  - apply values_covered.
  - apply visited_are_values.
Qed.

Lemma jsdom_covers_structures_witness :
  exists js,
    fst (@JSDOMStrategy.extract (Fixtures.parsing Fixtures.nestedSections)
           Fixtures.jsdomStrategy (Spec.renderDocument Fixtures.nestedSections) [])
      = Return js /\
    List.length (Spec.values Fixtures.nestedSections) = 2 /\ List.length js = 4 /\
    incl (Spec.values Fixtures.nestedSections) js /\
    incl js (Spec.values Fixtures.nestedSections).
Proof.
  destruct (@jsdom_covers_structures (Fixtures.parsing Fixtures.nestedSections)
              Fixtures.jsdomStrategy
              (Spec.renderDocument Fixtures.nestedSections) Fixtures.nestedSections
              eq_refl) as (js & QJ & I & J).
  destruct (QJ []) as (ev2 & E2 & _).
  exists js. rewrite E2. cbn [fst].
  split; [reflexivity|]. split; [reflexivity|].
  vm_compute in E2. inversion E2; subst.
  split; [reflexivity|]. split; [exact I|].
  apply J. intros n Hn B C.
  cbn in Hn. repeat (destruct Hn as [<-|Hn]; [try discriminate B; reflexivity|]).
  destruct Hn.
Defined.

(** ** index.js: the command line *)

Lemma parseArgs_fold (args : list string) : forall (options : Options),
  let final :=
    fold_left
      (fun options arg =>
         if String.eqb arg "--debug" || String.eqb arg "-d"
         then {| debug := true; help := help options |}
         else if String.eqb arg "--help" || String.eqb arg "-h"
         then {| debug := debug options; help := true |}
         else options)
      args options in
  debug final
    = debug options || existsb (fun a => String.eqb a "--debug" || String.eqb a "-d") args /\
  help final
    = help options || existsb (fun a => String.eqb a "--help" || String.eqb a "-h") args.
Proof.
  induction args as [|a args IH]; intros options; cbn [fold_left existsb].
  - cbv zeta. rewrite !orb_false_r. auto.
  - cbv zeta in *.
    destruct (String.eqb a "--debug" || String.eqb a "-d") eqn:D.
    + assert (H : String.eqb a "--help" || String.eqb a "-h" = false).
      { apply orb_prop in D. destruct D as [D|D]; apply String.eqb_eq in D; subst a;
          reflexivity. }
      rewrite H. destruct (IH {| debug := true; help := help options |}) as [E1 E2].
      rewrite E1, E2. cbn [debug help]. rewrite orb_true_r. auto.
    + destruct (String.eqb a "--help" || String.eqb a "-h") eqn:H.
      * destruct (IH {| debug := debug options; help := true |}) as [E1 E2].
        rewrite E1, E2. cbn [debug help]. rewrite orb_true_r. auto.
      * destruct (IH options) as [E1 E2]. rewrite E1, E2. auto.
Qed.

Lemma existsb_either (x y : string) (args : list string) :
  existsb (fun a => String.eqb a x || String.eqb a y) args = true <->
  In x args \/ In y args.
Proof.
  rewrite existsb_exists. split.
  - intros (a & Ha & E). apply orb_prop in E.
    destruct E as [E|E]; apply String.eqb_eq in E; subst a; auto.
  - intros [H|H]; eexists; (split; [exact H|]); rewrite String.eqb_refl;
      [reflexivity | apply orb_true_r].
Qed.

Lemma parseArgs_help (argv : list string) :
  help (parseArgs argv) = true <-> In "--help" (skipn 2 argv) \/ In "-h" (skipn 2 argv).
Proof.
  unfold parseArgs. cbv zeta.
  rewrite (proj2 (parseArgs_fold (skipn 2 argv) {| debug := false; help := false |})).
  cbn [help orb]. apply existsb_either.
Qed.

Lemma parseArgs_debug (argv : list string) :
  debug (parseArgs argv) = true <-> In "--debug" (skipn 2 argv) \/ In "-d" (skipn 2 argv).
Proof.
  unfold parseArgs. cbv zeta.
  rewrite (proj1 (parseArgs_fold (skipn 2 argv) {| debug := false; help := false |})).
  cbn [debug orb]. apply existsb_either.
Qed.

(** X14.  [parseArgs] looks at the arguments after the first two entries
    of [argv] only: the debug option is set exactly when one of them is
    --debug or -d, the help option exactly when one of them is --help or
    -h, wherever they stand and however often; any other argument is
    ignored. *)
Theorem parseArgs_options (argv : list string) :
  (debug (parseArgs argv) = true <->
   In "--debug" (skipn 2 argv) \/ In "-d" (skipn 2 argv)) /\
  (help (parseArgs argv) = true <->
   In "--help" (skipn 2 argv) \/ In "-h" (skipn 2 argv)) /\
  (forall node script before other after,
     argv = node :: script :: before ++ other :: after ->
     ~ In other ["--debug"; "-d"; "--help"; "-h"] ->
     parseArgs argv = parseArgs (node :: script :: before ++ after)).
Proof.
  split; [apply parseArgs_debug|]. split; [apply parseArgs_help|].
  intros node script before other after -> N.
  unfold parseArgs. cbn [skipn]. cbv zeta.
  rewrite !fold_left_app. cbn [fold_left].
  assert (D : String.eqb other "--debug" || String.eqb other "-d" = false).
  { destruct (String.eqb other "--debug") eqn:E1;
      [apply String.eqb_eq in E1; subst; exfalso; apply N; simpl; auto|].
    destruct (String.eqb other "-d") eqn:E2;
      [apply String.eqb_eq in E2; subst; exfalso; apply N; simpl; auto|].
    reflexivity. }
  assert (H : String.eqb other "--help" || String.eqb other "-h" = false).
  { destruct (String.eqb other "--help") eqn:E1;
      [apply String.eqb_eq in E1; subst; exfalso; apply N; simpl; auto|].
    destruct (String.eqb other "-h") eqn:E2;
      [apply String.eqb_eq in E2; subst; exfalso; apply N; simpl; auto|].
    reflexivity. }
  rewrite D, H. reflexivity.
Qed.

(** ** index.js: the run *)

Section Run.

Context `{P : Platform}.

Lemma run_cases (this : RampCTFSolver.t) (t : Trace) :
  match UrlExtractor.extract (RampCTFSolver.extractor this) CHALLENGE_URL
          (Spec.runStart this t) with
  | (Return r, t1) =>
      exists ev, RampCTFSolver.run this t = (Return (Finished r), t1 ++ ev) /\ silent ev
  | (Throw e, t1) =>
      RampCTFSolver.run this t
      = (Return (Exited 1), t1 ++ [Console "ERROR" "Failed to solve challenge"])
  | (Hang, t1) => RampCTFSolver.run this t = (Hang, t1)
  end.
Proof.
  unfold RampCTFSolver.run, Spec.runStart, Logger.info, Logger.error, Logger.success.
  change (Logger._shouldLog (RampCTFSolver.logger this) ERROR) with true.
  destruct (Logger._shouldLog (RampCTFSolver.logger this) INFO);
    unfold try_catch, bind, emit, ret; cbn [fst snd];
    match goal with
    | |- context [UrlExtractor.extract ?x CHALLENGE_URL ?t0] =>
        destruct (UrlExtractor.extract x CHALLENGE_URL t0) as [[r|e|] t1]
    end; try reflexivity;
    rewrite <- ?app_assoc; eexists; (split; [reflexivity|]);
    repeat split.
Qed.

End Run.

(** X15.  With --help or -h among the arguments, [main] prints the usage
    text and ends the process with status 0: it sends no request, calls no
    strategy and prints nothing else, whatever the other arguments. *)
Theorem main_help `{P : Platform} (argv : list string) (t : Trace)
  (H : In "--help" (skipn 2 argv) \/ In "-h" (skipn 2 argv)) :
  main argv t = (Return (Exited 0), t ++ [Console "LOG" helpText]) /\
  entryPoint argv t = (Return (Exited 0), t ++ [Console "LOG" helpText]).
Proof.
  apply parseArgs_help in H.
  assert (M : main argv t = (Return (Exited 0), t ++ [Console "LOG" helpText])).
  { unfold main. cbv zeta. rewrite H. reflexivity. }
  split; [exact M|]. unfold entryPoint, try_catch. rewrite M. reflexivity.
Qed.

Lemma main_help_witness :
  @main Fixtures.pageServer ["node"; "index.js"; "--debug"; "-h"] []
  = (Return (Exited 0), [Console "LOG" helpText]).
Proof.
  exact (proj1 (@main_help Fixtures.pageServer ["node"; "index.js"; "--debug"; "-h"] []
                  ltac:(simpl; auto))).
Defined.

(** X16.  [main] never throws, so that the handler installed on it at the
    end of the file is never run.  Without the help option the process ends
    with status 1 exactly when [extract] throws, after one error line, and
    [main] returns when [extract] returns. *)
Theorem main_exit_status `{P : Platform} (argv : list string) (t : Trace) :
  let solver := RampCTFSolver.new (if debug (parseArgs argv) then DEBUG else INFO) in
  entryPoint argv t = main argv t /\
  (forall e t', main argv t <> (Throw e, t')) /\
  (help (parseArgs argv) = false ->
   (forall r t1,
      UrlExtractor.extract (RampCTFSolver.extractor solver) CHALLENGE_URL
        (Spec.runStart solver t) = (Return r, t1) ->
      exists ev, main argv t = (Return (Finished tt), t1 ++ ev) /\ silent ev) /\
   (forall e t1,
      UrlExtractor.extract (RampCTFSolver.extractor solver) CHALLENGE_URL
        (Spec.runStart solver t) = (Throw e, t1) ->
      main argv t
      = (Return (Exited 1), t1 ++ [Console "ERROR" "Failed to solve challenge"]))).
Proof.
  intros solver.
  assert (N : forall e t', main argv t <> (Throw e, t')).
  { intros e t'. unfold main. cbv zeta.
    destruct (help (parseArgs argv)); [discriminate|]. fold solver.
    pose proof (run_cases solver t) as R. unfold bind.
    destruct (UrlExtractor.extract (RampCTFSolver.extractor solver) CHALLENGE_URL
                (Spec.runStart solver t)) as [[r|e0|] t1].
    - destruct R as (ev & R & _). rewrite R. discriminate.
    - rewrite R. discriminate.
    - rewrite R. discriminate. }
  split; [|split; [exact N|]].
  - unfold entryPoint, try_catch.
    destruct (main argv t) as [[r|e|] t'] eqn:M; try reflexivity.
    exfalso. exact (N e t' eq_refl).
  - intros H. unfold main. cbv zeta. rewrite H. fold solver.
    pose proof (run_cases solver t) as R. unfold bind. split.
    + intros r t1 E. rewrite E in R. destruct R as (ev & R & S). rewrite R.
      exists ev. split; [reflexivity | exact S].
    + intros e t1 E. rewrite E in R. rewrite R. reflexivity.
Qed.

Lemma main_exit_status_witness :
  fst (@main Fixtures.failingServer ["node"; "index.js"] []) = Return (Exited 1).
Proof.
  destruct (@main_exit_status Fixtures.failingServer ["node"; "index.js"] [])
    as (_ & _ & H).
  destruct (H eq_refl) as [_ F].
  erewrite F by (vm_compute; reflexivity). reflexivity.
Defined.

(** ** The solver, end to end *)

Section Solver.

Context `{P : Platform}.
Variable logLevel : LogLevel.

Let solver : RampCTFSolver.t := RampCTFSolver.new logLevel.
Let extractor : UrlExtractor.t := RampCTFSolver.extractor solver.
Let parser : HtmlParser.t := RampCTFSolver.htmlParser solver.
Let xpathStrategy : XPathStrategy.t := {| XPathStrategy.logger := RampCTFSolver.logger solver |}.
Let jsdomStrategy : JSDOMStrategy.t := {| JSDOMStrategy.logger := RampCTFSolver.logger solver |}.

Lemma xpath_extract_throws (this : XPathStrategy.t) (html e : string) :
  parseFromString html = Throw e ->
  forall t, exists ev,
    XPathStrategy.extract this html t
    = (Throw ("XPath extraction failed: " ++ e)%string, t ++ ev) /\ silent ev.
Proof.
  intros H t. unfold XPathStrategy.extract, Logger.info, Logger.error.
  change (Logger._shouldLog (XPathStrategy.logger this) ERROR) with true.
  rewrite H.
  destruct (Logger._shouldLog (XPathStrategy.logger this) INFO);
    unfold try_catch, bind, lift, emit, ret, throw; cbn [fst snd];
    rewrite <- ?app_assoc; eexists; (split; [reflexivity|]); repeat split.
Qed.

(** The first fetch of the run, when the server answers the first request
    with a valid page. *)
Lemma solver_first_fetch (t : Trace) (message html : string) :
  urlParses CHALLENGE_URL = true ->
  network (List.length (requests t)) CHALLENGE_URL = HttpResponse 200 message html ->
  Validator.validateHtml html = Return true ->
  exists t1,
    HttpClient.fetch (UrlExtractor.httpClient extractor) CHALLENGE_URL 0
      (Spec.htmlFetchStart extractor (Spec.runStart solver t)) = (Return html, t1) /\
    extracts t1 = extracts t.
Proof.
  intros U N V.
  assert (R : requests (Spec.htmlFetchStart extractor (Spec.runStart solver t)) = requests t).
  { unfold Spec.htmlFetchStart. rewrite requests_logged by auto with logs.
    unfold Spec.pipelineStart. rewrite requests_logged by apply logs_pipelineStart.
    unfold Spec.runStart. apply requests_logged.
    repeat apply logs_bind; auto with logs. }
  assert (X : extracts (Spec.htmlFetchStart extractor (Spec.runStart solver t)) = extracts t).
  { unfold Spec.htmlFetchStart. rewrite extracts_logged by auto with logs.
    unfold Spec.pipelineStart. rewrite extracts_logged by apply logs_pipelineStart.
    unfold Spec.runStart. apply extracts_logged.
    repeat apply logs_bind; auto with logs. }
  destruct (fetch_first_attempt (UrlExtractor.httpClient extractor) CHALLENGE_URL 0
              (Spec.htmlFetchStart extractor (Spec.runStart solver t)))
    as (t1 & message' & data & N' & _ & E & _ & _ & X').
  { rewrite R. unfold Spec.attemptFailure. rewrite U, N, V. reflexivity. }
  rewrite R, N in N'. inversion N'; subst.
  exists t1. split; [exact E | congruence].
Qed.

(** From a successful [parse] to the end of [run]. *)
Lemma solver_finishes (t : Trace) (html : string) (t1 : Trace) (cs : list string)
  (t2 : Trace) :
  HttpClient.fetch (UrlExtractor.httpClient extractor) CHALLENGE_URL 0
    (Spec.htmlFetchStart extractor (Spec.runStart solver t)) = (Return html, t1) ->
  HtmlParser.parse parser html (Spec.parseStart extractor html t1) = (Return cs, t2) ->
  exists flag t',
    RampCTFSolver.run solver t = (Return (Finished (Spec.resultOf cs flag)), t') /\
    extracts t' = extracts t2.
Proof.
  intros F X.
  pose proof (fetchHtml_cases extractor CHALLENGE_URL (Spec.runStart solver t)) as H1.
  rewrite F in H1.
  pose proof (extractCharacters_cases extractor html t1) as H2.
  change (UrlExtractor.htmlParser extractor) with parser in H2. rewrite X in H2.
  pose proof (extract_pipeline extractor CHALLENGE_URL _ _ _ _ _ H1 H2) as E.
  destruct (buildUrl_returns extractor cs
              (snd (Logger.success (UrlExtractor.logger extractor)
                      ("Extracted " ++ JS.dec (List.length cs) ++ " characters")%string t2)))
    as (ev1 & B & (_ & _ & S1) & _).
  rewrite B in E. cbn [snd] in E.
  match type of E with context [UrlExtractor._fetchFlag extractor ?u ?t0] =>
    pose proof (fetchFlag_outcome extractor u t0) as O;
    pose proof (fetch_settles (UrlExtractor.httpClient extractor) u 0
                  (Spec.flagFetchStart extractor t0)) as [X3 NH];
    destruct (HttpClient.fetch (UrlExtractor.httpClient extractor) u 0
                (Spec.flagFetchStart extractor t0)) as [[response|e|] t3] eqn:F3;
    [destruct O as (ev2 & O & (_ & _ & S2))
    |destruct O as (ev2 & O & (_ & _ & S2) & _)
    |exfalso; apply NH; reflexivity];
    rewrite O in E; cbn [Spec.finish] in E;
    cbn [snd] in X3;
    assert (X4 : extracts t3 = extracts t2)
      by (rewrite X3; unfold Spec.flagFetchStart;
          rewrite extracts_logged by auto with logs;
          rewrite extracts_app, S1, app_nil_r;
          apply extracts_logged; auto with logs)
  end.
  - pose proof (run_cases solver t) as R.
    change (RampCTFSolver.extractor solver) with extractor in R. rewrite E in R.
    destruct R as (ev & R & (_ & _ & S)).
    do 2 eexists. split; [exact R|].
    rewrite extracts_app, S, app_nil_r.
    rewrite extracts_logged by apply displayResults_logs.
    rewrite extracts_app, S2, app_nil_r. exact X4.
  - pose proof (run_cases solver t) as R.
    change (RampCTFSolver.extractor solver) with extractor in R. rewrite E in R.
    destruct R as (ev & R & (_ & _ & S)).
    do 2 eexists. split; [exact R|].
    rewrite extracts_app, S, app_nil_r.
    rewrite extracts_logged by apply displayResults_logs.
    rewrite extracts_app, S2, app_nil_r. exact X4.
Qed.


Lemma solver_loop_jsdom (html : string) (doc : DOM.Document)
  (lastError : option string) (tx : Trace) :
  jsdom html = Return doc ->
  flat_map Spec.valueOf (Spec.jsdomVisited doc) <> [] ->
  exists t2,
    HtmlParser.parse_loop parser html
      [JSDOMStrategy.strategy jsdomStrategy;
       RegexStrategy.strategy {| RegexStrategy.logger := RampCTFSolver.logger solver |}]
      lastError tx
      = (Return (flat_map Spec.valueOf (Spec.jsdomVisited doc)), t2) /\
    extracts t2 = extracts tx ++ ["JSDOM Strategy"%string].
Proof.
  intros HJ NE. rewrite parse_loop_cons.
  change (ExtractionStrategy.extract (JSDOMStrategy.strategy jsdomStrategy) html)
    with (JSDOMStrategy.extract jsdomStrategy html).
  destruct (jsdom_extract_returns jsdomStrategy html doc HJ
              (Spec.entering parser (JSDOMStrategy.strategy jsdomStrategy) tx))
    as (ev & E & (_ & _ & S)).
  rewrite E.
  destruct (flat_map Spec.valueOf (Spec.jsdomVisited doc)) as [|c cs] eqn:Vs; [contradiction|].
  eexists. split; [reflexivity|].
  unfold Spec.reported. rewrite extracts_logged by auto with logs.
  rewrite extracts_app, S, app_nil_r, extracts_entering. reflexivity.
Qed.

Lemma solver_parse_jsdom (html : string) (doc : DOM.Document) (t : Trace) :
  Validator.validateHtml html = Return true ->
  ((exists e, parseFromString html = Throw e) \/
   (exists d, parseFromString html = Return d /\
              XPath.select XPathStrategy._buildXPathExpression d = [])) ->
  jsdom html = Return doc ->
  flat_map Spec.valueOf (Spec.jsdomVisited doc) <> [] ->
  exists t2,
    HtmlParser.parse parser html t
      = (Return (flat_map Spec.valueOf (Spec.jsdomVisited doc)), t2) /\
    extracts t2 = extracts t ++ ["XPath Strategy"%string; "JSDOM Strategy"%string].
Proof.
  intros V PX HJ NE. rewrite (parse_valid _ _ _ V).
  change (HtmlParser.strategies parser)
    with [XPathStrategy.strategy xpathStrategy; JSDOMStrategy.strategy jsdomStrategy;
          RegexStrategy.strategy {| RegexStrategy.logger := RampCTFSolver.logger solver |}].
  rewrite parse_loop_cons.
  change (ExtractionStrategy.extract (XPathStrategy.strategy xpathStrategy) html)
    with (XPathStrategy.extract xpathStrategy html).
  assert (X0 : extracts (Spec.entering parser (XPathStrategy.strategy xpathStrategy)
                           (Spec.started parser t))
               = extracts t ++ ["XPath Strategy"%string]).
  { rewrite extracts_entering. unfold Spec.started.
    rewrite extracts_logged by auto with logs. reflexivity. }
  destruct PX as [(e & PX)|(d & PX & Vd)].
  - destruct (xpath_extract_throws xpathStrategy html e PX
                (Spec.entering parser (XPathStrategy.strategy xpathStrategy)
                   (Spec.started parser t))) as (ev & E & (_ & _ & S)).
    rewrite E.
    match goal with |- context [HtmlParser.parse_loop parser html _ ?le ?tx] =>
      destruct (solver_loop_jsdom html doc le tx HJ NE) as (t2 & L & X2)
    end.
    rewrite L. exists t2. split; [reflexivity|].
    rewrite X2. unfold Spec.warned. rewrite extracts_logged by auto with logs.
    rewrite extracts_app, S, app_nil_r, X0, <- app_assoc. reflexivity.
  - destruct (xpath_extract_returns xpathStrategy html d PX
                (Spec.entering parser (XPathStrategy.strategy xpathStrategy)
                   (Spec.started parser t))) as (ev & E & (_ & _ & S)).
    rewrite Vd in E. cbn [map] in E. rewrite E.
    match goal with |- context [HtmlParser.parse_loop parser html _ ?le ?tx] =>
      destruct (solver_loop_jsdom html doc le tx HJ NE) as (t2 & L & X2)
    end.
    rewrite L. exists t2. split; [reflexivity|].
    rewrite X2, extracts_app, S, app_nil_r, X0, <- app_assoc. reflexivity.
Qed.

End Solver.

(** X17.  The solver as [index.js] builds it, end to end, on an HTML page.
    When the server answers the first request with a page that holds more
    than white space, the XML parser reads the page as a tree in which no
    element declares the empty namespace, and the tree of the HTML parser
    has matching structures, none of its matching sections, articles and
    divs lying inside another of its kind and every [b] element that has
    ref among its classes having ref as its whole [class] attribute, then
    [run] calls the XPath strategy, which finds nothing, and the JSDOM
    strategy, and returns the values of the matching structures in document
    order as the characters, their concatenation as the URL and their number
    as the count; the Regex strategy is not called. *)
Theorem solver_returns_structure_values `{P : Platform} (logLevel : LogLevel) (t : Trace)
  (message html : string) (dx doc : DOM.Document)
  (U : urlParses CHALLENGE_URL = true)
  (N : network (List.length (requests t)) CHALLENGE_URL = HttpResponse 200 message html)
  (V : Validator.validateHtml html = Return true)
  (PX : parseFromString html = Return dx)
  (NS : Spec.namespaced dx)
  (HJ : jsdom html = Return doc)
  (US : Spec.unnested Spec.isSection doc)
  (UA : Spec.unnested Spec.isArticle doc)
  (UD : Spec.unnested Spec.isDiv doc)
  (XC : Spec.exactClasses doc)
  (NE : Spec.values doc <> []) :
  exists flag t',
    RampCTFSolver.run (RampCTFSolver.new logLevel) t
      = (Return (Finished {| UrlExtractor.url := JS.join (Spec.values doc);
                             UrlExtractor.flag := flag;
                             UrlExtractor.characters := Spec.values doc;
                             UrlExtractor.characterCount := List.length (Spec.values doc) |}),
         t') /\
    extracts t' = extracts t ++ ["XPath Strategy"%string; "JSDOM Strategy"%string].
Proof.
  destruct (solver_first_fetch logLevel t message html U N V) as (t1 & F & X1).
  rewrite <- (jsdom_values doc US UA UD XC) in NE |- *.
  destruct (solver_parse_jsdom logLevel html doc
              (Spec.parseStart (RampCTFSolver.extractor (RampCTFSolver.new logLevel)) html t1)
              V (or_intror (ex_intro _ dx (conj PX (xpath_selects_nothing dx NS)))) HJ NE)
    as (t2 & X & X2).
  destruct (solver_finishes logLevel t html t1 _ t2 F X) as (flag & t' & R & X3).
  exists flag, t'. split; [exact R|].
  rewrite X3, X2. unfold Spec.parseStart.
  rewrite extracts_logged by (apply logs_bind; auto with logs).
  rewrite X1. reflexivity.
Qed.

Lemma solver_returns_structure_values_witness :
  exists t',
    @RampCTFSolver.run (Fixtures.parsing (Spec.plainDocument true ["a"; "b"; "c"]))
      (@RampCTFSolver.new (Fixtures.parsing (Spec.plainDocument true ["a"; "b"; "c"])) INFO) []
    = (Return (Finished {| UrlExtractor.url := "abc";
                           UrlExtractor.flag := None;
                           UrlExtractor.characters := ["a"; "b"; "c"];
                           UrlExtractor.characterCount := 3 |}), t') /\
    extracts t' = ["XPath Strategy"%string; "JSDOM Strategy"%string].
Proof.
  destruct (plain_unnested true ["a"; "b"; "c"]) as (US & UA & UD).
  destruct (@solver_returns_structure_values
              (Fixtures.parsing (Spec.plainDocument true ["a"; "b"; "c"])) INFO []
              "OK" (Spec.renderDocument (Spec.plainDocument true ["a"; "b"; "c"]))
              (Spec.plainDocument true ["a"; "b"; "c"])
              (Spec.plainDocument true ["a"; "b"; "c"])
              eq_refl eq_refl eq_refl eq_refl (plain_namespaced true ["a"; "b"; "c"])
              eq_refl US UA UD (plain_exactClasses true ["a"; "b"; "c"])
              ltac:(vm_compute; discriminate))
    as (flag & t' & R & X).
  exists t'. split; [|exact X].
  rewrite R. vm_compute in R. inversion R; subst. reflexivity.
Defined.

(** X18.  The fallback of the solver.  When the server answers the first
    request with a valid page on which the XPath strategy finds nothing,
    because the XML parser throws or because the path expression selects
    nothing in its tree, and the JSDOM strategy finds values on the tree of
    the HTML parser, [run] returns these values as the characters, with their
    concatenation and their number; the Regex strategy is not called. *)
Theorem solver_falls_back_to_jsdom `{P : Platform} (logLevel : LogLevel) (t : Trace)
  (message html : string) (doc : DOM.Document)
  (U : urlParses CHALLENGE_URL = true)
  (N : network (List.length (requests t)) CHALLENGE_URL = HttpResponse 200 message html)
  (V : Validator.validateHtml html = Return true)
  (PX : (exists e, parseFromString html = Throw e) \/
        (exists d, parseFromString html = Return d /\
                   XPath.select XPathStrategy._buildXPathExpression d = []))
  (HJ : jsdom html = Return doc)
  (NE : flat_map Spec.valueOf (Spec.jsdomVisited doc) <> []) :
  exists flag t',
    RampCTFSolver.run (RampCTFSolver.new logLevel) t
      = (Return (Finished (Spec.resultOf (flat_map Spec.valueOf (Spec.jsdomVisited doc)) flag)),
         t') /\
    extracts t' = extracts t ++ ["XPath Strategy"%string; "JSDOM Strategy"%string].
Proof.
  destruct (solver_first_fetch logLevel t message html U N V) as (t1 & F & X1).
  destruct (solver_parse_jsdom logLevel html doc
              (Spec.parseStart (RampCTFSolver.extractor (RampCTFSolver.new logLevel)) html t1)
              V PX HJ NE) as (t2 & X & X2).
  destruct (solver_finishes logLevel t html t1 _ t2 F X) as (flag & t' & R & X3).
  exists flag, t'. split; [exact R|].
  rewrite X3, X2. unfold Spec.parseStart.
  rewrite extracts_logged by (apply logs_bind; auto with logs).
  rewrite X1. reflexivity.
Qed.

Lemma solver_falls_back_to_jsdom_witness :
  exists t',
    @RampCTFSolver.run (Fixtures.xmlBlind Fixtures.twoClasses)
      (@RampCTFSolver.new (Fixtures.xmlBlind Fixtures.twoClasses) DEBUG) []
    = (Return (Finished {| UrlExtractor.url := "x";
                           UrlExtractor.flag := None;
                           UrlExtractor.characters := ["x"];
                           UrlExtractor.characterCount := 1 |}), t') /\
    extracts t' = ["XPath Strategy"%string; "JSDOM Strategy"%string].
Proof.
  destruct (@solver_falls_back_to_jsdom (Fixtures.xmlBlind Fixtures.twoClasses) DEBUG []
              "OK" (Spec.renderDocument Fixtures.twoClasses) Fixtures.twoClasses
              eq_refl eq_refl eq_refl
              (or_introl (ex_intro _ "not well-formed"%string eq_refl))
              eq_refl ltac:(vm_compute; discriminate))
    as (flag & t' & R & X).
  exists t'. split; [|exact X].
  rewrite R. vm_compute in R. inversion R; subst. reflexivity.
Defined.

(** ** The traffic of a run *)

Lemma offline_ret {A : Type} (a : A) : Spec.offline (ret a).
Proof. intros t. split; reflexivity. Qed.

Lemma offline_throw {A : Type} (e : string) : Spec.offline (@throw A e).
Proof. intros t. split; reflexivity. Qed.

Lemma offline_hang {A : Type} : Spec.offline (@hang A).
Proof. intros t. split; reflexivity. Qed.

Lemma offline_lift {A : Type} (o : Outcome A) : Spec.offline (lift o).
Proof. intros t. split; reflexivity. Qed.

Lemma offline_logs (m : M unit) : logs m -> Spec.offline m.
Proof.
  intros L t. split; [apply requests_logged | apply delays_logged]; exact L.
Qed.

Lemma offline_extract_event (name : string) : Spec.offline (emit (Extract name)).
Proof.
  intros t. unfold emit. cbn [snd]. rewrite requests_app, delays_app. simpl.
  rewrite !app_nil_r. split; reflexivity.
Qed.

Lemma offline_bind {A B : Type} (m : M A) (k : A -> M B) :
  Spec.offline m -> (forall a, Spec.offline (k a)) -> Spec.offline (bind m k).
Proof.
  intros Hm Hk t. unfold bind. destruct (Hm t) as [R D].
  destruct (m t) as [[a|e|] t1]; cbn [snd] in *.
  - destruct (Hk a t1) as [R' D']. rewrite R', D'. auto.
  - auto.
  - auto.
Qed.

Lemma offline_try {A : Type} (m : M A) (h : string -> M A) :
  Spec.offline m -> (forall e, Spec.offline (h e)) -> Spec.offline (try_catch m h).
Proof.
  intros Hm Hh t. unfold try_catch. destruct (Hm t) as [R D].
  destruct (m t) as [[a|e|] t1]; cbn [snd] in *.
  - auto.
  - destruct (Hh e t1) as [R' D']. rewrite R', D'. auto.
  - auto.
Qed.

Lemma offline_forEach {A : Type} (f : A -> nat -> M (list string)) (l : list A) :
  (forall x index, Spec.offline (f x index)) ->
  forall index, Spec.offline (forEach f l index).
Proof.
  intros Hf. induction l as [|x l IH]; intros index; cbn [forEach].
  - apply offline_ret.
  - apply offline_bind; [apply Hf|]. intros pushed.
    apply offline_bind; [apply IH|]. intros later. apply offline_ret.
Qed.

(** Step through a computation made of calls that stay offline. *)
Ltac offline_steps :=
  repeat first
    [ apply offline_ret | apply offline_throw | apply offline_hang | apply offline_lift
    | apply offline_extract_event
    | apply offline_logs; solve [auto with logs]
    | apply offline_try; [|intros ?]
    | apply offline_bind; [|intros ?]
    | apply offline_forEach; intros ? ? ].

Lemma offline_xpath `{P : Platform} (this : XPathStrategy.t) (html : string) :
  Spec.offline (XPathStrategy.extract this html).
Proof.
  unfold XPathStrategy.extract. offline_steps.
  all: unfold XPathStrategy.readValue, XMLDOM.getAttribute;
    destruct (DOM.getAttribute _ PATTERN.VALUE_ATTRIBUTE); offline_steps.
Qed.

Lemma offline_jsdom `{P : Platform} (this : JSDOMStrategy.t) (html : string) :
  Spec.offline (JSDOMStrategy.extract this html).
Proof.
  unfold JSDOMStrategy.extract. offline_steps.
  all: unfold JSDOMStrategy.readValue;
    destruct (DOM.getAttribute _ PATTERN.VALUE_ATTRIBUTE); offline_steps.
Qed.

Lemma offline_regex (this : RegexStrategy.t) (html : string) :
  Spec.offline (RegexStrategy.extract this html).
Proof.
  unfold RegexStrategy.extract. offline_steps.
  all: try (destruct (Regex.execLoop _ html); offline_steps).
  all: try (unfold RegexStrategy.pushMatch; offline_steps).
Qed.

Lemma offline_parse (this : HtmlParser.t) (html : string) :
  Forall (fun s => forall h, Spec.offline (ExtractionStrategy.extract s h))
    (HtmlParser.strategies this) ->
  Spec.offline (HtmlParser.parse this html).
Proof.
  intros Hs. unfold HtmlParser.parse. offline_steps.
  generalize (@None string).
  induction Hs as [|s l Hs _ IH]; intros lastError; cbn [HtmlParser.parse_loop].
  - offline_steps.
  - offline_steps.
    + apply Hs.
    + match goal with |- context [(0 <? ?n)%nat] => destruct (0 <? n)%nat end;
        offline_steps.
    + match goal with a : _ + _ |- _ => destruct a end; [offline_steps | apply IH].
Qed.

Lemma fetch_traffic `{P : Platform} (this : HttpClient.t) (url : string) (t : Trace) :
  exists n m,
    requests (snd (HttpClient.fetch this url 0 t)) = requests t ++ repeat url n /\
    delays (snd (HttpClient.fetch this url 0 t))
      = delays t ++ repeat (HttpClient.retryDelay this) m /\
    n <= Nat.max 1 (HttpClient.maxRetries this) /\
    m <= HttpClient.maxRetries this - 1 /\
    fst (HttpClient.fetch this url 0 t) <> Hang.
Proof.
  destruct (urlParses url) eqn:U.
  - destruct (fetch_run this url U (HttpClient.maxRetries this - 1 - 0) 0 t eq_refl)
      as (k & t' & K & _ & R & D & _ & O).
    exists (S k), k.
    destruct O as [(message & data & _ & _ & _ & E)|(e & _ & _ & E)];
      rewrite E; cbn [fst snd]; repeat split; auto; try lia; discriminate.
  - destruct (fetch_exhausted this url (HttpClient.maxRetries this - 1 - 0) 0 t eq_refl)
      as (t' & e & E & _ & R & D & _).
    { intros k _. unfold Spec.attemptFailure. rewrite U. discriminate. }
    rewrite U in R. exists 0, (HttpClient.maxRetries this - 1 - 0).
    rewrite E. cbn [fst snd]. repeat split; auto; try lia. discriminate.
Qed.

Lemma extract_step_hangs `{P : Platform} (this : UrlExtractor.t) (challengeUrl : string)
  (t : Trace) (html : string) (t0 t1 : Trace) :
  UrlExtractor._fetchHtml this challengeUrl (Spec.pipelineStart this t) = (Return html, t0) ->
  UrlExtractor._extractCharacters this html t0 = (Hang, t1) ->
  UrlExtractor.extract this challengeUrl t = (Hang, t1).
Proof.
  unfold Spec.pipelineStart, UrlExtractor.extract.
  unfold Logger.info, Logger.error.
  destruct (Logger._shouldLog (UrlExtractor.logger this) INFO);
    unfold try_catch, bind, emit, ret, throw; cbn [snd fst];
    intros H1 H2; rewrite H1, H2; reflexivity.
Qed.

(** The requests and the delays of [extract] when the strategies of its
    parser stay offline: those of the first fetch, then those of the
    second. *)
Lemma extract_traffic `{P : Platform} (this : UrlExtractor.t) (challengeUrl : string)
  (t : Trace) :
  Forall (fun s => forall h, Spec.offline (ExtractionStrategy.extract s h))
    (HtmlParser.strategies (UrlExtractor.htmlParser this)) ->
  exists n1 n2 u2 m,
    requests (snd (UrlExtractor.extract this challengeUrl t))
      = requests t ++ repeat challengeUrl n1 ++ repeat u2 n2 /\
    n1 <= Nat.max 1 (HttpClient.maxRetries (UrlExtractor.httpClient this)) /\
    n2 <= Nat.max 1 (HttpClient.maxRetries (UrlExtractor.httpClient this)) /\
    delays (snd (UrlExtractor.extract this challengeUrl t))
      = delays t ++ repeat (HttpClient.retryDelay (UrlExtractor.httpClient this)) m /\
    m <= 2 * (HttpClient.maxRetries (UrlExtractor.httpClient this) - 1).
Proof.
  intros Hs.
  assert (R0 : requests (Spec.htmlFetchStart this t) = requests t).
  { unfold Spec.htmlFetchStart. rewrite requests_logged by auto with logs.
    unfold Spec.pipelineStart. apply requests_logged, logs_pipelineStart. }
  assert (D0 : delays (Spec.htmlFetchStart this t) = delays t).
  { unfold Spec.htmlFetchStart. rewrite delays_logged by auto with logs.
    unfold Spec.pipelineStart. apply delays_logged, logs_pipelineStart. }
  destruct (fetch_traffic (UrlExtractor.httpClient this) challengeUrl
              (Spec.htmlFetchStart this t)) as (n1 & m1 & R1 & D1 & N1 & M1 & NH).
  rewrite R0 in R1. rewrite D0 in D1.
  pose proof (fetchHtml_cases this challengeUrl t) as H1.
  destruct (HttpClient.fetch (UrlExtractor.httpClient this) challengeUrl 0
              (Spec.htmlFetchStart this t)) as [[html|e|] t1] eqn:F;
    cbn [fst snd] in *; [| |exfalso; apply NH; reflexivity].
  - pose proof (extractCharacters_cases this html t1) as H2.
    destruct (offline_parse (UrlExtractor.htmlParser this) html Hs
                (Spec.parseStart this html t1)) as [R2 D2].
    assert (R2' : requests (Spec.parseStart this html t1) = requests t1).
    { unfold Spec.parseStart. apply requests_logged. apply logs_bind; auto with logs. }
    assert (D2' : delays (Spec.parseStart this html t1) = delays t1).
    { unfold Spec.parseStart. apply delays_logged. apply logs_bind; auto with logs. }
    rewrite R2' in R2. rewrite D2' in D2.
    destruct (HtmlParser.parse (UrlExtractor.htmlParser this) html
                (Spec.parseStart this html t1)) as [[cs|e|] t2] eqn:X; cbn [snd] in *.
    + rewrite (extract_pipeline this challengeUrl t _ _ _ _ H1 H2).
      destruct (buildUrl_returns this cs
                  (snd (Logger.success (UrlExtractor.logger this)
                          ("Extracted " ++ JS.dec (List.length cs) ++ " characters")%string
                          t2))) as (ev1 & B & (Sr1 & Sd1 & _) & _).
      rewrite B. cbn [snd].
      match goal with |- context [UrlExtractor._fetchFlag this ?u ?tb] =>
        pose proof (fetchFlag_outcome this u tb) as O;
        destruct (fetch_traffic (UrlExtractor.httpClient this) u
                    (Spec.flagFetchStart this tb)) as (n2 & m2 & R3 & D3 & N2 & M2 & NH2);
        assert (R3' : requests (Spec.flagFetchStart this tb) = requests t1)
          by (unfold Spec.flagFetchStart; rewrite requests_logged by auto with logs;
              rewrite requests_app, Sr1, app_nil_r;
              rewrite requests_logged by auto with logs; exact R2);
        assert (D3' : delays (Spec.flagFetchStart this tb) = delays t1)
          by (unfold Spec.flagFetchStart; rewrite delays_logged by auto with logs;
              rewrite delays_app, Sd1, app_nil_r;
              rewrite delays_logged by auto with logs; exact D2);
        rewrite R3' in R3; rewrite D3' in D3;
        destruct (HttpClient.fetch (UrlExtractor.httpClient this) u 0
                    (Spec.flagFetchStart this tb)) as [[response|e|] t3];
        cbn [fst snd] in *;
        [destruct O as (ev2 & O & (Sr2 & Sd2 & _))
        |destruct O as (ev2 & O & (Sr2 & Sd2 & _) & _)
        |exfalso; apply NH2; reflexivity];
        rewrite O; cbn [Spec.finish snd];
        exists n1, n2, u, (m1 + m2);
        rewrite requests_logged by apply displayResults_logs;
        rewrite delays_logged by apply displayResults_logs;
        rewrite requests_app, delays_app, Sr2, Sd2, !app_nil_r, R3, D3, R1, D1;
        rewrite repeat_app, <- !app_assoc;
        repeat split; auto; lia
      end.
    + rewrite (extract_step_throws this challengeUrl t
                 ("Failed to extract characters: " ++ e)%string t2) by (right; eauto).
      cbn [snd]. unfold Spec.extractFailed.
      rewrite requests_logged, delays_logged by auto with logs.
      exists n1, 0, EmptyString, m1. rewrite R2, D2, R1, D1. simpl. rewrite app_nil_r.
      repeat split; auto; lia.
    + rewrite (extract_step_hangs this challengeUrl t html _ t2 H1 H2). cbn [snd].
      exists n1, 0, EmptyString, m1. rewrite R2, D2, R1, D1. simpl. rewrite app_nil_r.
      repeat split; auto; lia.
  - rewrite (extract_step_throws this challengeUrl t
               ("Failed to fetch HTML: " ++ e)%string t1) by (left; exact H1).
    cbn [snd]. unfold Spec.extractFailed.
    rewrite requests_logged, delays_logged by auto with logs.
    exists n1, 0, EmptyString, m1. rewrite R1, D1. simpl. rewrite app_nil_r.
    repeat split; auto; lia.
Qed.

(** X19.  Whatever the arguments and whatever the server and the parsers
    do, the program sends at most six requests, at most three to the
    challenge URL and after them at most three to one single address, and
    waits at most four times, one second each time. *)
Theorem main_traffic `{P : Platform} (argv : list string) (t : Trace) :
  exists n1 n2 u2 m,
    requests (snd (main argv t)) = requests t ++ repeat CHALLENGE_URL n1 ++ repeat u2 n2 /\
    n1 <= 3 /\ n2 <= 3 /\
    delays (snd (main argv t)) = delays t ++ repeat 1000 m /\
    m <= 4.
Proof.
  unfold main. cbv zeta. destruct (help (parseArgs argv)).
  - exists 0, 0, EmptyString, 0. cbn. rewrite requests_app, delays_app. simpl.
    rewrite !app_nil_r. repeat split; auto; lia.
  - set (solver := RampCTFSolver.new (if debug (parseArgs argv) then DEBUG else INFO)).
    assert (R0 : requests (Spec.runStart solver t) = requests t).
    { unfold Spec.runStart. apply requests_logged. repeat apply logs_bind; auto with logs. }
    assert (D0 : delays (Spec.runStart solver t) = delays t).
    { unfold Spec.runStart. apply delays_logged. repeat apply logs_bind; auto with logs. }
    destruct (extract_traffic (RampCTFSolver.extractor solver) CHALLENGE_URL
                (Spec.runStart solver t)) as (n1 & n2 & u2 & m & R & N1 & N2 & D & M).
    { apply Forall_cons; [intros h; apply offline_xpath|].
      apply Forall_cons; [intros h; apply offline_jsdom|].
      apply Forall_cons; [intros h; apply offline_regex | apply Forall_nil]. }
    rewrite R0 in R. rewrite D0 in D.
    change (HttpClient.maxRetries (UrlExtractor.httpClient (RampCTFSolver.extractor solver)))
      with 3 in N1, N2, M.
    change (HttpClient.retryDelay (UrlExtractor.httpClient (RampCTFSolver.extractor solver)))
      with 1000 in D.
    exists n1, n2, u2, m.
    pose proof (run_cases solver t) as C. unfold bind.
    destruct (UrlExtractor.extract (RampCTFSolver.extractor solver) CHALLENGE_URL
                (Spec.runStart solver t)) as [[r|e|] t1]; cbn [snd] in R, D.
    + destruct C as (ev & C & (Sr & Sd & _)). rewrite C. unfold ret. cbn [snd].
      rewrite requests_app, delays_app, Sr, Sd, !app_nil_r.
      repeat split; auto; simpl in *; lia.
    + rewrite C. unfold ret. cbn [snd]. rewrite requests_app, delays_app. simpl.
      rewrite !app_nil_r. repeat split; auto; simpl in *; lia.
    + rewrite C. cbn [snd]. repeat split; auto; simpl in *; lia.
Qed.

(** ** The solver when strategies find nothing *)

Lemma jsdom_extract_throws `{P : Platform} (this : JSDOMStrategy.t) (html e : string) :
  jsdom html = Throw e ->
  forall t, exists ev,
    JSDOMStrategy.extract this html t
    = (Throw ("JSDOM extraction failed: " ++ e)%string, t ++ ev) /\ silent ev.
Proof.
  intros H t. unfold JSDOMStrategy.extract, Logger.info, Logger.error.
  change (Logger._shouldLog (JSDOMStrategy.logger this) ERROR) with true.
  rewrite H.
  destruct (Logger._shouldLog (JSDOMStrategy.logger this) INFO);
    unfold try_catch, bind, lift, emit, ret, throw; cbn [fst snd];
    rewrite <- ?app_assoc; eexists; (split; [reflexivity|]); repeat split.
Qed.

(** Without the text of the class, in any case of the letters, the regular
    expression finds nothing. *)
Lemma regex_finds_nothing (html : string) :
  Spec.includesIgnoringCase Spec.classText html = false ->
  Regex.execLoop RegexStrategy._buildRegexPattern html = Some [].
Proof.
  intros N.
  destruct (execLoop_ends RegexStrategy._buildRegexPattern "<"
              (tl (Regex.source RegexStrategy._buildRegexPattern)) eq_refl html)
    as (found & E).
  destruct found as [|g found]; [exact E|]. exfalso.
  apply execLoop_first in E. destruct E as (skipped & rest & S).
  apply (search_invariant RegexStrategy._buildRegexPattern
           (fun s _ => Spec.includesIgnoringCase Spec.classText s = true)) in S.
  - rewrite S in N. discriminate.
  - intros; apply includesIgnoringCase_extends; assumption.
  - intros s r M.
    apply (matchHere_literal Spec.classText
             ([Regex.Star RegexStrategy.notClosing]
              ++ Regex.lit (PATTERN.VALUE_ATTRIBUTE ++ "=" ++ JS.dquote)
              ++ [Regex.Group RegexStrategy.notQuote] ++ Regex.lit JS.dquote
              ++ [Regex.Star RegexStrategy.notClosing] ++ Regex.lit ">")
             (RegexStrategy.sectionPattern ++ RegexStrategy.articlePattern
              ++ RegexStrategy.divPattern
              ++ Regex.LazyStar Regex.AnyChar :: Regex.lit "<b"
              ++ [Regex.Star RegexStrategy.notClosing]) None s r).
    exact M.
Qed.

Section SolverFallbacks.

Context `{P : Platform}.
Variable logLevel : LogLevel.
Variable html : string.

Let solver : RampCTFSolver.t := RampCTFSolver.new logLevel.
Let extractor : UrlExtractor.t := RampCTFSolver.extractor solver.
Let parser : HtmlParser.t := RampCTFSolver.htmlParser solver.
Let xs : XPathStrategy.t := {| XPathStrategy.logger := RampCTFSolver.logger solver |}.
Let js : JSDOMStrategy.t := {| JSDOMStrategy.logger := RampCTFSolver.logger solver |}.
Let rs : RegexStrategy.t := {| RegexStrategy.logger := RampCTFSolver.logger solver |}.
Let X : ExtractionStrategy.t := XPathStrategy.strategy xs.
Let J : ExtractionStrategy.t := JSDOMStrategy.strategy js.
Let R : ExtractionStrategy.t := RegexStrategy.strategy rs.

Hypothesis xpath_nothing :
  (exists e, parseFromString html = Throw e) \/
  (exists d, parseFromString html = Return d /\
             XPath.select XPathStrategy._buildXPathExpression d = []).

Hypothesis jsdom_nothing :
  (exists e, jsdom html = Throw e) \/
  (exists d, jsdom html = Return d /\ flat_map Spec.valueOf (Spec.jsdomVisited d) = []).

(** The loop of [parse] passes over the two tree strategies. *)
Lemma solver_skips_trees (t : Trace) :
  exists tx,
    HtmlParser.parse_loop parser html [X; J; R] None t
    = HtmlParser.parse_loop parser html [R] (Spec.treesError html) tx /\
    extracts tx = extracts t ++ ["XPath Strategy"%string; "JSDOM Strategy"%string] /\
    requests tx = requests t /\ delays tx = delays t.
Proof.
  assert (SX : exists tx,
            HtmlParser.parse_loop parser html [X; J; R] None t
            = HtmlParser.parse_loop parser html [J; R]
                match parseFromString html with
                | Throw e => Some ("XPath extraction failed: " ++ e)%string
                | _ => None
                end tx /\
            extracts tx = extracts t ++ ["XPath Strategy"%string] /\
            requests tx = requests t /\ delays tx = delays t).
  { rewrite parse_loop_cons.
    assert (X0 : extracts (Spec.entering parser X t) = extracts t ++ ["XPath Strategy"%string])
      by apply extracts_entering.
    assert (R0 : requests (Spec.entering parser X t) = requests t /\
                 delays (Spec.entering parser X t) = delays t).
    { unfold Spec.entering.
      apply (offline_bind _ _ (offline_logs _ (logs_info _ _))
               (fun _ => offline_extract_event _)). }
    destruct R0 as [R0 D0].
    change (ExtractionStrategy.extract X html)
      with (XPathStrategy.extract xs html).
    destruct xpath_nothing as [(e & PX)|(d & PX & Vd)].
    - destruct (xpath_extract_throws xs html e PX (Spec.entering parser X t))
        as (ev & E & (Sr & Sd & Se)).
      rewrite E, PX. eexists. split; [reflexivity|].
      unfold Spec.warned.
      rewrite extracts_logged, requests_logged, delays_logged by auto with logs.
      rewrite extracts_app, requests_app, delays_app, Sr, Sd, Se, !app_nil_r. auto.
    - destruct (xpath_extract_returns xs html d PX (Spec.entering parser X t))
        as (ev & E & (Sr & Sd & Se)).
      rewrite Vd in E. cbn [map] in E. rewrite E, PX. eexists. split; [reflexivity|].
      rewrite extracts_app, requests_app, delays_app, Sr, Sd, Se, !app_nil_r. auto. }
  destruct SX as (tx & E1 & X1 & R1 & D1). rewrite E1. unfold Spec.treesError.
  rewrite parse_loop_cons.
  assert (X0 : extracts (Spec.entering parser J tx) = extracts tx ++ ["JSDOM Strategy"%string])
    by apply extracts_entering.
  assert (R0 : requests (Spec.entering parser J tx) = requests tx /\
               delays (Spec.entering parser J tx) = delays tx).
  { unfold Spec.entering.
    apply (offline_bind _ _ (offline_logs _ (logs_info _ _))
             (fun _ => offline_extract_event _)). }
  destruct R0 as [R0 D0].
  change (ExtractionStrategy.extract J html)
    with (JSDOMStrategy.extract js html).
  destruct jsdom_nothing as [(e & PJ)|(d & PJ & Vd)].
  - destruct (jsdom_extract_throws js html e PJ (Spec.entering parser J tx))
      as (ev & E & (Sr & Sd & Se)).
    rewrite E, PJ. eexists. split; [reflexivity|].
    unfold Spec.warned.
    rewrite extracts_logged, requests_logged, delays_logged by auto with logs.
    rewrite extracts_app, requests_app, delays_app, Sr, Sd, Se, !app_nil_r.
    rewrite X0, X1, R0, R1, D0, D1, <- app_assoc. auto.
  - destruct (jsdom_extract_returns js html d PJ (Spec.entering parser J tx))
      as (ev & E & (Sr & Sd & Se)).
    rewrite Vd in E. rewrite E, PJ. eexists. split; [reflexivity|].
    rewrite extracts_app, requests_app, delays_app, Sr, Sd, Se, !app_nil_r.
    rewrite X0, X1, R0, R1, D0, D1, <- app_assoc. auto.
Qed.

(** The Regex strategy as the last of the loop. *)
Lemma solver_loop_regex (found : list (option string)) (lastError : option string)
  (tx : Trace) :
  Regex.execLoop RegexStrategy._buildRegexPattern html = Some found ->
  exists t2,
    HtmlParser.parse_loop parser html [R] lastError tx
    = (match map Spec.pushed found with
       | [] => Throw (Spec.allStrategiesFailed lastError)
       | cs => Return cs
       end, t2) /\
    extracts t2 = extracts tx ++ ["Regex Strategy"%string] /\
    requests t2 = requests tx /\ delays t2 = delays tx.
Proof.
  intros E. rewrite parse_loop_cons.
  assert (R0 : requests (Spec.entering parser R tx) = requests tx /\
               delays (Spec.entering parser R tx) = delays tx).
  { unfold Spec.entering.
    apply (offline_bind _ _ (offline_logs _ (logs_info _ _))
             (fun _ => offline_extract_event _)). }
  destruct R0 as [R0 D0].
  change (ExtractionStrategy.extract R html)
    with (RegexStrategy.extract rs html).
  destruct (regex_extract_returns rs html found E (Spec.entering parser R tx))
    as (ev & Er & (Sr & Sd & Se)).
  rewrite Er.
  destruct (map Spec.pushed found) as [|c cs].
  - rewrite parse_loop_nil. eexists. split; [reflexivity|].
    rewrite extracts_app, requests_app, delays_app, Sr, Sd, Se, !app_nil_r.
    rewrite extracts_entering. auto.
  - eexists. split; [reflexivity|]. unfold Spec.reported.
    rewrite extracts_logged, requests_logged, delays_logged by auto with logs.
    rewrite extracts_app, requests_app, delays_app, Sr, Sd, Se, !app_nil_r.
    rewrite extracts_entering. auto.
Qed.

End SolverFallbacks.

Lemma solver_first_fetch_traffic `{P : Platform} (logLevel : LogLevel) (t : Trace)
  (message html : string) :
  urlParses CHALLENGE_URL = true ->
  network (List.length (requests t)) CHALLENGE_URL = HttpResponse 200 message html ->
  Validator.validateHtml html = Return true ->
  exists t1,
    HttpClient.fetch
      (UrlExtractor.httpClient (RampCTFSolver.extractor (RampCTFSolver.new logLevel)))
      CHALLENGE_URL 0
      (Spec.htmlFetchStart (RampCTFSolver.extractor (RampCTFSolver.new logLevel))
         (Spec.runStart (RampCTFSolver.new logLevel) t)) = (Return html, t1) /\
    extracts t1 = extracts t /\
    requests t1 = requests t ++ [CHALLENGE_URL] /\
    delays t1 = delays t.
Proof.
  intros U N V.
  set (solver := RampCTFSolver.new logLevel).
  set (extractor := RampCTFSolver.extractor solver).
  assert (O : Spec.offline (fun t0 => (Return tt, Spec.htmlFetchStart extractor
                                                     (Spec.runStart solver t0)))).
  { intros t0. cbn [snd]. unfold Spec.htmlFetchStart.
    rewrite requests_logged, delays_logged by auto with logs.
    unfold Spec.pipelineStart.
    rewrite requests_logged, delays_logged by apply logs_pipelineStart.
    unfold Spec.runStart.
    rewrite requests_logged, delays_logged by (repeat apply logs_bind; auto with logs).
    auto. }
  destruct (O t) as [R D]. cbn [snd] in R, D.
  destruct (solver_first_fetch logLevel t message html U N V) as (t1 & F & X1).
  exists t1. split; [exact F|]. split; [exact X1|].
  destruct (fetch_first_attempt (UrlExtractor.httpClient extractor) CHALLENGE_URL 0
              (Spec.htmlFetchStart extractor (Spec.runStart solver t)))
    as (t1' & message' & data & _ & _ & E & R1 & D1 & _).
  { rewrite R. unfold Spec.attemptFailure. rewrite U, N, V. reflexivity. }
  fold solver extractor in F. rewrite F in E. inversion E; subst.
  rewrite R1, D1, R, D. auto.
Qed.


(** The call of [extract] made by [run], on a page where no strategy finds
    anything. *)
Lemma solver_extract_fails `{P : Platform} (logLevel : LogLevel) (t : Trace)
  (message html : string) :
  urlParses CHALLENGE_URL = true ->
  network (List.length (requests t)) CHALLENGE_URL = HttpResponse 200 message html ->
  Validator.validateHtml html = Return true ->
  ((exists e, parseFromString html = Throw e) \/
   (exists d, parseFromString html = Return d /\
              XPath.select XPathStrategy._buildXPathExpression d = [])) ->
  ((exists e, jsdom html = Throw e) \/
   (exists d, jsdom html = Return d /\
              flat_map Spec.valueOf (Spec.jsdomVisited d) = [])) ->
  Spec.includesIgnoringCase Spec.classText html = false ->
  exists t1,
    UrlExtractor.extract (RampCTFSolver.extractor (RampCTFSolver.new logLevel))
      CHALLENGE_URL (Spec.runStart (RampCTFSolver.new logLevel) t)
    = (Throw ("Failed to extract characters: "
              ++ Spec.allStrategiesFailed (Spec.treesError html))%string, t1) /\
    extracts t1
      = extracts t ++ ["XPath Strategy"%string; "JSDOM Strategy"%string;
                       "Regex Strategy"%string] /\
    requests t1 = requests t ++ [CHALLENGE_URL] /\
    delays t1 = delays t.
Proof.
  intros U N V PX PJ NC.
  set (solver := RampCTFSolver.new logLevel).
  set (extractor := RampCTFSolver.extractor solver).
  set (parser := RampCTFSolver.htmlParser solver).
  destruct (solver_first_fetch_traffic logLevel t message html U N V)
    as (t1 & F & X1 & R1 & D1).
  fold solver extractor in F.
  set (tp := Spec.parseStart extractor html t1).
  assert (Op : extracts tp = extracts t1 /\ requests tp = requests t1 /\ delays tp = delays t1).
  { unfold tp, Spec.parseStart.
    rewrite extracts_logged, requests_logged, delays_logged
      by (apply logs_bind; auto with logs). auto. }
  destruct Op as (Xp & Rp & Dp).
  destruct (solver_skips_trees logLevel html PX PJ (Spec.started parser tp))
    as (tx & E1 & X2 & R2 & D2).
  set (le := Spec.treesError html) in *.
  destruct (solver_loop_regex logLevel html [] le tx (regex_finds_nothing html NC))
    as (t2 & E2 & X3 & R3 & D3).
  cbn [map] in E2.
  assert (X : HtmlParser.parse parser html tp
              = (Throw (Spec.allStrategiesFailed le), Spec.failed parser t2)).
  { rewrite (parse_valid _ _ _ V).
    change (HtmlParser.strategies parser)
      with [XPathStrategy.strategy {| XPathStrategy.logger := RampCTFSolver.logger solver |};
            JSDOMStrategy.strategy {| JSDOMStrategy.logger := RampCTFSolver.logger solver |};
            RegexStrategy.strategy {| RegexStrategy.logger := RampCTFSolver.logger solver |}].
    fold solver parser in E1, E2. rewrite E1, E2. reflexivity. }
  pose proof (fetchHtml_cases extractor CHALLENGE_URL (Spec.runStart solver t)) as H1.
  rewrite F in H1.
  pose proof (extractCharacters_cases extractor html t1) as H2.
  change (UrlExtractor.htmlParser extractor) with parser in H2.
  fold tp in H2. rewrite X in H2.
  pose proof (extract_step_throws extractor CHALLENGE_URL (Spec.runStart solver t)
                ("Failed to extract characters: " ++ Spec.allStrategiesFailed le)%string
                (Spec.failed parser t2)
                (or_intror (ex_intro _ _ (ex_intro _ _ (conj H1 H2))))) as E.
  eexists. split; [exact E|].
  unfold Spec.extractFailed, Spec.failed.
  rewrite !extracts_logged, !requests_logged, !delays_logged by auto with logs.
  rewrite X3, R3, D3, X2, R2, D2. unfold Spec.started.
  rewrite extracts_logged, requests_logged, delays_logged by auto with logs.
  rewrite Xp, Rp, Dp, X1, R1, D1, <- app_assoc. auto.
Qed.

(** X21.  When the server answers the first request with a valid page on
    which the two tree strategies find nothing and in which the text of the
    class attribute required by the regular expression does not occur,
    [run] ends the process with status 1 after one error line of its own:
    the three strategies have been called once each, one request has been
    sent and nothing has been awaited. *)
Theorem solver_finds_nothing `{P : Platform} (logLevel : LogLevel) (t : Trace)
  (message html : string)
  (U : urlParses CHALLENGE_URL = true)
  (N : network (List.length (requests t)) CHALLENGE_URL = HttpResponse 200 message html)
  (V : Validator.validateHtml html = Return true)
  (PX : (exists e, parseFromString html = Throw e) \/
        (exists d, parseFromString html = Return d /\
                   XPath.select XPathStrategy._buildXPathExpression d = []))
  (PJ : (exists e, jsdom html = Throw e) \/
        (exists d, jsdom html = Return d /\
                   flat_map Spec.valueOf (Spec.jsdomVisited d) = []))
  (NC : Spec.includesIgnoringCase Spec.classText html = false) :
  exists t1,
    RampCTFSolver.run (RampCTFSolver.new logLevel) t
      = (Return (Exited 1), t1 ++ [Console "ERROR" "Failed to solve challenge"]) /\
    extracts t1
      = extracts t ++ ["XPath Strategy"%string; "JSDOM Strategy"%string;
                       "Regex Strategy"%string] /\
    requests t1 = requests t ++ [CHALLENGE_URL] /\
    delays t1 = delays t.
Proof.
  destruct (solver_extract_fails logLevel t message html U N V PX PJ NC)
    as (t1 & E & T).
  pose proof (run_cases (RampCTFSolver.new logLevel) t) as C.
  rewrite E in C. exists t1. split; [exact C | exact T].
Qed.

(** X22.  The error that [run] catches in that case names the last strategy
    that threw: the JSDOM strategy with the error of its parser when that
    parser throws; else the XPath strategy with the error of its parser when
    that one throws; and an unknown error when both parsers returned a tree
    and no strategy threw. *)
Theorem solver_error_names_last_failure `{P : Platform} (logLevel : LogLevel) (t : Trace)
  (message html : string)
  (U : urlParses CHALLENGE_URL = true)
  (N : network (List.length (requests t)) CHALLENGE_URL = HttpResponse 200 message html)
  (V : Validator.validateHtml html = Return true)
  (PX : (exists e, parseFromString html = Throw e) \/
        (exists d, parseFromString html = Return d /\
                   XPath.select XPathStrategy._buildXPathExpression d = []))
  (PJ : (exists e, jsdom html = Throw e) \/
        (exists d, jsdom html = Return d /\
                   flat_map Spec.valueOf (Spec.jsdomVisited d) = []))
  (NC : Spec.includesIgnoringCase Spec.classText html = false) :
  let thrown :=
    fst (UrlExtractor.extract (RampCTFSolver.extractor (RampCTFSolver.new logLevel))
           CHALLENGE_URL (Spec.runStart (RampCTFSolver.new logLevel) t)) in
  let failure :=
    "Failed to extract characters: All extraction strategies failed. Last error: "%string in
  (forall e, jsdom html = Throw e ->
     thrown = Throw (failure ++ "JSDOM extraction failed: " ++ e)%string) /\
  (forall d e, jsdom html = Return d -> parseFromString html = Throw e ->
     thrown = Throw (failure ++ "XPath extraction failed: " ++ e)%string) /\
  (forall d d', jsdom html = Return d -> parseFromString html = Return d' ->
     thrown = Throw (failure ++ "Unknown error")%string).
Proof.
  destruct (solver_extract_fails logLevel t message html U N V PX PJ NC)
    as (t1 & E & _).
  cbv zeta. rewrite E. cbn [fst]. unfold Spec.treesError.
  split; [|split].
  - intros e HJ. rewrite HJ. reflexivity.
  - intros d e HJ HX. rewrite HJ, HX. reflexivity.
  - intros d d' HJ HX. rewrite HJ, HX. reflexivity.
Qed.


Lemma solver_finds_nothing_witness :
  exists t1,
    @RampCTFSolver.run Fixtures.pageServer (@RampCTFSolver.new Fixtures.pageServer INFO) []
    = (Return (Exited 1), t1 ++ [Console "ERROR" "Failed to solve challenge"]) /\
    requests t1 = [CHALLENGE_URL].
Proof.
  destruct (@solver_finds_nothing Fixtures.pageServer INFO [] "OK" "<html>ok</html>"
              eq_refl eq_refl eq_refl
              (or_intror (ex_intro _ Fixtures.emptyDocument (conj eq_refl eq_refl)))
              (or_intror (ex_intro _ Fixtures.emptyDocument (conj eq_refl eq_refl)))
              eq_refl)
    as (t1 & R & _ & Rq & _).
  exists t1. split; [exact R | exact Rq].
Defined.

Lemma solver_error_names_last_failure_witness :
  fst (@UrlExtractor.extract (Fixtures.bothBlind Fixtures.referenceClass)
         (RampCTFSolver.extractor
            (@RampCTFSolver.new (Fixtures.bothBlind Fixtures.referenceClass) INFO))
         CHALLENGE_URL
         (Spec.runStart (@RampCTFSolver.new (Fixtures.bothBlind Fixtures.referenceClass) INFO) []))
  = Throw ("Failed to extract characters: All extraction strategies failed. "
           ++ "Last error: JSDOM extraction failed: out of memory").
Proof.
  exact (proj1 (@solver_error_names_last_failure
                  (Fixtures.bothBlind Fixtures.referenceClass) INFO [] "OK"
                  (Spec.renderDocument Fixtures.referenceClass)
                  eq_refl eq_refl eq_refl
                  (or_introl (ex_intro _ "not well-formed"%string eq_refl))
                  (or_introl (ex_intro _ "out of memory"%string eq_refl))
                  eq_refl) "out of memory"%string eq_refl).
Defined.
